(** * Evergreen Multi Agents: a shallow embedding of the orchestration core

    The development follows the Python sources of the repository:
    - [backend/src/database.py] and [pipeline/src/database.py]: the
      PostgreSQL access layer (customers, roadmap items, vector search);
    - [backend/src/agents/customer_agent.py],
      [packages/backend/src/agents/orchestrator.py] and
      [packages/backend/src/agents/roadmap_agent.py]: tool dispatchers and
      the tool-calling conversation loop;
    - [packages/pipeline/src/ingestion.py] and [src/ingestion.py]: the
      ingestion worker and the older in-process ingestion;
    - [packages/db_mcp/server.py]: the MCP search tool.

    Python exceptions are values of [exn]; a Python function becomes a
    function into [result].  The PostgreSQL database is a record of row
    lists, threaded explicitly; a transaction that raises before
    [conn.commit()] leaves the committed rows as they were.  Floating point
    numbers (vector components, distances) are modelled as rationals. *)

From Stdlib Require Import ZArith QArith String Ascii List Lia Bool.
From Stdlib Require Import DecimalString Sorted Permutation.
From stdpp Require Import gmap strings list.

Open Scope string_scope.

(** ** Python values, exceptions and calls *)

Module Py.

(** The exceptions the modelled code can raise; each carries [str(e)]. *)
Inductive exn : Type :=
| TypeError (msg : string)
| AttributeError (msg : string)
| ValueError (msg : string)
| ValidationError (msg : string)
| IntegrityError (msg : string)
| DataError (msg : string)
| RequestException (msg : string)
| IndexError (msg : string)
| StopIteration.

Definition str_exn (e : exn) : string :=
  match e with
  | TypeError m | AttributeError m | ValueError m | ValidationError m
  | IntegrityError m | DataError m | RequestException m | IndexError m => m
  | StopIteration => EmptyString
  end.

Inductive result (A : Type) : Type :=
| Ok (a : A)
| Raise (e : exn).
Arguments Ok {A} a.
Arguments Raise {A} e.

Definition bind {A B} (r : result A) (k : A -> result B) : result B :=
  match r with
  | Ok a => k a
  | Raise e => Raise e
  end.

Definition is_ok {A} (r : result A) : bool :=
  match r with Ok _ => true | Raise _ => false end.

(** The values a JSON document or a model-issued argument mapping holds. *)
Inductive value : Type :=
| VNone
| VBool (b : bool)
| VInt (z : Z)
| VStr (s : string).

(** Truth value testing: [None], [False], [0] and the empty string are
    false. *)
Definition truthy (v : value) : bool :=
  match v with
  | VNone => false
  | VBool b => b
  | VInt z => negb (z =? 0)%Z
  | VStr s => negb (String.eqb s EmptyString)
  end.

(** [a or b] on optional dictionary lookups ([dict.get] gives [None] for a
    missing key). *)
Definition of_get (o : option value) : value :=
  match o with Some v => v | None => VNone end.

Definition py_or (a b : value) : value := if truthy a then a else b.

Definition string_of_Z (z : Z) : string := NilZero.string_of_int (Z.to_int z).

Definition nl : string := String (ascii_of_nat 10) EmptyString.

(** A required parameter that the call site leaves out: binding the call
    raises [TypeError]. *)
Definition required {A} (fname pname : string) (a : option A) : result A :=
  match a with
  | Some x => Ok x
  | None =>
      Raise (TypeError (fname +:+ "() missing 1 required positional argument: '"
                        +:+ pname +:+ "'"))
  end.

(** Binding a call that unpacks a keyword mapping against the parameter
    list of [f]: every key must
    name a parameter, and every parameter without a default must be given.
    A parameter is a name with its optional default. *)
Definition param : Type := string * option value.

Definition unexpected_keys (params : list param) (kwargs : gmap string value)
  : list string :=
  filter (fun k => k ∉ map fst params) (map fst (map_to_list kwargs)).

Fixpoint bind_params (fname : string) (params : list param)
    (kwargs : gmap string value) : result (list value) :=
  match params with
  | [] => Ok []
  | (p, dflt) :: rest =>
      match kwargs !! p, dflt with
      | Some v, _ | None, Some v =>
          bind (bind_params fname rest kwargs) (fun vs => Ok (v :: vs))
      | None, None =>
          Raise (TypeError (fname +:+ "() missing 1 required positional argument: '"
                            +:+ p +:+ "'"))
      end
  end.

Definition call_kwargs (fname : string) (params : list param)
    (kwargs : gmap string value) : result (list value) :=
  match unexpected_keys params kwargs with
  | k :: _ =>
      Raise (TypeError (fname +:+ "() got an unexpected keyword argument '"
                        +:+ k +:+ "'"))
  | [] => bind_params fname params kwargs
  end.

End Py.

Import Py.

Notation "'let*' x ':=' r 'in' k" := (Py.bind r (fun x => k))
  (at level 10, x name, r at level 100, k at level 200).

(** ** PostgreSQL pattern matching *)

Module Sql.

Definition to_lower (c : ascii) : ascii :=
  let n := nat_of_ascii c in
  if (65 <=? n)%nat && (n <=? 90)%nat then ascii_of_nat (n + 32) else c.

Definition lower (s : list ascii) : list ascii := map to_lower s.

(** [s LIKE pat]: [%] stands for any run of characters, [_] for any single
    character, and a backslash makes the next pattern character literal.
    A pattern that ends in a lone backslash is rejected by the server; the
    patterns built in this repository end in [%] and never do, and the
    model gives [false] there. *)
Fixpoint like (pat : list ascii) : list ascii -> bool :=
  match pat with
  | [] => fun s => match s with [] => true | _ => false end
  | c :: pat' =>
      if Ascii.eqb c "%" then
        fix any (s : list ascii) : bool :=
          like pat' s || match s with [] => false | _ :: s' => any s' end
      else if Ascii.eqb c "_" then
        fun s => match s with [] => false | _ :: s' => like pat' s' end
      else if Ascii.eqb c "\" then
        match pat' with
        | [] => fun _ => false
        | e :: pat'' =>
            fun s => match s with
                     | [] => false
                     | d :: s' => Ascii.eqb e d && like pat'' s'
                     end
        end
      else
        fun s => match s with
                 | [] => false
                 | d :: s' => Ascii.eqb c d && like pat' s'
                 end
  end.

(** [s ILIKE pat], on ASCII letters. *)
Definition ilike (s pat : string) : bool :=
  like (lower (list_ascii_of_string pat)) (lower (list_ascii_of_string s)).

(** A nullable text column compared with [ILIKE]: [NULL ILIKE pat] is
    [NULL], and a [WHERE] clause keeps only rows where it is true. *)
Definition ilike_null (col : option string) (pat : string) : bool :=
  match col with
  | Some s => ilike s pat
  | None => false
  end.

End Sql.

(** ** The document store

    The two tables created by [init_db].  A row is a record of the columns;
    a nullable column is an [option].  Timestamps are seconds on the
    server clock. *)

Definition vector : Type := list Q.

Module CustomerRow.
Record t : Type := mk {
  id : Z;                        (* SERIAL PRIMARY KEY *)
  name : string;                 (* TEXT NOT NULL UNIQUE *)
  description : string;          (* TEXT NOT NULL *)
  products_used : string;        (* TEXT NOT NULL *)
  priority : option string;      (* TEXT DEFAULT 'medium' *)
  notes : option string;         (* TEXT *)
  created_at : option Z;         (* TIMESTAMP DEFAULT CURRENT_TIMESTAMP *)
  updated_at : option Z          (* TIMESTAMP DEFAULT CURRENT_TIMESTAMP *)
}.
End CustomerRow.

Module RoadmapRow.
Record t : Type := mk {
  id : Z;                        (* INTEGER PRIMARY KEY *)
  title : string;                (* TEXT NOT NULL *)
  description : option string;
  status : option string;
  release_date : option string;
  products : option string;
  platforms : option string;
  cloud_instances : option string;
  release_phase : option string;
  document : string;             (* TEXT NOT NULL *)
  embedding : option vector;     (* vector(N) *)
  created_at : option Z;
  updated_at : option Z
}.
End RoadmapRow.

Record store : Type := mk_store {
  customers : list CustomerRow.t;
  customers_id_seq : Z;          (* last value handed out by the SERIAL *)
  roadmap_items : list RoadmapRow.t;
  (* the order of the database's collation on TEXT, fixed when the
     database is created: [collation a b] when [a] sorts no later than [b] *)
  collation : string -> string -> bool
}.

(** An empty database created with the byte-order collation C. *)
Definition empty_store : store := mk_store [] 0 [] String.leb.

(** The constraints the schema declares. *)
Definition unique_names (db : store) : Prop :=
  NoDup (map CustomerRow.name (customers db)).

Definition roadmap_pk (db : store) : Prop :=
  NoDup (map RoadmapRow.id (roadmap_items db)).

(** ** backend/src/database.py: customers *)

Module Customer.
Record t : Type := mk {
  id : option Z;
  name : string;
  description : string;
  products_used : string;
  priority : string;
  notes : option string;
  created_at : option Z;
  updated_at : option Z
}.
End Customer.

Module Database.

Definition get_db_connection (database_url : option string) : result string :=
  required "get_db_connection" "database_url" database_url.

(** Building a [Customer] from a fetched row: [priority] is declared [str], so a
    NULL priority fails validation. *)
Definition customer_of_row (r : CustomerRow.t) : result Customer.t :=
  match CustomerRow.priority r with
  | Some p =>
      Ok (Customer.mk (Some (CustomerRow.id r)) (CustomerRow.name r)
            (CustomerRow.description r) (CustomerRow.products_used r) p
            (CustomerRow.notes r) (CustomerRow.created_at r)
            (CustomerRow.updated_at r))
  | None => Raise (ValidationError "priority: Input should be a valid string")
  end.

Definition name_taken (n : string) (rows : list CustomerRow.t) : bool :=
  existsb (fun r => String.eqb (CustomerRow.name r) n) rows.

(** [add_customer]: one INSERT, then commit.  The SERIAL default takes the
    next sequence value before the row is checked, and a sequence is not
    rolled back; a violated UNIQUE(name) raises before the commit, so no
    row is written. *)
Definition add_customer (customer : Customer.t) (database_url : option string)
    (now : Z) (db : store) : result Z * store :=
  match (let* url := required "add_customer" "database_url" database_url in
         get_db_connection (Some url)) with
  | Raise e => (Raise e, db)
  | Ok _ =>
      let customer_id := (customers_id_seq db + 1)%Z in
      if name_taken (Customer.name customer) (customers db) then
        (Raise (IntegrityError
                  "duplicate key value violates unique constraint customers_name_key"),
         mk_store (customers db) customer_id (roadmap_items db)
           (collation db))
      else
        let row :=
          CustomerRow.mk customer_id (Customer.name customer)
            (Customer.description customer) (Customer.products_used customer)
            (Some (Customer.priority customer)) (Customer.notes customer)
            (Some now) (Some now) in
        (Ok customer_id,
         mk_store (customers db ++ [row]) customer_id (roadmap_items db)
           (collation db))
  end.

(** A Python value bound to [WHERE id = %s]: an integer compares as
    itself, a string must be a decimal literal, [None] is NULL (equal to
    nothing) and a boolean has no comparison with an integer column. *)
Definition sql_int (v : value) : result (option Z) :=
  match v with
  | VInt z => Ok (Some z)
  | VNone => Ok None
  | VBool _ => Raise (DataError "operator does not exist: integer = boolean")
  | VStr s =>
      match NilZero.int_of_string s with
      | Some d => Ok (Some (Z.of_int d))
      | None => Raise (DataError "invalid input syntax for type integer")
      end
  end.

Definition has_id (key : option Z) (r : CustomerRow.t) : bool :=
  match key with
  | Some z => bool_decide (CustomerRow.id r = z)
  | None => false
  end.

Definition get_customer (customer_id : value) (database_url : option string)
    (db : store) : result (option Customer.t) :=
  let* url := required "get_customer" "database_url" database_url in
  let* _ := get_db_connection (Some url) in
  let* key := sql_int customer_id in
  match List.filter (has_id key) (customers db) with
  | r :: _ => let* c := customer_of_row r in Ok (Some c)
  | [] => Ok None
  end.

Definition get_customer_by_name (name : string) (database_url : option string)
    (db : store) : result (option Customer.t) :=
  let* url := required "get_customer_by_name" "database_url" database_url in
  let* _ := get_db_connection (Some url) in
  match List.filter (fun r => Sql.ilike (CustomerRow.name r) ("%" +:+ name +:+ "%"))
               (customers db) with
  | r :: _ => let* c := customer_of_row r in Ok (Some c)
  | [] => Ok None
  end.

Fixpoint mapM {A B} (f : A -> result B) (l : list A) : result (list B) :=
  match l with
  | [] => Ok []
  | a :: l' => let* b := f a in let* bs := mapM f l' in Ok (b :: bs)
  end.

(** [ORDER BY name]: the statement names no collation, so the names are
    ordered by the collation [le] of the database. *)
Fixpoint insert_by_name (le : string -> string -> bool) (r : CustomerRow.t)
    (l : list CustomerRow.t) : list CustomerRow.t :=
  match l with
  | [] => [r]
  | r' :: l' =>
      if le (CustomerRow.name r) (CustomerRow.name r')
      then r :: l else r' :: insert_by_name le r l'
  end.

Definition order_by_name (le : string -> string -> bool)
    (l : list CustomerRow.t) : list CustomerRow.t :=
  foldr (insert_by_name le) [] l.

Definition list_customers (database_url : option string) (db : store)
  : result (list Customer.t) :=
  let* url := required "list_customers" "database_url" database_url in
  let* _ := get_db_connection (Some url) in
  mapM customer_of_row (order_by_name (collation db) (customers db)).

(** One assignment of the SET clause.  The caller, [update_customer_tool],
    passes keywords among [name], [description], [products_used],
    [priority] and [notes], each with a string; these assignments of a
    string to a text column are what is modelled.  Every other keyword or
    value is outside the model and is given as an error here (the statement
    the source builds takes any keyword). *)
Definition set_column (k : string) (val : value) (r : CustomerRow.t)
  : result CustomerRow.t :=
  let '(CustomerRow.mk i n d p pr no c u) := r in
  let* v := match val with
            | VStr v => Ok v
            | _ => Raise (DataError ("column " +:+ k +:+ " is of type text"))
            end in
  if String.eqb k "name" then Ok (CustomerRow.mk i v d p pr no c u)
  else if String.eqb k "description" then Ok (CustomerRow.mk i n v p pr no c u)
  else if String.eqb k "products_used" then Ok (CustomerRow.mk i n d v pr no c u)
  else if String.eqb k "priority" then Ok (CustomerRow.mk i n d p (Some v) no c u)
  else if String.eqb k "notes" then Ok (CustomerRow.mk i n d p pr (Some v) c u)
  else Raise (DataError ("column " +:+ k +:+ " of relation customers does not exist")).

Fixpoint set_columns (kwargs : list (string * value)) (r : CustomerRow.t)
  : result CustomerRow.t :=
  match kwargs with
  | [] => Ok r
  | (k, v) :: rest => let* r' := set_column k v r in set_columns rest r'
  end.

Definition touch (now : Z) (r : CustomerRow.t) : CustomerRow.t :=
  let '(CustomerRow.mk i n d p pr no c _) := r in
  CustomerRow.mk i n d p pr no c (Some now).

(** [update_customer(customer_id, database_url, **kwargs)]. *)
Definition update_customer (customer_id : value) (database_url : option string)
    (kwargs : list (string * value)) (now : Z) (db : store)
  : result bool * store :=
  match required "update_customer" "database_url" database_url with
  | Raise e => (Raise e, db)
  | Ok url =>
      match kwargs with
      | [] => (Ok false, db)
      | _ =>
          match (let* _ := get_db_connection (Some url) in sql_int customer_id) with
          | Raise e => (Raise e, db)
          | Ok key =>
              let hit := has_id key in
              match mapM (fun r => if hit r
                                   then let* r' := set_columns kwargs r in
                                        Ok (touch now r')
                                   else Ok r) (customers db) with
              | Raise e => (Raise e, db)
              | Ok rows =>
                  let others := List.filter (fun r => negb (hit r)) rows in
                  let changed := List.filter hit rows in
                  if existsb (fun r => name_taken (CustomerRow.name r) others)
                             changed
                  then (Raise (IntegrityError
                          "duplicate key value violates unique constraint customers_name_key"),
                        db)
                  else (Ok (existsb hit (customers db)),
                        mk_store rows (customers_id_seq db) (roadmap_items db)
                          (collation db))
              end
          end
      end
  end.

(** [delete_customer(customer_id)] has no [database_url] parameter and
    calls [get_db_connection()] without one. *)
Definition delete_customer (customer_id : value) (db : store)
  : result bool * store :=
  match (let* _ := get_db_connection None in sql_int customer_id) with
  | Raise e => (Raise e, db)
  | Ok key =>
      let hit := has_id key in
      (Ok (existsb hit (customers db)),
       mk_store (List.filter (fun r => negb (hit r)) (customers db))
                (customers_id_seq db) (roadmap_items db) (collation db))
  end.

End Database.

(** ** backend/src/agents/customer_agent.py *)

Module CustomerAgent.

Definition str_value (v : value) : string :=
  match v with
  | VNone => "None"
  | VBool true => "True"
  | VBool false => "False"
  | VInt z => string_of_Z z
  | VStr s => s
  end.

(** Field validation of the [Customer] model. *)
Definition valid_str (field : string) (v : value) : result string :=
  match v with
  | VStr s => Ok s
  | _ => Raise (ValidationError (field +:+ ": Input should be a valid string"))
  end.

Definition valid_opt_str (field : string) (v : value) : result (option string) :=
  match v with
  | VNone => Ok None
  | VStr s => Ok (Some s)
  | _ => Raise (ValidationError (field +:+ ": Input should be a valid string"))
  end.

(** A tool reads and writes the store and returns a string or raises. *)
Definition tool : Type := Z -> store -> result string * store.

Definition add_customer_tool (name description products_used priority notes : value)
  : tool := fun now db =>
  (* try: *)
  let attempt : result Z * store :=
    match (let* n := valid_str "name" name in
           let* d := valid_str "description" description in
           let* p := valid_str "products_used" products_used in
           let* pr := valid_str "priority" priority in
           let* no := valid_opt_str "notes" notes in
           Ok (Customer.mk None n d p pr no None None)) with
    | Raise e => (Raise e, db)
    | Ok customer => Database.add_customer customer None now db
    end in
  match attempt with
  | (Ok customer_id, db') =>
      (Ok ("✓ Customer '" +:+ str_value name +:+ "' added successfully with ID "
           +:+ string_of_Z customer_id +:+ "."), db')
  (* except Exception as e: *)
  | (Raise e, db') => (Ok ("✗ Error adding customer: " +:+ str_exn e), db')
  end.

Definition show_customer (c : Customer.t) : string :=
  nl +:+ "**Customer: " +:+ Customer.name c +:+ "**" +:+ nl
  +:+ "- ID: " +:+ match Customer.id c with
                   | Some i => string_of_Z i
                   | None => "None"
                   end +:+ nl
  +:+ "- Description: " +:+ Customer.description c +:+ nl
  +:+ "- Products Used: " +:+ Customer.products_used c +:+ nl
  +:+ "- Priority: " +:+ Customer.priority c +:+ nl
  +:+ "- Notes: " +:+ match Customer.notes c with
                      | Some n => if String.eqb n EmptyString then "None" else n
                      | None => "None"
                      end +:+ nl.

Definition get_customer_tool (customer_id customer_name : value) : tool :=
  fun now db =>
  let found (r : result (option Customer.t)) : result string * store :=
    match r with
    | Raise e => (Raise e, db)
    | Ok (Some customer) => (Ok (show_customer customer), db)
    | Ok None => (Ok "Customer not found.", db)
    end in
  if truthy customer_id then found (Database.get_customer customer_id None db)
  else if truthy customer_name then
    found (Database.get_customer_by_name (str_value customer_name) None db)
  else (Ok "Please provide either customer_id or customer_name.", db).

Definition list_customers_tool : tool := fun now db =>
  match Database.list_customers None db with
  | Raise e => (Raise e, db)
  | Ok [] => (Ok "No customers in the database.", db)
  | Ok customers =>
      let line c :=
        "- [" +:+ match Customer.id c with
                  | Some i => string_of_Z i
                  | None => "None"
                  end +:+ "] " +:+ Customer.name c +:+ " ("
        +:+ Customer.priority c +:+ " priority) - Products: "
        +:+ Customer.products_used c in
      (Ok (String.concat nl ("**Customers:**" :: map line customers)), db)
  end.

Definition update_customer_tool
    (customer_id name description products_used priority notes : value) : tool :=
  fun now db =>
  let updates :=
    List.filter (fun kv => truthy (snd kv))
      [("name", name); ("description", description);
       ("products_used", products_used); ("priority", priority);
       ("notes", notes)] in
  match updates with
  | [] => (Ok "No updates provided.", db)
  | _ =>
      match Database.update_customer customer_id None updates now db with
      | (Raise e, db') => (Raise e, db')
      | (Ok true, db') =>
          (Ok ("✓ Customer " +:+ str_value customer_id +:+ " updated successfully."),
           db')
      | (Ok false, db') =>
          (Ok ("✗ Customer " +:+ str_value customer_id
               +:+ " not found or update failed."), db')
      end
  end.

Definition delete_customer_tool (customer_id : value) : tool := fun now db =>
  match Database.delete_customer customer_id db with
  | (Raise e, db') => (Raise e, db')
  | (Ok true, db') =>
      (Ok ("✓ Customer " +:+ str_value customer_id +:+ " deleted successfully."),
       db')
  | (Ok false, db') =>
      (Ok ("✗ Customer " +:+ str_value customer_id +:+ " not found."), db')
  end.

(** The names [handle_tool_call] routes. *)
Definition registered : list string :=
  ["add_customer"; "get_customer"; "list_customers"; "update_customer";
   "delete_customer"].

Definition handle_tool_call (function_name : string)
    (function_args : gmap string value) : tool := fun now db =>
  if String.eqb function_name "add_customer" then
    match call_kwargs "add_customer_tool"
            [("name", None); ("description", None); ("products_used", None);
             ("priority", Some (VStr "medium")); ("notes", Some VNone)]
            function_args with
    | Ok [n; d; p; pr; no] => add_customer_tool n d p pr no now db
    | Ok _ => (Raise (TypeError "add_customer_tool()"), db)
    | Raise e => (Raise e, db)
    end
  else if String.eqb function_name "get_customer" then
    match call_kwargs "get_customer_tool"
            [("customer_id", Some VNone); ("customer_name", Some VNone)]
            function_args with
    | Ok [i; n] => get_customer_tool i n now db
    | Ok _ => (Raise (TypeError "get_customer_tool()"), db)
    | Raise e => (Raise e, db)
    end
  else if String.eqb function_name "list_customers" then
    list_customers_tool now db
  else if String.eqb function_name "update_customer" then
    match call_kwargs "update_customer_tool"
            [("customer_id", None); ("name", Some VNone);
             ("description", Some VNone); ("products_used", Some VNone);
             ("priority", Some VNone); ("notes", Some VNone)]
            function_args with
    | Ok [i; n; d; p; pr; no] => update_customer_tool i n d p pr no now db
    | Ok _ => (Raise (TypeError "update_customer_tool()"), db)
    | Raise e => (Raise e, db)
    end
  else if String.eqb function_name "delete_customer" then
    match call_kwargs "delete_customer_tool" [("customer_id", None)]
            function_args with
    | Ok [i] => delete_customer_tool i now db
    | Ok _ => (Raise (TypeError "delete_customer_tool()"), db)
    | Raise e => (Raise e, db)
    end
  else (Ok ("Unknown function: " +:+ function_name), db).

End CustomerAgent.

(** ** The tool-calling conversation loop

    The [query] methods of [RoadmapAgent], [OrchestratorAgent] and
    [CustomerAgent] are the same loop around a chat session.  The session
    is driven by a scripted model: the replies it will give, in order.
    Every [send_message] is one model exchange. *)

Module Chat.

Inductive part : Type :=
| Text (s : string)
| FunctionCall (name : string) (args : gmap string value).

(** A reply: the content parts of its first candidate and its [text]. *)
Record response : Type := mk_response {
  parts : list part;
  text : string
}.

Inductive message : Type :=
| UserMessage (s : string)
| FunctionResponse (name : string) (tool_result : string).

(** What one [query] did: the value returned (or the exception raised), the
    messages sent to the model, the tool calls executed, and the replies
    the script still holds. *)
Record run : Type := mk_run {
  returned : result string;
  sent : list message;
  executed : list (string * gmap string value);
  remaining : list response
}.

Definition exchanges (r : run) : nat := length (sent r).

(** The structured call a reply asks for, as the loop sees it: the one in
    its first content part, if that part is a call. *)
Definition first_call (r : response) : option (string * gmap string value) :=
  match parts r with
  | FunctionCall name args :: _ => Some (name, args)
  | _ => None
  end.

Definition is_text (p : part) : bool :=
  match p with Text _ => true | FunctionCall _ _ => false end.

Section Loop.
Context {W : Type}.
(** The dispatcher of the agent, acting on the agent's world, and what
    the agent does to the argument mapping before dispatching. *)
Variable handle_tool_call : string -> gmap string value -> W -> result string * W.
Variable prepare_args : gmap string value -> gmap string value.

(** The [while] loop, entered with the latest reply; [script] holds the
    replies still to come, and each iteration that sends consumes one. *)
Fixpoint tool_loop (script : list response) (response : response)
    (sent : list message) (executed : list (string * gmap string value))
    (w : W) : run * W :=
  match parts response with
  | FunctionCall func_name args :: _ =>
      let func_args := prepare_args args in
      let executed' := (executed ++ [(func_name, func_args)])%list in
      match handle_tool_call func_name func_args w with
      | (Raise e, w') => (mk_run (Raise e) sent executed' script, w')
      | (Ok tool_result, w') =>
          let sent' := (sent ++ [FunctionResponse func_name tool_result])%list in
          match script with
          | [] => (mk_run (Raise StopIteration) sent' executed' [], w')
          | next :: script' => tool_loop script' next sent' executed' w'
          end
      end
  | _ => (mk_run (Ok (text response)) sent executed script, w)
  end.

Definition query (user_message : string) (script : list response) (w : W)
  : run * W :=
  let sent := [UserMessage user_message] in
  match script with
  | [] => (mk_run (Raise StopIteration) sent [] [], w)
  | response :: script' => tool_loop script' response sent [] w
  end.
End Loop.

End Chat.

(** ** packages/backend/src/agents/roadmap_agent.py

    The [database] module this agent imports is not part of the modelled
    sources; its two functions are parameters. *)

Module RoadmapAgent.

Section Agent.
Context {W : Type}.
(** [search_roadmap(query, n_results, database_url)]: the hits, each with
    its metadata mapping. *)
Variable search_roadmap :
  value -> value -> value -> W -> result (list (gmap string value)) * W.
(** [get_roadmap_stats()]: the value of ["total_items"]. *)
Variable get_roadmap_stats : W -> result value * W.

Definition get_or (m : gmap string value) (k : string) (dflt : string) : string :=
  match m !! k with
  | Some v => CustomerAgent.str_value v
  | None => dflt
  end.

Definition search_roadmap_tool (query database_url num_results : value) (w : W)
  : result string * W :=
  match search_roadmap query num_results database_url w with
  | (Raise e, w') => (Raise e, w')
  | (Ok [], w') => (Ok "No roadmap items found matching your query.", w')
  | (Ok results, w') =>
      let entry (i : nat) (metadata : gmap string value) : string :=
        nl +:+ "**" +:+ string_of_Z (Z.of_nat (S i)) +:+ ". "
        +:+ get_or metadata "title" "Unknown" +:+ "**" +:+ nl
        +:+ "- Status: " +:+ get_or metadata "status" "Unknown" +:+ nl
        +:+ "- Release Date: " +:+ get_or metadata "release_date" "TBD" +:+ nl
        +:+ "- Products: " +:+ get_or metadata "products" "N/A" +:+ nl
        +:+ "- Platforms: " +:+ get_or metadata "platforms" "N/A" +:+ nl in
      (Ok (String.concat nl (imap entry results)), w')
  end.

Definition get_roadmap_statistics (w : W) : result string * W :=
  match get_roadmap_stats w with
  | (Raise e, w') => (Raise e, w')
  | (Ok total, w') =>
      (Ok ("The roadmap database contains " +:+ CustomerAgent.str_value total
           +:+ " items."), w')
  end.

Definition registered : list string :=
  ["search_roadmap"; "get_roadmap_statistics"].

Definition handle_tool_call (database_url : value) (function_name : string)
    (function_args : gmap string value) (w : W) : result string * W :=
  if String.eqb function_name "search_roadmap" then
    search_roadmap_tool (default (VStr EmptyString) (function_args !! "query"))
      database_url (default (VInt 5) (function_args !! "num_results")) w
  else if String.eqb function_name "get_roadmap_statistics" then
    get_roadmap_statistics w
  else (Ok ("Unknown function: " +:+ function_name), w).

Definition query (database_url : value) (user_message : string)
    (script : list Chat.response) (w : W) : Chat.run * W :=
  Chat.query (handle_tool_call database_url) (fun args => args)
    user_message script w.
End Agent.

End RoadmapAgent.

(** ** packages/backend/src/agents/orchestrator.py

    The three routes start a sub-agent on a model session of its own; they
    are parameters acting on the orchestrator's world. *)

Module Orchestrator.

Section Agent.
Context {W : Type}.
Variable route_to_roadmap_agent : value -> value -> W -> result string * W.
Variable route_to_customer_agent : value -> W -> result string * W.
Variable route_to_impact_agent : value -> W -> result string * W.

Definition refresh_roadmap_data : string :=
  "ℹ️ Roadmap data is automatically refreshed daily by the ingestion service. No manual refresh needed.".

Definition registered : list string :=
  ["route_to_roadmap_agent"; "roadmap_agent_declaration";
   "route_to_customer_agent"; "route_to_impact_agent";
   "refresh_roadmap_data"].

Definition handle_tool_call (function_name : string)
    (function_args : gmap string value) (w : W) : result string * W :=
  let get k := default (VStr EmptyString) (function_args !! k) in
  if String.eqb function_name "route_to_roadmap_agent"
     || String.eqb function_name "roadmap_agent_declaration" then
    route_to_roadmap_agent (get "query") (get "database_url") w
  else if String.eqb function_name "route_to_customer_agent" then
    route_to_customer_agent (get "query") w
  else if String.eqb function_name "route_to_impact_agent" then
    route_to_impact_agent (get "query") w
  else if String.eqb function_name "refresh_roadmap_data" then
    (Ok refresh_roadmap_data, w)
  else (Ok ("Unknown function: " +:+ function_name), w).

(** [OrchestratorAgent.query]: the loop, with the agent's own
    [database_url] written into every argument mapping. *)
Definition query (database_url : string) (user_message : string)
    (script : list Chat.response) (w : W) : Chat.run * W :=
  Chat.query handle_tool_call (fun args => <["database_url" := VStr database_url]> args)
    user_message script w.
End Agent.

End Orchestrator.

(** ** The customer agent's session

    [CustomerAgent.query] is the conversation loop around the customer
    dispatcher; [now] is the server time of the statements it runs. *)

Module CustomerSession.

Definition query (now : Z) (user_message : string)
    (script : list Chat.response) (db : store) : Chat.run * store :=
  Chat.query
    (fun function_name function_args db =>
       CustomerAgent.handle_tool_call function_name function_args now db)
    (fun args => args) user_message script db.

End CustomerSession.

(** ** Nearest-neighbour queries on [roadmap_items] *)

Module Pgvector.

Section Distance.
(** pgvector's cosine distance operator. *)
Variable cosine_distance : vector -> vector -> Q.

(** [embedding <=> %s::vector AS distance]; NULL for a NULL embedding. *)
Definition distance (query_embedding : vector) (r : RoadmapRow.t) : option Q :=
  match RoadmapRow.embedding r with
  | Some e => Some (cosine_distance e query_embedding)
  | None => None
  end.

(** Ascending order with NULLs last. *)
Definition dist_le (a b : option Q) : bool :=
  match a, b with
  | Some x, Some y => Qle_bool x y
  | Some _, None => true
  | None, Some _ => false
  | None, None => true
  end.

(** [a] comes no later than [b] in ascending order. *)
Definition nearer (q : vector) (a b : RoadmapRow.t) : Prop :=
  dist_le (distance q a) (distance q b) = true.

Fixpoint insert_by_distance (q : vector) (r : RoadmapRow.t)
    (l : list RoadmapRow.t) : list RoadmapRow.t :=
  match l with
  | [] => [r]
  | r' :: l' =>
      if dist_le (distance q r) (distance q r')
      then r :: l else r' :: insert_by_distance q r l'
  end.

(** [ORDER BY embedding <=> q]; rows at equal distance stay in store
    order. *)
Definition order_by_distance (q : vector) (rows : list RoadmapRow.t)
  : list RoadmapRow.t :=
  foldr (insert_by_distance q) [] rows.

End Distance.

(** [LIMIT %s]: a negative count is an error. *)
Definition limit {A} (n : Z) (rows : list A) : result (list A) :=
  if (n <? 0)%Z then Raise (DataError "LIMIT must not be negative")
  else Ok (take (Z.to_nat n) rows).

End Pgvector.

(** ** pipeline/src/database.py: roadmap items *)

Module RoadmapItem.
Record t : Type := mk {
  id : Z;
  title : string;
  description : string;
  status : string;
  public_disclosure_date : option string;
  products : list string;
  platforms : list string;
  cloud_instances : list string;
  release_phase : option string
}.
End RoadmapItem.

(** The embedding provider behind [genai_client.models.embed_content]: a
    request either raises or yields the list of embeddings. *)
Record embed_request : Type := mk_embed_request {
  model : string;
  contents : string;
  task_type : string;
  output_dimensionality : Z
}.

Definition genai_client : Type := embed_request -> result (list vector).

Module PipelineDatabase.

Definition get_db_connection (database_url : string) : result string :=
  Ok database_url.

(** [init_db]: both statements are [CREATE ... IF NOT EXISTS]; the rows of
    existing tables are untouched. *)
Definition init_db (database_url : string) (embedding_dimensions : Z)
    (db : store) : result unit * store :=
  match get_db_connection database_url with
  | Raise e => (Raise e, db)
  | Ok _ => (Ok tt, db)
  end.

Definition first_embedding (embeddings : list vector) : result vector :=
  match embeddings with
  | e :: _ => Ok e
  | [] => Raise (IndexError "list index out of range")
  end.

Definition get_embedding (text : string) (client : genai_client)
    (embedding_model : string) (embedding_dimensions : Z) : result vector :=
  let* embeddings :=
    client (mk_embed_request embedding_model text "retrieval_document"
              embedding_dimensions) in
  first_embedding embeddings.

(** [embedding_dimensions] has no default; a call that leaves it out fails
    when it is bound. *)
Definition get_query_embedding (text : string) (client : genai_client)
    (embedding_model : string) (embedding_dimensions : option Z)
  : result vector :=
  let* dims :=
    required "get_query_embedding" "embedding_dimensions" embedding_dimensions in
  let* embeddings :=
    client (mk_embed_request embedding_model text "retrieval_query" dims) in
  first_embedding embeddings.

Definition build_document (item : RoadmapItem.t) : string :=
  RoadmapItem.title item +:+ nl +:+ nl +:+ RoadmapItem.description item
  +:+ nl +:+ nl +:+ "Status: " +:+ RoadmapItem.status item +:+ nl
  +:+ "Products: " +:+ String.concat ", " (RoadmapItem.products item) +:+ nl
  +:+ "Platforms: " +:+ String.concat ", " (RoadmapItem.platforms item).

(** The tuple of values one INSERT sends, as the row a fresh insert
    creates at server time [now]. *)
Definition row_of_item (item : RoadmapItem.t) (document : string)
    (embedding : vector) (now : Z) : RoadmapRow.t :=
  RoadmapRow.mk (RoadmapItem.id item) (RoadmapItem.title item)
    (Some (RoadmapItem.description item)) (Some (RoadmapItem.status item))
    (RoadmapItem.public_disclosure_date item)
    (Some (String.concat "," (RoadmapItem.products item)))
    (Some (String.concat "," (RoadmapItem.platforms item)))
    (Some (String.concat "," (RoadmapItem.cloud_instances item)))
    (RoadmapItem.release_phase item) document (Some embedding)
    (Some now) (Some now).

(** [ON CONFLICT (id) DO UPDATE SET ...]: every column of the existing row
    but [id] and [created_at] takes the proposed value. *)
Definition do_update (old excluded : RoadmapRow.t) : RoadmapRow.t :=
  RoadmapRow.mk (RoadmapRow.id old) (RoadmapRow.title excluded)
    (RoadmapRow.description excluded) (RoadmapRow.status excluded)
    (RoadmapRow.release_date excluded) (RoadmapRow.products excluded)
    (RoadmapRow.platforms excluded) (RoadmapRow.cloud_instances excluded)
    (RoadmapRow.release_phase excluded) (RoadmapRow.document excluded)
    (RoadmapRow.embedding excluded) (RoadmapRow.created_at old)
    (RoadmapRow.updated_at excluded).

Fixpoint insert_on_conflict (new : RoadmapRow.t) (rows : list RoadmapRow.t)
  : list RoadmapRow.t :=
  match rows with
  | [] => [new]
  | r :: rest =>
      if (RoadmapRow.id r =? RoadmapRow.id new)%Z
      then do_update r new :: rest
      else r :: insert_on_conflict new rest
  end.

(** The [id] column is a 32-bit INTEGER. *)
Definition int4 (z : Z) : result Z :=
  if ((-2147483648 <=? z) && (z <=? 2147483647))%Z then Ok z
  else Raise (DataError "integer out of range").

(** The [for] loop of [upsert_roadmap_items], on the rows as the open
    transaction sees them. *)
Fixpoint upsert_loop (items : list RoadmapItem.t) (client : genai_client)
    (embedding_model : string) (embedding_dimensions : Z) (now : Z)
    (rows : list RoadmapRow.t) (count : Z) : result (list RoadmapRow.t * Z) :=
  match items with
  | [] => Ok (rows, count)
  | item :: rest =>
      let document := build_document item in
      let* embedding :=
        get_embedding document client embedding_model embedding_dimensions in
      let* _ := int4 (RoadmapItem.id item) in
      upsert_loop rest client embedding_model embedding_dimensions now
        (insert_on_conflict (row_of_item item document embedding now) rows)
        (count + 1)%Z
  end.

(** [upsert_roadmap_items]: one transaction, committed after the loop; an
    exception inside the loop leaves nothing of it committed.  [now] is
    CURRENT_TIMESTAMP of the transaction. *)
Definition upsert_roadmap_items (items : list RoadmapItem.t)
    (database_url : string) (client : genai_client) (embedding_model : string)
    (embedding_dimensions : Z) (now : Z) (db : store) : result Z * store :=
  match (let* _ := get_db_connection database_url in
         upsert_loop items client embedding_model embedding_dimensions now
           (roadmap_items db) 0%Z) with
  | Raise e => (Raise e, db)
  | Ok (rows, count) =>
      (Ok count,
       mk_store (customers db) (customers_id_seq db) rows (collation db))
  end.

Definition get_roadmap_stats (database_url : string) (db : store) : result Z :=
  let* _ := get_db_connection database_url in
  Ok (Z.of_nat (length (roadmap_items db))).

Section Search.
Variable cosine_distance : vector -> vector -> Q.

(** [WHERE (products ILIKE %s OR ... OR products ILIKE %s)], one pattern
    [%p%] for each entry of [filter_products]. *)
Definition product_filter (filter_products : list string) (r : RoadmapRow.t)
  : bool :=
  existsb (fun p => Sql.ilike_null (RoadmapRow.products r) ("%" +:+ p +:+ "%"))
          filter_products.

(** The statement [search_roadmap] executes: the filtered one when
    [filter_products] is a non-empty list, the plain one otherwise. *)
Definition select_nearest (query_embedding : vector)
    (filter_products : option (list string)) (n_results : Z)
    (rows : list RoadmapRow.t) : result (list RoadmapRow.t) :=
  match filter_products with
  | Some (p :: ps) =>
      Pgvector.limit n_results
        (Pgvector.order_by_distance cosine_distance query_embedding
           (List.filter (product_filter (p :: ps)) rows))
  | _ =>
      Pgvector.limit n_results
        (Pgvector.order_by_distance cosine_distance query_embedding rows)
  end.

(** One entry of the list [search_roadmap] returns. *)
Record hit : Type := mk_hit {
  hit_document : string;
  hit_id : Z;
  hit_title : string;
  hit_status : option string;
  hit_release_date : string;
  hit_products : string;
  hit_platforms : string;
  hit_distance : option Q
}.

Definition hit_of_row (q : vector) (row : RoadmapRow.t) : hit :=
  mk_hit (RoadmapRow.document row) (RoadmapRow.id row) (RoadmapRow.title row)
    (RoadmapRow.status row)
    (default EmptyString (RoadmapRow.release_date row))
    (default EmptyString (RoadmapRow.products row))
    (default EmptyString (RoadmapRow.platforms row))
    (Pgvector.distance cosine_distance q row).

(** [search_roadmap]: the query embedding is requested without
    [embedding_dimensions]. *)
Definition search_roadmap (query : string) (client : genai_client)
    (embedding_model : string) (database_url : string) (n_results : Z)
    (filter_products : option (list string)) (db : store)
  : result (list hit) :=
  let* _ := get_db_connection database_url in
  let* query_embedding :=
    get_query_embedding query client embedding_model None in
  let* rows :=
    select_nearest query_embedding filter_products n_results
      (roadmap_items db) in
  Ok (map (hit_of_row query_embedding) rows).
End Search.

End PipelineDatabase.

(** ** packages/db_mcp/server.py: the search tool *)

Module DbMcp.

Definition EMBEDDING_MODEL : string := "models/text-embedding-004".
Definition EMBEDDING_DIMENSIONS : Z := 768.

(** One element of the list the tool serialises. *)
Record entry : Type := mk_entry {
  id : Z;
  title : string;
  status : option string;
  release_date : option string;
  products : option string;
  platforms : option string;
  description : option string;
  relevance : Q
}.

(** The string the tool returns: the fixed sentence for an empty result,
    [json.dumps(results, indent=2)], or the error sentence. *)
Inductive reply : Type :=
| NoMatch
| Results (results : list entry)
| Failure (e : exn).

Definition reply_text (json_dumps : list entry -> string) (r : reply) : string :=
  match r with
  | NoMatch => "No matching roadmap items found."
  | Results results => json_dumps results
  | Failure e => "Error searching roadmap: " +:+ str_exn e
  end.

Section Server.
(** The environment of the server process and the two services it calls. *)
Variable GOOGLE_API_KEY : option string.
Variable client : genai_client.
Variable cosine_distance : vector -> vector -> Q.

Definition get_query_embedding (text : string) : result vector :=
  match GOOGLE_API_KEY with
  | Some (String _ _) =>
      let* embeddings :=
        client (mk_embed_request EMBEDDING_MODEL text "RETRIEVAL_QUERY"
                  EMBEDDING_DIMENSIONS) in
      match embeddings with
      | e :: _ => Ok e
      | [] => Raise (ValueError "No embeddings returned from Gemini")
      end
  | _ =>
      Raise (ValueError
               "GOOGLE_API_KEY environment variable is required for search")
  end.

(** [description[:500] + "..."] when the description is longer than 500. *)
Definition shorten (description : option string) : option string :=
  match description with
  | Some d =>
      if (500 <? String.length d)%nat
      then Some (substring 0 500 d +:+ "...")
      else Some d
  | None => None
  end.

(** The dictionary built for one fetched row; [1 - None] is a TypeError. *)
Definition entry_of_row (q : vector) (row : RoadmapRow.t) : result entry :=
  match Pgvector.distance cosine_distance q row with
  | Some d =>
      Ok (mk_entry (RoadmapRow.id row) (RoadmapRow.title row)
            (RoadmapRow.status row) (RoadmapRow.release_date row)
            (RoadmapRow.products row) (RoadmapRow.platforms row)
            (shorten (RoadmapRow.description row)) (1 - d)%Q)
  | None =>
      Raise (TypeError "unsupported operand type(s) for -: 'int' and 'NoneType'")
  end.

(** The SELECT statement: every row, nearest first, at most [n_results]. *)
Definition select_rows (query_embedding : vector) (n_results : Z) (db : store)
  : result (list RoadmapRow.t) :=
  Pgvector.limit n_results
    (Pgvector.order_by_distance cosine_distance query_embedding
       (roadmap_items db)).

Definition search_roadmap (query : string) (n_results : Z) (db : store) : reply :=
  (* try: *)
  match (let* query_embedding := get_query_embedding query in
         let* rows := select_rows query_embedding n_results db in
         match rows with
         | [] => Ok NoMatch
         | _ =>
             let* results :=
               Database.mapM (entry_of_row query_embedding) rows in
             Ok (Results results)
         end) with
  | Ok r => r
  (* except Exception as e: *)
  | Raise e => Failure e
  end.
End Server.

(** [list_roadmap_items]: one row of the listing. *)
Record listed : Type := mk_listed {
  listed_id : Z;
  listed_title : string;
  listed_status : option string;
  listed_release_date : option string
}.

(** The string it returns: [json.dumps(rows)] or the error sentence. *)
Inductive listing : Type :=
| Listed (rows : list listed)
| ListFailure (e : exn).

Definition listed_of_row (r : RoadmapRow.t) : listed :=
  mk_listed (RoadmapRow.id r) (RoadmapRow.title r) (RoadmapRow.status r)
    (RoadmapRow.release_date r).

(** [ORDER BY updated_at DESC]: later first, NULLs before everything. *)
Definition newest_first (a b : option Z) : bool :=
  match a, b with
  | None, _ => true
  | Some _, None => false
  | Some x, Some y => (y <=? x)%Z
  end.

Fixpoint insert_by_updated (r : RoadmapRow.t) (l : list RoadmapRow.t)
  : list RoadmapRow.t :=
  match l with
  | [] => [r]
  | r' :: l' =>
      if newest_first (RoadmapRow.updated_at r) (RoadmapRow.updated_at r')
      then r :: l else r' :: insert_by_updated r l'
  end.

Definition order_by_updated_desc (rows : list RoadmapRow.t) : list RoadmapRow.t :=
  foldr insert_by_updated [] rows.

(** [WHERE status = %s]. *)
Definition has_status (s : string) (r : RoadmapRow.t) : bool :=
  match RoadmapRow.status r with
  | Some t => String.eqb t s
  | None => false
  end.

(** LIMIT and OFFSET are [bigint] in the server. *)
Definition int8 (z : Z) : bool :=
  ((-9223372036854775808 <=? z) && (z <=? 9223372036854775807))%Z.

(** [list_roadmap_items(status, limit, offset)]: the WHERE clause is added
    for a non-empty [status] only; a LIMIT or OFFSET that is no [bigint],
    or a negative one, is an error of the server, reported as the error
    sentence. *)
Definition list_roadmap_items (status : option string) (limit offset : Z)
    (db : store) : listing :=
  let selected :=
    match status with
    | Some (String _ _ as s) => List.filter (has_status s) (roadmap_items db)
    | _ => roadmap_items db
    end in
  if negb (int8 limit && int8 offset)
  then ListFailure (DataError "bigint out of range")
  else if (offset <? 0)%Z then ListFailure (DataError "OFFSET must not be negative")
  else if (limit <? 0)%Z then ListFailure (DataError "LIMIT must not be negative")
  else
    Listed (map listed_of_row
              (take (Z.to_nat limit)
                 (drop (Z.to_nat offset) (order_by_updated_desc selected)))).

(** [get_roadmap_stats]: the number of rows and, from
    [SELECT status, COUNT( * ) ... GROUP BY status], the number of rows of
    each status as a dictionary. *)
Record stats : Type := mk_stats {
  total_items : Z;
  status_breakdown : gmap (option string) Z
}.

Definition count_by_status (rows : list RoadmapRow.t) : gmap (option string) Z :=
  foldr (fun r m =>
           <[RoadmapRow.status r := (default 0%Z (m !! RoadmapRow.status r) + 1)%Z]> m)
        ∅ rows.

Definition get_roadmap_stats (db : store) : stats :=
  mk_stats (Z.of_nat (length (roadmap_items db)))
           (count_by_status (roadmap_items db)).

End DbMcp.

(** ** packages/pipeline/src/ingestion.py: the ingestion worker *)

Module Datetime.

(** A [datetime]: its calendar reading as a count of microseconds, and
    its UTC offset in microseconds when it is timezone-aware. *)
Record t : Type := mk {
  wall : Z;
  tzinfo : option Z
}.

Definition second : Z := 1000000.

(** The instant a datetime names, in microseconds of UTC; a naive reading
    is counted as UTC. *)
Definition instant (d : t) : Z := (wall d - default 0 (tzinfo d))%Z.

(** [d.replace(tzinfo=None)]: the reading is kept, the offset dropped. *)
Definition replace_tzinfo_None (d : t) : t := mk (wall d) None.

(** [a > b]: readings are compared when both are naive, instants when both
    are aware, and a mixed comparison is a TypeError. *)
Definition gt (a b : t) : result bool :=
  match tzinfo a, tzinfo b with
  | None, None => Ok (wall b <? wall a)%Z
  | Some oa, Some ob => Ok (wall b - ob <? wall a - oa)%Z
  | _, _ =>
      Raise (TypeError "can't compare offset-naive and offset-aware datetimes")
  end.

(** [s.replace("Z", "+00:00")]. *)
Fixpoint replace_Z (s : string) : string :=
  match s with
  | EmptyString => EmptyString
  | String c s' =>
      if Ascii.eqb c "Z" then "+00:00" +:+ replace_Z s'
      else String c (replace_Z s')
  end.

End Datetime.

(** The fragment of [datetime.fromisoformat] the examples use: the form
    [YYYY-MM-DDTHH:MM:SS], optionally followed by an offset [+HH:MM] or
    [-HH:MM]; every other string is rejected. *)
Module Iso.

Definition digit (c : ascii) : option Z :=
  let n := nat_of_ascii c in
  if (48 <=? n)%nat && (n <=? 57)%nat then Some (Z.of_nat (n - 48)) else None.

Fixpoint number (cs : list ascii) (acc : Z) : option Z :=
  match cs with
  | [] => Some acc
  | c :: cs' =>
      match digit c with
      | Some d => number cs' (10 * acc + d)%Z
      | None => None
      end
  end.

Definition field (cs : list ascii) (i n : nat) : option Z :=
  let f := take n (drop i cs) in
  if (length f =? n)%nat then number f 0 else None.

Definition sep (cs : list ascii) (i : nat) (c : ascii) : bool :=
  match cs !! i with
  | Some d => Ascii.eqb c d
  | None => false
  end.

Definition leap (y : Z) : bool :=
  ((y mod 4 =? 0) && (negb (y mod 100 =? 0) || (y mod 400 =? 0)))%Z.

Definition days_in_month (y m : Z) : Z :=
  if (m =? 2)%Z then (if leap y then 29 else 28)
  else if ((m =? 4) || (m =? 6) || (m =? 9) || (m =? 11))%Z then 30 else 31.

(** Days since 1970-01-01 of a civil date. *)
Definition days_from_civil (y m d : Z) : Z :=
  let y' := (if m <=? 2 then y - 1 else y)%Z in
  let era := (y' / 400)%Z in
  let yoe := (y' - era * 400)%Z in
  let mp := (if 2 <? m then m - 3 else m + 9)%Z in
  let doy := ((153 * mp + 2) / 5 + d - 1)%Z in
  let doe := (yoe * 365 + yoe / 4 - yoe / 100 + doy)%Z in
  (era * 146097 + doe - 719468)%Z.

Definition offset (cs : list ascii) : option (option Z) :=
  match cs with
  | [] => Some None
  | sign :: rest =>
      match field rest 0 2, field rest 3 2 with
      | Some h, Some m =>
          if sep rest 2 ":" && (length rest =? 5)%nat
             && (h <? 24)%Z && (m <? 60)%Z then
            let o := ((h * 3600 + m * 60) * Datetime.second)%Z in
            if Ascii.eqb sign "+" then Some (Some o)
            else if Ascii.eqb sign "-" then Some (Some (- o)%Z)
            else None
          else None
      | _, _ => None
      end
  end.

Definition fromisoformat (s : string) : option Datetime.t :=
  let cs := list_ascii_of_string s in
  match field cs 0 4, field cs 5 2, field cs 8 2,
        field cs 11 2, field cs 14 2, field cs 17 2 with
  | Some y, Some mo, Some d, Some h, Some mi, Some se =>
      if sep cs 4 "-" && sep cs 7 "-" && sep cs 10 "T"
         && sep cs 13 ":" && sep cs 16 ":"
         && (1 <=? y)%Z && (1 <=? mo)%Z && (mo <=? 12)%Z
         && (1 <=? d)%Z && (d <=? days_in_month y mo)%Z
         && (h <? 24)%Z && (mi <? 60)%Z && (se <? 60)%Z then
        match offset (drop 19 cs) with
        | Some tz =>
            Some (Datetime.mk
                    ((((days_from_civil y mo d * 24 + h) * 60 + mi) * 60 + se)
                     * Datetime.second)%Z tz)
        | None => None
        end
      else None
  | _, _, _, _, _, _ => None
  end.

End Iso.

Module RawItem.

(** A tag is a mapping that may hold ["tagName"]. *)
Definition tag : Type := option string.

Record tags : Type := mk_tags {
  products : option (list tag);
  platforms : option (list tag);
  cloudInstances : option (list tag);
  releasePhase : option (list tag)
}.

(** A raw feed item.  A key of the feed schema is absent ([None]) or holds
    a value of the schema's type; [modified] and [created] hold any JSON
    scalar. *)
Record t : Type := mk {
  id : option Z;
  title : option string;
  description : option string;
  status : option string;
  publicDisclosureAvailabilityDate : option string;
  modified : option value;
  created : option value;
  tagsContainer : option tags
}.

End RawItem.

(** What the HTTP request for the feed gives. *)
Inductive feed : Type :=
| Fetched (data : list RawItem.t)
| RequestFailed (e : string).

(** What a Python function hands back: [None] or a dictionary. *)
Inductive returned : Type :=
| ReturnNone
| ReturnDict (d : gmap string value).

Module Ingestion.

Definition get_genai_client (genai : string -> genai_client) (api_key : string)
  : result genai_client :=
  if String.eqb api_key EmptyString then Raise (ValueError "API key not found")
  else Ok (genai api_key).

Definition max_opt (a : option Z) (b : option Z) : option Z :=
  match a, b with
  | Some x, Some y => Some (Z.max x y)
  | Some x, None | None, Some x => Some x
  | None, None => None
  end.

(** [SELECT MAX(updated_at) FROM roadmap_items]: a naive timestamp, or
    [None] on an empty table. *)
Definition get_last_ingestion_time (database_url : string) (db : store)
  : option Datetime.t :=
  match foldr max_opt None (map RoadmapRow.updated_at (roadmap_items db)) with
  | Some w => Some (Datetime.mk w None)
  | None => None
  end.

Definition fetch_roadmap_items (http_get : string -> feed)
    (m365_roadmap_url : string) : list RawItem.t :=
  match http_get m365_roadmap_url with
  | Fetched data => data
  | RequestFailed _ => []
  end.

Definition tag_names (group : option (list RawItem.tag)) : list string :=
  map (default EmptyString) (default [] group).

(** [parse_roadmap_item] on an item typed as the feed schema says, where
    the validation of [RoadmapItem] succeeds; on a null or ill-typed value
    the source raises, and such items are no [RawItem.t]. *)
Definition parse_roadmap_item (raw_item : RawItem.t) : RoadmapItem.t :=
  let tags_container :=
    default (RawItem.mk_tags None None None None) (RawItem.tagsContainer raw_item) in
  let products := tag_names (RawItem.products tags_container) in
  let platforms := tag_names (RawItem.platforms tags_container) in
  let cloud_instances := tag_names (RawItem.cloudInstances tags_container) in
  let release_phases := tag_names (RawItem.releasePhase tags_container) in
  RoadmapItem.mk
    (default 0%Z (RawItem.id raw_item))
    (default EmptyString (RawItem.title raw_item))
    (default EmptyString (RawItem.description raw_item))
    (default EmptyString (RawItem.status raw_item))
    (RawItem.publicDisclosureAvailabilityDate raw_item)
    products platforms cloud_instances
    (head release_phases).

Section Filter.
(** [datetime.fromisoformat]; [None] stands for its ValueError. *)
Variable fromisoformat : string -> option Datetime.t.

(** [item.get("modified") or item.get("created")]. *)
Definition modified_str (item : RawItem.t) : value :=
  py_or (of_get (RawItem.modified item)) (of_get (RawItem.created item)).

(** One iteration of the loop of [filter_new_items]: whether the item is
    appended. *)
Definition is_new (since : Datetime.t) (item : RawItem.t) : result bool :=
  let modified_str := modified_str item in
  if truthy modified_str then
    match modified_str with
    | VStr str =>
        (* try: *)
        match fromisoformat (Datetime.replace_Z str) with
        | Some modified =>
            let modified :=
              match Datetime.tzinfo modified with
              | Some _ => Datetime.replace_tzinfo_None modified
              | None => modified
              end in
            let since :=
              match Datetime.tzinfo since with
              | Some _ => Datetime.replace_tzinfo_None since
              | None => since
              end in
            match Datetime.gt modified since with
            | Ok b => Ok b
            | Raise (TypeError _) => Ok true
            | Raise e => Raise e
            end
        (* except (ValueError, TypeError): *)
        | None => Ok true
        end
    | VInt _ => Raise (AttributeError "'int' object has no attribute 'replace'")
    | VBool _ => Raise (AttributeError "'bool' object has no attribute 'replace'")
    | VNone => Raise (AttributeError "'NoneType' object has no attribute 'replace'")
    end
  else Ok false.

Fixpoint filter_loop (since : Datetime.t) (raw_items : list RawItem.t)
  : result (list RawItem.t) :=
  match raw_items with
  | [] => Ok []
  | item :: rest =>
      let* keep := is_new since item in
      let* new_items := filter_loop since rest in
      Ok (if keep then item :: new_items else new_items)
  end.

Definition filter_new_items (raw_items : list RawItem.t)
    (since : option Datetime.t) : result (list RawItem.t) :=
  match since with
  | None => Ok raw_items
  | Some since => filter_loop since raw_items
  end.

(** The timestamp the specification names: the [modified] value, or the
    [created] value when [modified] is absent. *)
Definition spec_timestamp (item : RawItem.t) : option value :=
  match RawItem.modified item with
  | Some v => Some v
  | None => RawItem.created item
  end.

(** The comparison the loop makes on a timestamp string: it is kept when
    its calendar reading, the UTC offset dropped and not applied, is later
    than the reading of the watermark, or when it cannot be parsed. *)
Definition exceeds_or_unparseable (since : Datetime.t) (str : string) : Prop :=
  match fromisoformat (Datetime.replace_Z str) with
  | Some modified => (Datetime.wall since < Datetime.wall modified)%Z
  | None => True
  end.
End Filter.

(** [parsed_items[i:i + batch_size]] for [i] in steps of [batch_size];
    [fuel] bounds the number of batches. *)
Fixpoint batches {A} (fuel : nat) (batch_size : nat) (l : list A)
  : list (list A) :=
  match fuel, l with
  | S fuel', _ :: _ =>
      take batch_size l :: batches fuel' batch_size (drop batch_size l)
  | _, _ => []
  end.

(** What one run did: the value returned or the exception that ended it,
    the raw items handed to [parse_roadmap_item], the items of the batches
    that were committed, and the running total. *)
Record run : Type := mk_run {
  result_of : result returned;
  processed : list RawItem.t;
  upserted : list RoadmapItem.t;
  total_ingested : Z
}.

Section Worker.
Variable fromisoformat : string -> option Datetime.t.
Variable genai : string -> genai_client.
Variable http_get : string -> feed.
(** Server time at the start of the transaction of the i-th batch. *)
Variable clock : nat -> Z.

Fixpoint upsert_batches (bs : list (list RoadmapItem.t)) (i : nat)
    (database_url : string) (client : genai_client) (embedding_model : string)
    (embedding_dimensions : Z) (total_ingested : Z)
    (done : list RoadmapItem.t) (db : store)
  : result unit * Z * list RoadmapItem.t * store :=
  match bs with
  | [] => (Ok tt, total_ingested, done, db)
  | batch :: rest =>
      match PipelineDatabase.upsert_roadmap_items batch database_url client
              embedding_model embedding_dimensions (clock i) db with
      | (Raise e, db') => (Raise e, total_ingested, done, db')
      | (Ok count, db') =>
          upsert_batches rest (S i) database_url client embedding_model
            embedding_dimensions (total_ingested + count)%Z
            (done ++ batch)%list db'
      end
  end.

Definition run_ingestion (database_url google_api_key : string)
    (full_sync : bool) (embedding_model : string) (embedding_dimensions : Z)
    (m365_roadmap_api_url : string) (db : store) : run * store :=
  match PipelineDatabase.init_db database_url embedding_dimensions db with
  | (Raise e, db) => (mk_run (Raise e) [] [] 0, db)
  | (Ok _, db) =>
  match get_genai_client genai google_api_key with
  | Raise e => (mk_run (Raise e) [] [] 0, db)
  | Ok client =>
  let last_ingestion :=
    if full_sync then None else get_last_ingestion_time database_url db in
  let raw_items := fetch_roadmap_items http_get m365_roadmap_api_url in
  match raw_items with
  | [] => (mk_run (Ok ReturnNone) [] [] 0, db)
  | _ =>
  match filter_new_items fromisoformat raw_items last_ingestion with
  | Raise e => (mk_run (Raise e) [] [] 0, db)
  | Ok [] => (mk_run (Ok ReturnNone) [] [] 0, db)
  | Ok items_to_process =>
      let parsed_items := map parse_roadmap_item items_to_process in
      let batch_size := 10%nat in
      match upsert_batches
              (batches (length parsed_items) batch_size parsed_items) 0
              database_url client embedding_model embedding_dimensions 0 [] db with
      | (Raise e, total, done, db') =>
          (mk_run (Raise e) items_to_process done total, db')
      | (Ok _, total, done, db') =>
          (mk_run (Ok ReturnNone) items_to_process done total, db')
      end
  end end end end.
End Worker.

End Ingestion.

(** ** src/ingestion.py: the in-process ingestion

    Its [src.database] module is not part of the modelled sources; the two
    functions it calls there are parameters. *)

Module LegacyIngestion.

Definition M365_ROADMAP_API_URL : string :=
  "https://www.microsoft.com/releasecommunications/api/v1/m365".

Definition fetch_roadmap_items (http_get : string -> feed) : list RawItem.t :=
  match http_get M365_ROADMAP_API_URL with
  | Fetched data => data
  | RequestFailed _ => []
  end.

Definition parse_roadmap_item : RawItem.t -> RoadmapItem.t :=
  Ingestion.parse_roadmap_item.

Section Ingest.
Context {W : Type}.
Variable http_get : string -> feed.
Variable upsert_roadmap_items : list RoadmapItem.t -> W -> result Z * W.
(** [get_roadmap_stats()["total_items"]]. *)
Variable get_roadmap_stats : W -> result Z * W.

Definition ingest_roadmap (w : W) : result returned * W :=
  let raw_items := fetch_roadmap_items http_get in
  match raw_items with
  | [] =>
      (Ok (ReturnDict (<["success" := VBool false]>
                      (<["message" := VStr "No items fetched"]>
                      (<["count" := VInt 0]> ∅)))), w)
  | _ =>
      let items := map parse_roadmap_item raw_items in
      match upsert_roadmap_items items w with
      | (Raise e, w') => (Raise e, w')
      | (Ok count, w') =>
          match get_roadmap_stats w' with
          | (Raise e, w'') => (Raise e, w'')
          | (Ok total, w'') =>
              (Ok (ReturnDict
                     (<["success" := VBool true]>
                     (<["message" := VStr ("Successfully ingested "
                                           +:+ string_of_Z count
                                           +:+ " roadmap items")]>
                     (<["count" := VInt count]>
                     (<["total_in_db" := VInt total]> ∅))))), w'')
          end
      end
  end.
End Ingest.

End LegacyIngestion.

(** ** The result the specification promises for a failed fetch

    A result object with [success] false, a processed-items counter of 0
    (under the specification's name or the code's) and a message in which
    the error text occurs. *)

Definition occurs_in (needle hay : string) : Prop :=
  exists before after, hay = before +:+ needle +:+ after.

Definition failure_report (error : string) (r : returned) : Prop :=
  exists d,
    r = ReturnDict d
    /\ d !! "success" = Some (VBool false)
    /\ (d !! "items_processed" = Some (VInt 0) \/ d !! "count" = Some (VInt 0))
    /\ exists message, d !! "message" = Some (VStr message)
                       /\ occurs_in error message.

(** ** The incremental filter as the specification words it

    The timestamp of an item is its [modified] value, or its [created]
    value when [modified] is absent.  A timestamp with a UTC offset names
    an instant; the watermark, read from the server clock, and a timestamp
    without offset are counted as UTC.  The item is kept exactly when its
    timestamp strictly exceeds the watermark, or its timestamp string
    cannot be parsed. *)

Definition spec_exceeds (since modified : Datetime.t) : Prop :=
  (Datetime.instant since < Datetime.instant modified)%Z.

Definition spec_keeps (fromisoformat : string -> option Datetime.t)
    (since : Datetime.t) (str : string) : Prop :=
  match fromisoformat (Datetime.replace_Z str) with
  | Some modified => spec_exceeds since modified
  | None => True
  end.

Definition spec_incremental_filter (fromisoformat : string -> option Datetime.t)
    (since : Datetime.t) (item : RawItem.t) : Prop :=
  forall str out,
    Ingestion.spec_timestamp item = Some (VStr str) ->
    Ingestion.filter_new_items fromisoformat [item] (Some since) = Ok out ->
    (In item out <-> spec_keeps fromisoformat since str).

(** ** Repeated upserts

    A sequence of calls of [upsert_roadmap_items], each with its items and
    the server time of its transaction; the sequence stops at the first
    call that raises. *)

Fixpoint upsert_sequence (calls : list (list RoadmapItem.t * Z))
    (database_url : string) (client : genai_client) (embedding_model : string)
    (embedding_dimensions : Z) (db : store) : result store :=
  match calls with
  | [] => Ok db
  | (items, now) :: rest =>
      match PipelineDatabase.upsert_roadmap_items items database_url client
              embedding_model embedding_dimensions now db with
      | (Ok _, db') =>
          upsert_sequence rest database_url client embedding_model
            embedding_dimensions db'
      | (Raise e, _) => Raise e
      end
  end.

(** The row an upsert of [item] leaves, up to its creation time. *)
Definition upserted_row (item : RoadmapItem.t) (embedding : vector)
    (created_at : option Z) (now : Z) : RoadmapRow.t :=
  RoadmapRow.mk (RoadmapItem.id item) (RoadmapItem.title item)
    (Some (RoadmapItem.description item)) (Some (RoadmapItem.status item))
    (RoadmapItem.public_disclosure_date item)
    (Some (String.concat "," (RoadmapItem.products item)))
    (Some (String.concat "," (RoadmapItem.platforms item)))
    (Some (String.concat "," (RoadmapItem.cloud_instances item)))
    (RoadmapItem.release_phase item) (PipelineDatabase.build_document item)
    (Some embedding) created_at (Some now).

Definition rows_with_id (i : Z) (rows : list RoadmapRow.t) : list RoadmapRow.t :=
  List.filter (fun r => (RoadmapRow.id r =? i)%Z) rows.

(** ** The filter as the specification words it

    A text field contains a term case-insensitively when the lower-cased
    term occurs in the lower-cased field.  The specification selects the
    items whose products or platforms field contains at least one of the
    terms. *)

Definition contains_ci (field term : string) : Prop :=
  exists before after,
    Sql.lower (list_ascii_of_string field)
    = (before ++ Sql.lower (list_ascii_of_string term) ++ after)%list.




(** The characters with a meaning of their own in a LIKE pattern. *)
Definition metachar (c : ascii) : bool :=
  Ascii.eqb c "%" || Ascii.eqb c "_" || Ascii.eqb c "\".

Definition plain (term : list ascii) : Prop :=
  forallb (fun c => negb (metachar c)) term = true.



(** ** Well-formed customer tables

    What the schema guarantees of the [customers] table: distinct ids, all
    handed out by the sequence, and distinct names. *)

Definition customers_wf (db : store) : Prop :=
  NoDup (map CustomerRow.id (customers db))
  /\ Forall (fun r => (CustomerRow.id r <= customers_id_seq db)%Z) (customers db)
  /\ unique_names db.

(** The order of [ORDER BY name] under the collation [le]. *)
Definition name_le (le : string -> string -> bool) (a b : CustomerRow.t)
  : Prop :=
  le (CustomerRow.name a) (CustomerRow.name b) = true.

(** A collation compares any two texts one way or the other. *)
Definition total_order (le : string -> string -> bool) : Prop :=
  forall a b, le a b = false -> le b a = true.


Definition newer (a b : RoadmapRow.t) : Prop :=
  DbMcp.newest_first (RoadmapRow.updated_at a) (RoadmapRow.updated_at b) = true.


(** The number of rows of a status. *)
Definition rows_of_status (s : option string) (rows : list RoadmapRow.t) : nat :=
  length (List.filter (fun r => bool_decide (RoadmapRow.status r = s)) rows).

(** The keyword arguments [update_customer_tool] can pass on: one of its
    five text fields with a string. *)
Definition text_fields : list string :=
  ["name"; "description"; "products_used"; "priority"; "notes"].

Definition text_update (kv : string * value) : Prop :=
  In (fst kv) text_fields /\ exists s, snd kv = VStr s.

(** The text a row holds in one of these columns. *)
Definition text_column (k : string) (r : CustomerRow.t) : option string :=
  if String.eqb k "name" then Some (CustomerRow.name r)
  else if String.eqb k "description" then Some (CustomerRow.description r)
  else if String.eqb k "products_used" then Some (CustomerRow.products_used r)
  else if String.eqb k "priority" then CustomerRow.priority r
  else if String.eqb k "notes" then CustomerRow.notes r
  else None.

(** A reply that asks for a tool call. *)
Definition asks_call (r : Chat.response) : Prop :=
  exists name args, Chat.first_call r = Some (name, args).

(** ** Example data *)

Definition contoso : Customer.t :=
  Customer.mk None "Contoso" "Retail group" "Teams,SharePoint" "high" None
    None None.

(** A scripted session: the model asks for a roadmap search, then answers. *)
Definition demo_search : value -> value -> value -> unit
                         -> result (list (gmap string value)) * unit :=
  fun _ _ _ w => (Ok [ {["title" := VStr "Teams recap"]} ], w).
Definition demo_stats : unit -> result value * unit := fun w => (Ok (VInt 1), w).
Definition demo_route2 : value -> value -> unit -> result string * unit :=
  fun _ _ w => (Ok "Teams recap is rolling out.", w).
Definition demo_route1 : value -> unit -> result string * unit :=
  fun _ w => (Ok "done", w).
Definition demo_reply2 : Chat.response :=
  Chat.mk_response [Chat.Text "Recap is rolling out."] "Recap is rolling out.".


(** A watermark of 2024-06-01 12:00:00 and five raw items around it. *)
Definition noon : Datetime.t := Datetime.mk 1717243200000000 None.

Definition raw (id : Z) (modified created : option value) : RawItem.t :=
  RawItem.mk (Some id) (Some "Feature") (Some "About the feature")
    (Some "Rolling out") None modified created None.

Definition item_after : RawItem.t := raw 1 (Some (VStr "2024-06-01T12:00:01Z")) None.
Definition item_before : RawItem.t := raw 2 (Some (VStr "2024-06-01T11:59:59Z")) None.
Definition item_garbled : RawItem.t := raw 3 (Some (VStr "soon")) None.
Definition item_created : RawItem.t := raw 4 None (Some (VStr "2024-06-02T00:00:00")).
Definition item_bare : RawItem.t := raw 5 None None.

(** Items with an empty [modified], without and with a [created], and an
    item stamped half past noon at five hours east of UTC. *)
Definition item_blank : RawItem.t := raw 6 (Some (VStr EmptyString)) None.
Definition item_blank_created : RawItem.t :=
  raw 7 (Some (VStr EmptyString)) (Some (VStr "2024-06-01T11:59:59Z")).
Definition item_offset : RawItem.t :=
  raw 8 (Some (VStr "2024-06-01T12:30:00+05:00")) None.

Definition demo_feed : list RawItem.t :=
  [item_after; item_before; item_garbled; item_created; item_bare].

(** An embedding provider that answers every request with one vector, a
    feed source, and a store last written at the watermark. *)
Definition demo_genai : string -> genai_client :=
  fun _ request =>
    Ok [[inject_Z (Z.of_nat (String.length (contents request))); 1%Q]].

Definition demo_http_get : string -> feed := fun _ => Fetched demo_feed.

Definition demo_row : RoadmapRow.t :=
  RoadmapRow.mk 1 "Feature" (Some "About the feature") (Some "In development")
    None (Some "Teams") (Some "Web") (Some EmptyString) None "Feature"
    (Some [1%Q; 0%Q]) (Some 1717000000000000%Z) (Some 1717243200000000%Z).

Definition demo_store : store := mk_store [] 0 [demo_row] String.leb.

Definition demo_clock : nat -> Z :=
  fun i => (1717329600000000 + Z.of_nat i * Datetime.second)%Z.

Definition refused : string -> feed := fun _ => RequestFailed "Connection refused".

Definition demo_upsert : list RoadmapItem.t -> store -> result Z * store :=
  fun items db =>
    PipelineDatabase.upsert_roadmap_items items "pg://db" (demo_genai "key")
      "models/text-embedding-004" 768 (demo_clock 0) db.

Definition demo_total : store -> result Z * store :=
  fun db => (PipelineDatabase.get_roadmap_stats "pg://db" db, db).

(** Two versions of the roadmap item 7. *)
Definition recap_v1 : RoadmapItem.t :=
  RoadmapItem.mk 7 "Meeting recap" "Recap of meetings" "In development"
    (Some "2024-09") ["Teams"] ["Web"] ["Worldwide"] (Some "Preview").

Definition recap_v2 : RoadmapItem.t :=
  RoadmapItem.mk 7 "Intelligent recap" "Recap with notes" "Rolling out"
    (Some "2024-10") ["Teams"; "Copilot"] ["Web"; "Desktop"] ["Worldwide"]
    (Some "General Availability").

(** A stand-in for the distance operator, exact on vectors of length one:
    one minus the inner product. *)
Fixpoint dot (a b : vector) : Q :=
  match a, b with
  | x :: a', y :: b' => (x * y + dot a' b')%Q
  | _, _ => 0%Q
  end.

Definition unit_distance (a b : vector) : Q := (1 - dot a b)%Q.

Definition east_client : genai_client := fun _ => Ok [[1%Q; 0%Q]].

Definition place (id : Z) (title products platforms : string) (e : vector)
  : RoadmapRow.t :=
  RoadmapRow.mk id title (Some "About it") (Some "Rolling out") None
    (Some products) (Some platforms) (Some "Worldwide") None title (Some e)
    (Some 0%Z) (Some 0%Z).

Definition row_north : RoadmapRow.t :=
  place 11 "Viva pulse" "Viva" "Web" [0%Q; 1%Q].
Definition row_east : RoadmapRow.t :=
  place 12 "Teams recap" "Teams" "Web,Desktop" [1%Q; 0%Q].
Definition row_between : RoadmapRow.t :=
  place 13 "Planner in Teams" "Planner,Teams" "Mobile" [3 # 5; 4 # 5].

Definition compass_store : store :=
  mk_store [] 0 [row_north; row_east; row_between] String.leb.

(** Two customers in a database whose collation ignores the case of ASCII
    letters. *)
Definition caseless (a b : string) : bool :=
  String.leb (string_of_list_ascii (Sql.lower (list_ascii_of_string a)))
             (string_of_list_ascii (Sql.lower (list_ascii_of_string b))).

Definition market_store : store :=
  mk_store
    [CustomerRow.mk 1 "Banana" "Grocer" "Teams" (Some "low") None (Some 0%Z) (Some 0%Z);
     CustomerRow.mk 2 "apple" "Orchard" "Viva" (Some "high") None (Some 0%Z) (Some 0%Z)]
    2 [] caseless.



(** The same rows, written at three different times. *)
Definition written (at_ : Z) (r : RoadmapRow.t) : RoadmapRow.t :=
  RoadmapRow.mk (RoadmapRow.id r) (RoadmapRow.title r) (RoadmapRow.description r)
    (RoadmapRow.status r) (RoadmapRow.release_date r) (RoadmapRow.products r)
    (RoadmapRow.platforms r) (RoadmapRow.cloud_instances r)
    (RoadmapRow.release_phase r) (RoadmapRow.document r) (RoadmapRow.embedding r)
    (RoadmapRow.created_at r) (Some at_).

Definition dated_store : store :=
  mk_store [] 0 [written 30 row_north; written 10 row_east; written 20 row_between]
    String.leb.

(** Two raw items that carry no id. *)
Definition anonymous_first : RawItem.t :=
  RawItem.mk None (Some "First") None None None None None None.
Definition anonymous_second : RawItem.t :=
  RawItem.mk None (Some "Second") None None None None None None.

(** * Properties *)

Example like_demo :
  Sql.ilike "Microsoft Teams" "%teams%" = true /\
  Sql.ilike "Microsoft Teams" "%t_ams%" = true /\
  Sql.ilike "Microsoft Teams" "%t\_ams%" = false /\
  Sql.ilike "Microsoft Teams" "%viva%" = false /\
  Sql.ilike "Teams" "%%%" = true.
Proof. vm_compute. auto. Qed.

Example dispatch_demo :
  fst (CustomerAgent.handle_tool_call "delete_customer"
         {["customer_id" := VInt 1]} 0%Z empty_store)
  = Raise (TypeError
      "get_db_connection() missing 1 required positional argument: 'database_url'")
  /\ fst (CustomerAgent.handle_tool_call "add_customer"
         (<["name" := VStr "Contoso"]> (<["description" := VStr "d"]>
            {["products_used" := VStr "Teams"]})) 0%Z empty_store)
  = Ok "✗ Error adding customer: add_customer() missing 1 required positional argument: 'database_url'"
  /\ fst (CustomerAgent.handle_tool_call "nope" ∅ 0%Z empty_store)
  = Ok "Unknown function: nope".
Proof. vm_compute. auto. Qed.

Example iso_demo :
  Iso.fromisoformat "1970-01-02T00:00:01" = Some (Datetime.mk 86401000000 None)
  /\ Iso.fromisoformat (Datetime.replace_Z "2024-06-01T12:00:00Z")
     = Some (Datetime.mk 1717243200000000 (Some 0%Z))
  /\ Iso.fromisoformat "2024-02-30T12:00:00" = None
  /\ Iso.fromisoformat "next week" = None.
Proof. vm_compute. auto. Qed.

(** ** Tool dispatch *)

Lemma eqb_not_in (x y : string) (l : list string) :
  ~ In x l -> In y l -> String.eqb x y = false.
Proof.
  intros Hx Hy. apply String.eqb_neq. intros ->. contradiction.
Qed.

Ltac not_registered H :=
  repeat (rewrite (eqb_not_in _ _ _ H) by (simpl; tauto)); simpl.

Lemma customer_unknown_function (function_name : string)
    (function_args : gmap string value) (now : Z) (db : store) :
  ~ In function_name CustomerAgent.registered ->
  CustomerAgent.handle_tool_call function_name function_args now db
  = (Ok ("Unknown function: " +:+ function_name), db).
Proof.
  intros H. unfold CustomerAgent.handle_tool_call.
  not_registered H. reflexivity.
Qed.

Lemma roadmap_unknown_function {W : Type} search stats (database_url : value)
    (function_name : string) (function_args : gmap string value) (w : W) :
  ~ In function_name RoadmapAgent.registered ->
  RoadmapAgent.handle_tool_call search stats database_url function_name
    function_args w
  = (Ok ("Unknown function: " +:+ function_name), w).
Proof.
  intros H. unfold RoadmapAgent.handle_tool_call.
  not_registered H. reflexivity.
Qed.

Lemma orchestrator_unknown_function {W : Type} roadmap customer impact
    (function_name : string) (function_args : gmap string value) (w : W) :
  ~ In function_name Orchestrator.registered ->
  Orchestrator.handle_tool_call roadmap customer impact function_name
    function_args w
  = (Ok ("Unknown function: " +:+ function_name), w).
Proof.
  intros H. unfold Orchestrator.handle_tool_call.
  not_registered H. reflexivity.
Qed.

(** Conversely, the registered names are exactly those that reach a
    handler: the orchestrator answers [refresh_roadmap_data] itself. *)
Lemma orchestrator_refresh {W : Type} roadmap customer impact
    (function_args : gmap string value) (w : W) :
  Orchestrator.handle_tool_call roadmap customer impact "refresh_roadmap_data"
    function_args w
  = (Ok Orchestrator.refresh_roadmap_data, w).
Proof. reflexivity. Qed.

(** C4. A tool name that is none of the names a dispatcher routes is
    answered with exactly the string "Unknown function: <name>", whatever
    the argument mapping; the dispatcher returns it (it does not raise) and
    leaves the world it acts on as it was.  This holds for the orchestrator
    dispatcher, with any three routes, and for the customer dispatcher. *)
Theorem unknown_function_sentinel {W : Type}
    (roadmap : value -> value -> W -> result string * W)
    (customer impact : value -> W -> result string * W)
    (function_name : string) (function_args : gmap string value)
    (w : W) (now : Z) (db : store) :
  (~ In function_name Orchestrator.registered ->
   Orchestrator.handle_tool_call roadmap customer impact function_name
     function_args w
   = (Ok ("Unknown function: " +:+ function_name), w))
  /\ (~ In function_name CustomerAgent.registered ->
      CustomerAgent.handle_tool_call function_name function_args now db
      = (Ok ("Unknown function: " +:+ function_name), db)).
Proof.
  split.
  - apply orchestrator_unknown_function.
  - apply customer_unknown_function.
Qed.

Lemma unknown_function_sentinel_witness :
  ~ In "summon_agent" Orchestrator.registered
  /\ ~ In "summon_agent" CustomerAgent.registered
  /\ Orchestrator.handle_tool_call
       (fun _ _ (w : unit) => (Ok "roadmap", w))
       (fun _ w => (Ok "customer", w)) (fun _ w => (Ok "impact", w))
       "summon_agent" {["query" := VStr "hello"]} tt
     = (Ok "Unknown function: summon_agent", tt)
  /\ CustomerAgent.handle_tool_call "summon_agent" {["query" := VStr "hello"]}
       0%Z empty_store
     = (Ok "Unknown function: summon_agent", empty_store).
Proof.
  assert (H1 : ~ In "summon_agent" Orchestrator.registered)
    by (simpl; intuition discriminate).
  assert (H2 : ~ In "summon_agent" CustomerAgent.registered)
    by (simpl; intuition discriminate).
  destruct (unknown_function_sentinel
              (fun _ _ (w : unit) => (Ok "roadmap", w))
              (fun _ w => (Ok "customer", w)) (fun _ w => (Ok "impact", w))
              "summon_agent" {["query" := VStr "hello"]} tt 0%Z empty_store)
    as [Ho Hc].
  split; [exact H1 | split; [exact H2 | split; [exact (Ho H1) | exact (Hc H2)]]].
Defined.

(** The customer handlers reach the database layer without the
    [database_url] it requires.  [add_customer_tool] catches the resulting
    exception and reports it as a string. *)
Lemma add_customer_tool_reports (n d p : string) (now : Z) (db : store) :
  CustomerAgent.handle_tool_call "add_customer"
    (<["name" := VStr n]> (<["description" := VStr d]>
       {["products_used" := VStr p]})) now db
  = (Ok "✗ Error adding customer: add_customer() missing 1 required positional argument: 'database_url'",
     db).
Proof. vm_compute. reflexivity. Qed.

Lemma list_customers_raises (function_args : gmap string value) (now : Z)
    (db : store) :
  CustomerAgent.handle_tool_call "list_customers" function_args now db
  = (Raise (TypeError
       "list_customers() missing 1 required positional argument: 'database_url'"),
     db).
Proof. reflexivity. Qed.

Lemma update_customer_raises (customer_id : value) (now : Z) (db : store) :
  CustomerAgent.handle_tool_call "update_customer"
    (<["customer_id" := customer_id]> {["priority" := VStr "high"]}) now db
  = (Raise (TypeError
       "update_customer() missing 1 required positional argument: 'database_url'"),
     db).
Proof. vm_compute. reflexivity. Qed.

(** C7. The customer dispatcher does raise: dispatching [delete_customer]
    with a customer id ends in the TypeError of [get_db_connection()],
    called without its [database_url], and no handler on the way turns it
    into a string.  The store is left as it was. *)
Theorem customer_dispatch_raises (customer_id : value) (now : Z) (db : store) :
  CustomerAgent.handle_tool_call "delete_customer"
    {["customer_id" := customer_id]} now db
  = (Raise (TypeError
       "get_db_connection() missing 1 required positional argument: 'database_url'"),
     db).
Proof. vm_compute. reflexivity. Qed.

(** A call that lacks a required argument raises as well, in the binding
    of the handler call. *)
Lemma delete_customer_unbound (now : Z) (db : store) :
  CustomerAgent.handle_tool_call "delete_customer" ∅ now db
  = (Raise (TypeError
       "delete_customer_tool() missing 1 required positional argument: 'customer_id'"),
     db).
Proof. vm_compute. reflexivity. Qed.

(** ** Customers: the UNIQUE(name) constraint *)

Lemma name_taken_spec (n : string) (rows : list CustomerRow.t) :
  Database.name_taken n rows = true
  <-> exists r, In r rows /\ CustomerRow.name r = n.
Proof.
  unfold Database.name_taken. rewrite existsb_exists.
  split; intros [r [Hin Hr]]; exists r; split; auto.
  - now apply String.eqb_eq.
  - now apply String.eqb_eq.
Qed.

(** C9. Adding a customer whose name is already stored fails: the call
    raises (an IntegrityError when a database URL is given) and the
    customers table and the roadmap table are exactly as before; only the
    id sequence has moved. *)
Theorem duplicate_name_add_fails (customer : Customer.t)
    (database_url : option string) (now : Z) (db : store) :
  (exists r, In r (customers db) /\ CustomerRow.name r = Customer.name customer) ->
  let (res, db') := Database.add_customer customer database_url now db in
  is_ok res = false
  /\ (forall url, database_url = Some url -> exists m, res = Raise (IntegrityError m))
  /\ customers db' = customers db
  /\ length (customers db') = length (customers db)
  /\ roadmap_items db' = roadmap_items db.
Proof.
  intros Hdup. apply name_taken_spec in Hdup.
  unfold Database.add_customer.
  destruct database_url as [url|]; simpl.
  - rewrite Hdup. simpl. repeat split; eauto.
  - repeat split; auto. intros url Hurl. discriminate.
Qed.

(** The first add of a name succeeds and appends exactly that row, so the
    failure above is due to the duplicate. *)
Lemma add_customer_fresh (customer : Customer.t) (url : string) (now : Z)
    (db : store) :
  Database.name_taken (Customer.name customer) (customers db) = false ->
  exists row,
    Database.add_customer customer (Some url) now db
    = (Ok (customers_id_seq db + 1)%Z,
       mk_store (customers db ++ [row]) (customers_id_seq db + 1)
                (roadmap_items db) (collation db))
    /\ CustomerRow.name row = Customer.name customer
    /\ CustomerRow.id row = (customers_id_seq db + 1)%Z.
Proof.
  intros Hfresh. unfold Database.add_customer. simpl. rewrite Hfresh.
  eexists. split; [reflexivity | split; reflexivity].
Qed.

Lemma add_customer_keeps_unique (customer : Customer.t) (url : option string)
    (now : Z) (db : store) :
  unique_names db -> unique_names (snd (Database.add_customer customer url now db)).
Proof.
  unfold unique_names, Database.add_customer. intros Hu.
  destruct url as [url|]; simpl; [|exact Hu].
  destruct (Database.name_taken _ _) eqn:Ht; simpl; [exact Hu|].
  rewrite map_app. simpl. apply NoDup_app. split; [exact Hu|].
  split.
  - intros x Hx Hx'. apply list_elem_of_singleton in Hx'. subst x.
    apply list_elem_of_In, in_map_iff in Hx. destruct Hx as [r [Hr Hin]].
    assert (Database.name_taken (Customer.name customer) (customers db) = true)
      by (apply name_taken_spec; eauto).
    congruence.
  - apply NoDup_singleton.
Qed.

Lemma duplicate_name_add_fails_witness :
  let db := snd (Database.add_customer contoso (Some "postgresql://db") 10%Z
                   empty_store) in
  (exists r, In r (customers db) /\ CustomerRow.name r = "Contoso")
  /\ is_ok (fst (Database.add_customer contoso (Some "postgresql://db") 20%Z db))
     = false
  /\ customers (snd (Database.add_customer contoso (Some "postgresql://db") 20%Z db))
     = customers db.
Proof.
  intros db.
  assert (Hdup : exists r, In r (customers db)
                           /\ CustomerRow.name r = Customer.name contoso).
  { eexists. split; [left; reflexivity | reflexivity]. }
  pose proof (duplicate_name_add_fails contoso (Some "postgresql://db") 20%Z db
                Hdup) as H.
  destruct (Database.add_customer contoso (Some "postgresql://db") 20%Z db)
    as [res db'] eqn:E.
  destruct H as [Hfail [_ [Hrows _]]].
  split; [exact Hdup | split; [exact Hfail | exact Hrows]].
Defined.

(** ** The conversation loop on a scripted model *)

Section LoopFacts.
Context {W : Type}.
Variable handle_tool_call : string -> gmap string value -> W -> result string * W.
Variable prepare_args : gmap string value -> gmap string value.

(** A reply whose first part is no call ends the loop at once. *)
Lemma tool_loop_final script response sent executed (w : W) :
  Chat.first_call response = None ->
  Chat.tool_loop handle_tool_call prepare_args script response sent executed w
  = (Chat.mk_run (Ok (Chat.text response)) sent executed script, w).
Proof.
  unfold Chat.first_call. intros H.
  destruct script; simpl; destruct (Chat.parts response) as [|[t|n a] ps];
    try reflexivity; discriminate.
Qed.

(** A reply whose first part is a call, answered by the dispatcher, costs
    one further exchange. *)
Lemma tool_loop_step next script response sent executed (w w' : W)
    name args tool_result :
  Chat.first_call response = Some (name, args) ->
  handle_tool_call name (prepare_args args) w = (Ok tool_result, w') ->
  Chat.tool_loop handle_tool_call prepare_args (next :: script) response sent
    executed w
  = Chat.tool_loop handle_tool_call prepare_args script next
      (sent ++ [Chat.FunctionResponse name tool_result])
      (executed ++ [(name, prepare_args args)]) w'.
Proof.
  unfold Chat.first_call. intros Hc Hd. simpl.
  destruct (Chat.parts response) as [|[t|n a] ps]; try discriminate.
  injection Hc as -> ->. rewrite Hd. reflexivity.
Qed.

(** An exception of the dispatcher ends the query with that exception. *)
Lemma tool_loop_raise script response sent executed (w w' : W) name args e :
  Chat.first_call response = Some (name, args) ->
  handle_tool_call name (prepare_args args) w = (Raise e, w') ->
  Chat.returned
    (fst (Chat.tool_loop handle_tool_call prepare_args script response sent
            executed w)) = Raise e.
Proof.
  unfold Chat.first_call. intros Hc Hd.
  destruct (Chat.parts response) as [|[t|n a] ps] eqn:Hp; try discriminate.
  injection Hc as -> ->.
  destruct script; simpl; rewrite Hp, Hd; reflexivity.
Qed.

Lemma one_call_then_text user_message name args rest1 text1 reply2 script
    (w w' : W) tool_result :
  Chat.first_call reply2 = None ->
  handle_tool_call name (prepare_args args) w = (Ok tool_result, w') ->
  Chat.query handle_tool_call prepare_args user_message
    (Chat.mk_response (Chat.FunctionCall name args :: rest1) text1
       :: reply2 :: script) w
  = (Chat.mk_run (Ok (Chat.text reply2))
       [Chat.UserMessage user_message; Chat.FunctionResponse name tool_result]
       [(name, prepare_args args)] script, w').
Proof.
  intros H2 Hd. unfold Chat.query.
  rewrite (tool_loop_step _ _ _ _ _ w w' name args tool_result);
    [|reflexivity|exact Hd].
  rewrite tool_loop_final by exact H2. reflexivity.
Qed.

(** Only the first part is looked at: a call that follows a text part is
    never executed, and the query ends after its first exchange. *)
Lemma call_behind_text_ignored user_message t name args text1 script (w : W) :
  Chat.query handle_tool_call prepare_args user_message
    (Chat.mk_response [Chat.Text t; Chat.FunctionCall name args] text1 :: script) w
  = (Chat.mk_run (Ok text1) [Chat.UserMessage user_message] [] script, w).
Proof. unfold Chat.query. destruct script; reflexivity. Qed.
End LoopFacts.

Lemma only_text_no_call (r : Chat.response) :
  forallb Chat.is_text (Chat.parts r) = true -> Chat.first_call r = None.
Proof.
  unfold Chat.first_call. destruct (Chat.parts r) as [|[t|n a] ps]; simpl;
    intros H; try reflexivity; discriminate.
Qed.

(** C5. A scripted model whose first reply has a function call as its
    first content part, and whose second reply carries only text, drives
    [RoadmapAgent.query] and [OrchestratorAgent.query] through exactly two
    exchanges (the user message, then the function response), executes that
    one call (the orchestrator with its [database_url] written into the
    arguments) and returns the text of the second reply.  Whatever follows
    the first part of the first reply is not inspected.  The dispatcher is
    assumed to answer the call with a string. *)
Theorem scripted_call_then_text {W : Type}
    (search : value -> value -> value -> W -> result (list (gmap string value)) * W)
    (stats : W -> result value * W)
    (roadmap : value -> value -> W -> result string * W)
    (customer impact : value -> W -> result string * W)
    (database_url user_message name : string) (args : gmap string value)
    (rest1 : list Chat.part) (text1 : string) (reply2 : Chat.response)
    (script : list Chat.response) (w : W) :
  let reply1 := Chat.mk_response (Chat.FunctionCall name args :: rest1) text1 in
  forallb Chat.is_text (Chat.parts reply2) = true ->
  (forall tool_result w',
   RoadmapAgent.handle_tool_call search stats (VStr database_url) name args w
   = (Ok tool_result, w') ->
   let (r, w2) := RoadmapAgent.query search stats (VStr database_url)
                    user_message (reply1 :: reply2 :: script) w in
   Chat.exchanges r = 2%nat
   /\ Chat.sent r = [Chat.UserMessage user_message;
                     Chat.FunctionResponse name tool_result]
   /\ Chat.executed r = [(name, args)]
   /\ Chat.returned r = Ok (Chat.text reply2)
   /\ w2 = w')
  /\ (forall tool_result w',
      Orchestrator.handle_tool_call roadmap customer impact name
        (<["database_url" := VStr database_url]> args) w
      = (Ok tool_result, w') ->
      let (r, w2) := Orchestrator.query roadmap customer impact database_url
                       user_message (reply1 :: reply2 :: script) w in
      Chat.exchanges r = 2%nat
      /\ Chat.sent r = [Chat.UserMessage user_message;
                        Chat.FunctionResponse name tool_result]
      /\ Chat.executed r = [(name, <["database_url" := VStr database_url]> args)]
      /\ Chat.returned r = Ok (Chat.text reply2)
      /\ w2 = w').
Proof.
  intros reply1 Htext. apply only_text_no_call in Htext.
  split; intros tool_result w' Hd.
  - unfold RoadmapAgent.query, reply1.
    rewrite (one_call_then_text _ (fun a => a) user_message name args rest1
               text1 reply2 script w w' tool_result Htext Hd).
    repeat split.
  - unfold Orchestrator.query, reply1.
    rewrite (one_call_then_text _
               (fun a => <["database_url" := VStr database_url]> a)
               user_message name args rest1 text1 reply2 script w w'
               tool_result Htext Hd).
    repeat split.
Qed.

Lemma scripted_call_then_text_witness :
  forallb Chat.is_text (Chat.parts demo_reply2) = true
  /\ Chat.exchanges
       (fst (Orchestrator.query demo_route2 demo_route1 demo_route1 "pg://db"
               "What is new in Teams?"
               [Chat.mk_response
                  [Chat.FunctionCall "route_to_roadmap_agent"
                     {["query" := VStr "Teams"]}] EmptyString;
                demo_reply2] tt)) = 2%nat
  /\ Chat.returned
       (fst (RoadmapAgent.query demo_search demo_stats (VStr "pg://db")
               "What is new in Teams?"
               [Chat.mk_response
                  [Chat.FunctionCall "route_to_roadmap_agent"
                     {["query" := VStr "Teams"]}] EmptyString;
                demo_reply2] tt)) = Ok "Recap is rolling out.".
Proof.
  assert (Ht : forallb Chat.is_text (Chat.parts demo_reply2) = true)
    by reflexivity.
  destruct (scripted_call_then_text demo_search demo_stats demo_route2
              demo_route1 demo_route1 "pg://db" "What is new in Teams?"
              "route_to_roadmap_agent" {["query" := VStr "Teams"]} []
              EmptyString demo_reply2 [] tt Ht) as [Hr Ho].
  specialize (Hr "Unknown function: route_to_roadmap_agent" tt eq_refl).
  specialize (Ho "Teams recap is rolling out." tt eq_refl).
  destruct (RoadmapAgent.query _ _ _ _ _ _) as [r1 w1].
  destruct (Orchestrator.query _ _ _ _ _ _ _) as [r2 w2].
  simpl. split; [exact Ht | split; [apply Ho | apply Hr]].
Defined.

(** ** The incremental filter *)

Section FilterFacts.
Variable fromisoformat : string -> option Datetime.t.

Lemma nonempty_truthy (str : string) : str <> EmptyString -> truthy (VStr str) = true.
Proof.
  intros H. simpl. destruct (String.eqb_spec str EmptyString); [contradiction|reflexivity].
Qed.

(** On an item whose timestamp is a non-empty string the loop looks at
    that very string. *)
Lemma modified_str_timestamp (item : RawItem.t) (str : string) :
  Ingestion.spec_timestamp item = Some (VStr str) -> str <> EmptyString ->
  Ingestion.modified_str item = VStr str.
Proof.
  unfold Ingestion.spec_timestamp, Ingestion.modified_str, py_or.
  intros Ht Hne. destruct (RawItem.modified item) as [v|].
  - injection Ht as ->. simpl of_get. rewrite nonempty_truthy by exact Hne.
    reflexivity.
  - rewrite Ht. reflexivity.
Qed.

(** After both offsets are dropped the comparison cannot raise. *)
Lemma is_new_timestamp (since : Datetime.t) (item : RawItem.t) (str : string) :
  Ingestion.spec_timestamp item = Some (VStr str) -> str <> EmptyString ->
  Ingestion.is_new fromisoformat since item
  = Ok match fromisoformat (Datetime.replace_Z str) with
       | Some modified => (Datetime.wall since <? Datetime.wall modified)%Z
       | None => true
       end.
Proof.
  intros Ht Hne. unfold Ingestion.is_new.
  rewrite (modified_str_timestamp item str Ht Hne).
  rewrite nonempty_truthy by exact Hne.
  destruct (fromisoformat (Datetime.replace_Z str)) as [m|]; [|reflexivity].
  destruct m as [wm [om|]], since as [ws [os|]]; reflexivity.
Qed.

(** The same for the string the loop itself reads. *)
Lemma is_new_reads (since : Datetime.t) (item : RawItem.t) (str : string) :
  Ingestion.modified_str item = VStr str -> str <> EmptyString ->
  Ingestion.is_new fromisoformat since item
  = Ok match fromisoformat (Datetime.replace_Z str) with
       | Some modified => (Datetime.wall since <? Datetime.wall modified)%Z
       | None => true
       end.
Proof.
  intros Hs Hne. unfold Ingestion.is_new. rewrite Hs.
  rewrite nonempty_truthy by exact Hne.
  destruct (fromisoformat (Datetime.replace_Z str)) as [m|]; [|reflexivity].
  destruct m as [wm [om|]], since as [ws [os|]]; reflexivity.
Qed.

Lemma is_new_untimestamped (since : Datetime.t) (item : RawItem.t) :
  RawItem.modified item = None -> RawItem.created item = None ->
  Ingestion.is_new fromisoformat since item = Ok false.
Proof.
  intros Hm Hc. unfold Ingestion.is_new, Ingestion.modified_str.
  rewrite Hm, Hc. reflexivity.
Qed.

Lemma filter_loop_In (since : Datetime.t) (raw_items out : list RawItem.t) :
  Ingestion.filter_loop fromisoformat since raw_items = Ok out ->
  forall item,
    In item out
    <-> In item raw_items /\ Ingestion.is_new fromisoformat since item = Ok true.
Proof.
  revert out. induction raw_items as [|a l IH]; simpl; intros out H item.
  - injection H as <-. simpl. tauto.
  - destruct (Ingestion.is_new fromisoformat since a) as [keep|e] eqn:Ha;
      [|discriminate].
    simpl in H.
    destruct (Ingestion.filter_loop fromisoformat since l) as [new_items|e]
      eqn:Hl; [|discriminate].
    simpl in H. injection H as <-. specialize (IH new_items eq_refl item).
    destruct keep; simpl; rewrite IH; split.
    + intros [<-|[Hin Hn]]; auto.
    + intros [[<-|Hin] Hn]; auto.
    + intros [Hin Hn]; auto.
    + intros [[<-|Hin] Hn]; [congruence|auto].
Qed.

(** The loop returns whenever every value it calls [replace] on is a
    string. *)
Lemma filter_loop_returns (since : Datetime.t) (raw_items : list RawItem.t) :
  Forall (fun item => is_ok (Ingestion.is_new fromisoformat since item) = true)
         raw_items ->
  exists out, Ingestion.filter_loop fromisoformat since raw_items = Ok out.
Proof.
  induction 1 as [|a l Ha _ [out IH]]; simpl.
  - eauto.
  - destruct (Ingestion.is_new fromisoformat since a); [|discriminate].
    rewrite IH. simpl. eauto.
Qed.

(** A truthy timestamp that is no string stops the whole filter. *)
Lemma filter_raises_on_number (since : Datetime.t) (item : RawItem.t)
    (rest : list RawItem.t) (z : Z) :
  RawItem.modified item = Some (VInt z) -> z <> 0%Z ->
  Ingestion.filter_new_items fromisoformat (item :: rest) (Some since)
  = Raise (AttributeError "'int' object has no attribute 'replace'").
Proof.
  intros Hm Hz. simpl. unfold Ingestion.is_new, Ingestion.modified_str, py_or.
  rewrite Hm. simpl. destruct (Z.eqb_spec z 0); [contradiction|].
  simpl. destruct (Z.eqb_spec z 0); [contradiction|]. reflexivity.
Qed.
End FilterFacts.

(** The claim fails as stated.  An empty [modified] string cannot be
    parsed, yet an item that carries one is dropped when it has no
    [created], and is judged on [created] when it has one; and a timestamp
    half past noon at five hours east of UTC, an instant before a
    watermark of noon, is kept, because its offset is dropped. *)
Lemma incremental_filter_counterexample :
  ~ spec_incremental_filter Iso.fromisoformat noon item_blank
  /\ ~ spec_incremental_filter Iso.fromisoformat noon item_blank_created
  /\ ~ spec_incremental_filter Iso.fromisoformat noon item_offset.
Proof.
  split; [|split]; intros H.
  - destruct (H EmptyString [] eq_refl eq_refl) as [_ Hkeep].
    exact (Hkeep I).
  - destruct (H EmptyString [] eq_refl eq_refl) as [_ Hkeep].
    exact (Hkeep I).
  - destruct (H "2024-06-01T12:30:00+05:00" [item_offset] eq_refl eq_refl)
      as [Hkeep _].
    specialize (Hkeep (or_introl eq_refl)). vm_compute in Hkeep. discriminate.
Qed.

(** C2, amended. With a watermark [since], let the timestamp of a raw item
    be what the loop reads, [modified or created]: the [modified] value
    unless it is absent, null or empty, and the [created] value then.  An
    item whose timestamp is absent, null or empty is dropped.  An item
    whose timestamp is a non-empty string is kept exactly when the string
    reads strictly later than the watermark, any UTC offset dropped and not
    applied, or cannot be parsed: a reading one second after the watermark
    is kept, one second before it is dropped, and an unparseable non-empty
    string is kept. *)
Theorem incremental_filter_keeps (fromisoformat : string -> option Datetime.t)
    (since : Datetime.t) (raw_items out : list RawItem.t) (item : RawItem.t) :
  Ingestion.filter_new_items fromisoformat raw_items (Some since) = Ok out ->
  In item raw_items ->
  (truthy (Ingestion.modified_str item) = false -> ~ In item out)
  /\ (forall str,
        Ingestion.modified_str item = VStr str -> str <> EmptyString ->
        (In item out <-> Ingestion.exceeds_or_unparseable fromisoformat since str)
        /\ (forall modified,
              fromisoformat (Datetime.replace_Z str) = Some modified ->
              Datetime.wall modified = (Datetime.wall since + Datetime.second)%Z ->
              In item out)
        /\ (forall modified,
              fromisoformat (Datetime.replace_Z str) = Some modified ->
              Datetime.wall modified = (Datetime.wall since - Datetime.second)%Z ->
              ~ In item out)
        /\ (fromisoformat (Datetime.replace_Z str) = None -> In item out)).
Proof.
  intros Hf Hin. simpl in Hf.
  pose proof (filter_loop_In fromisoformat since raw_items out Hf item) as Hio.
  split.
  - intros Hfalsy Hout. apply Hio in Hout as [_ Hnew].
    unfold Ingestion.is_new in Hnew. rewrite Hfalsy in Hnew. discriminate.
  - intros str Hs Hne.
    pose proof (is_new_reads fromisoformat since item str Hs Hne) as Hnew.
    assert (Hiff : In item out
                   <-> Ingestion.exceeds_or_unparseable fromisoformat since str).
    { rewrite Hio, Hnew. unfold Ingestion.exceeds_or_unparseable.
      destruct (fromisoformat (Datetime.replace_Z str)) as [m|].
      - split.
        + intros [_ H]. injection H as H. now apply Z.ltb_lt.
        + intros H. split; [exact Hin|]. f_equal. now apply Z.ltb_lt.
      - tauto. }
    split; [exact Hiff|]. unfold Ingestion.exceeds_or_unparseable in Hiff.
    unfold Datetime.second. repeat split.
    + intros m Hm Hw. apply Hiff. rewrite Hm. lia.
    + intros m Hm Hw Hin'. apply Hiff in Hin'. rewrite Hm in Hin'. lia.
    + intros Hm. apply Hiff. rewrite Hm. exact I.
Qed.

Example filter_demo :
  Ingestion.filter_new_items Iso.fromisoformat demo_feed (Some noon)
  = Ok [item_after; item_garbled; item_created].
Proof. vm_compute. reflexivity. Qed.

Lemma incremental_filter_keeps_witness :
  Ingestion.filter_new_items Iso.fromisoformat demo_feed (Some noon)
  = Ok [item_after; item_garbled; item_created]
  /\ In item_after demo_feed
  /\ Ingestion.modified_str item_after = VStr "2024-06-01T12:00:01Z"
  /\ (In item_after [item_after; item_garbled; item_created]
      <-> Ingestion.exceeds_or_unparseable Iso.fromisoformat noon
            "2024-06-01T12:00:01Z").
Proof.
  assert (Hf : Ingestion.filter_new_items Iso.fromisoformat demo_feed (Some noon)
               = Ok [item_after; item_garbled; item_created])
    by (vm_compute; reflexivity).
  assert (Hin : In item_after demo_feed) by (left; reflexivity).
  assert (Ht : Ingestion.modified_str item_after = VStr "2024-06-01T12:00:01Z")
    by reflexivity.
  assert (Hne : "2024-06-01T12:00:01Z" <> EmptyString) by discriminate.
  split; [exact Hf | split; [exact Hin | split; [exact Ht|]]].
  exact (proj1 (proj2 (incremental_filter_keeps Iso.fromisoformat noon demo_feed
                         [item_after; item_garbled; item_created] item_after
                         Hf Hin) "2024-06-01T12:00:01Z" Ht Hne)).
Defined.

(** ** The ingestion worker *)

Lemma batches_In {A} (fuel batch_size : nat) (l : list A) (x : A) :
  In x (concat (Ingestion.batches fuel batch_size l)) -> In x l.
Proof.
  revert l. induction fuel as [|fuel IH]; intros l; simpl; [tauto|].
  destruct l as [|a l']; [simpl; tauto|].
  set (l := a :: l'). simpl concat. rewrite in_app_iff.
  rewrite <- (take_drop batch_size l) at 3. rewrite in_app_iff.
  intros [H|H]; [left; exact H | right; apply IH; exact H].
Qed.

Section WorkerFacts.
Variable fromisoformat : string -> option Datetime.t.
Variable genai : string -> genai_client.
Variable http_get : string -> feed.
Variable clock : nat -> Z.

Lemma upsert_batches_done bs : forall i url client model dims total done db
    r total' done' db',
  Ingestion.upsert_batches clock bs i url client model dims total done db
  = (r, total', done', db') ->
  forall x, In x done' -> In x done \/ In x (concat bs).
Proof.
  induction bs as [|batch rest IH]; simpl;
    intros i url client model dims total done db r total' done' db' H x Hx.
  - injection H as _ _ <- _. auto.
  - destruct (PipelineDatabase.upsert_roadmap_items batch url client model dims
                (clock i) db) as [[count|e] db1].
    + apply IH with (x := x) in H; [|exact Hx].
      rewrite in_app_iff in *. tauto.
    + injection H as _ _ <- _. auto.
Qed.

(** Whatever a run hands to the parser passed the filter, and whatever it
    upserts is the parse of such an item. *)
Lemma run_ingestion_provenance url key full_sync model dims api_url db :
  let (r, db') := Ingestion.run_ingestion fromisoformat genai http_get clock
                    url key full_sync model dims api_url db in
  (forall raw, In raw (Ingestion.processed r) ->
     exists out,
       Ingestion.filter_new_items fromisoformat
         (Ingestion.fetch_roadmap_items http_get api_url)
         (if full_sync then None
          else Ingestion.get_last_ingestion_time url db) = Ok out
       /\ In raw out)
  /\ (forall it, In it (Ingestion.upserted r) ->
        exists raw, In raw (Ingestion.processed r)
                    /\ it = Ingestion.parse_roadmap_item raw).
Proof.
  unfold Ingestion.run_ingestion. simpl.
  destruct (Ingestion.get_genai_client genai key) as [client|e];
    [|simpl; split; intros ? []].
  destruct (Ingestion.fetch_roadmap_items http_get api_url) as [|a data] eqn:Hf;
    [simpl; split; intros ? []|].
  destruct (Ingestion.filter_new_items fromisoformat (a :: data) _)
    as [[|b out]|e] eqn:Hflt; try (simpl; split; intros ? []).
  destruct (Ingestion.upsert_batches _ _ _ _ _ _ _ _ _ _)
    as [[[r total] done] db'] eqn:Hu.
  assert (Hdone : forall it, In it done ->
            exists raw, In raw (b :: out) /\ it = Ingestion.parse_roadmap_item raw).
  { intros it Hit.
    destruct (upsert_batches_done _ _ _ _ _ _ _ _ _ _ _ _ _ Hu it Hit)
      as [[]|Hin].
    apply batches_In in Hin. apply in_map_iff in Hin.
    destruct Hin as [raw [<- Hraw]]. eauto. }
  destruct r as [[]|e]; simpl; (split; [intros raw Hraw; eauto | exact Hdone]).
Qed.
End WorkerFacts.

(** C10. With a watermark, a raw item that has neither [modified] nor
    [created] is dropped by the filter, although an item whose timestamp
    cannot be parsed is kept; an incremental run of the worker therefore
    never hands such an item to the parser, and every item it upserts is
    the parse of another raw item. *)
Theorem untimestamped_item_skipped (fromisoformat : string -> option Datetime.t)
    (genai : string -> genai_client) (http_get : string -> feed)
    (clock : nat -> Z) (url key model api_url : string) (dims : Z)
    (db : store) (since : Datetime.t) (item : RawItem.t) :
  Ingestion.get_last_ingestion_time url db = Some since ->
  RawItem.modified item = None -> RawItem.created item = None ->
  (forall raw_items out,
     Ingestion.filter_new_items fromisoformat raw_items (Some since) = Ok out ->
     ~ In item out
     /\ (forall other str,
           In other raw_items ->
           RawItem.modified other = Some (VStr str) -> str <> EmptyString ->
           fromisoformat (Datetime.replace_Z str) = None ->
           In other out))
  /\ (let (r, db') := Ingestion.run_ingestion fromisoformat genai http_get clock
                        url key false model dims api_url db in
      ~ In item (Ingestion.processed r)
      /\ (forall it, In it (Ingestion.upserted r) ->
            exists raw, In raw (Ingestion.processed r) /\ raw <> item
                        /\ it = Ingestion.parse_roadmap_item raw)).
Proof.
  intros Hw Hm Hc.
  assert (Hskip : forall raw_items out,
            Ingestion.filter_new_items fromisoformat raw_items (Some since)
            = Ok out -> ~ In item out).
  { intros raw_items out Hf Hin. simpl in Hf.
    apply (filter_loop_In fromisoformat since raw_items out Hf) in Hin.
    destruct Hin as [_ Hn].
    rewrite (is_new_untimestamped fromisoformat since item Hm Hc) in Hn.
    discriminate. }
  split.
  - intros raw_items out Hf. split; [eapply Hskip; exact Hf|].
    intros other str Hin Hmo Hne Hp. simpl in Hf.
    apply (filter_loop_In fromisoformat since raw_items out Hf).
    split; [exact Hin|].
    rewrite (is_new_timestamp fromisoformat since other str);
      [rewrite Hp; reflexivity | | exact Hne].
    unfold Ingestion.spec_timestamp. rewrite Hmo. reflexivity.
  - pose proof (run_ingestion_provenance fromisoformat genai http_get clock
                  url key false model dims api_url db) as Hprov.
    destruct (Ingestion.run_ingestion _ _ _ _ _ _ _ _ _ _ _) as [r db'].
    destruct Hprov as [Hproc Hups]. rewrite Hw in Hproc.
    assert (Hnot : ~ In item (Ingestion.processed r)).
    { intros Hin. destruct (Hproc item Hin) as [out [Hf Hout]].
      exact (Hskip _ _ Hf Hout). }
    split; [exact Hnot|].
    intros it Hit. destruct (Hups it Hit) as [raw [Hraw ->]].
    exists raw. repeat split; auto. intros ->. contradiction.
Qed.

Example run_demo :
  let (r, db') := Ingestion.run_ingestion Iso.fromisoformat demo_genai
                    demo_http_get demo_clock "pg://db" "key" false
                    "models/text-embedding-004" 768 "https://feed" demo_store in
  Ingestion.get_last_ingestion_time "pg://db" demo_store = Some noon
  /\ Ingestion.result_of r = Ok ReturnNone
  /\ Ingestion.processed r = [item_after; item_garbled; item_created]
  /\ map RoadmapItem.id (Ingestion.upserted r) = [1; 3; 4]%Z
  /\ Ingestion.total_ingested r = 3%Z
  /\ map RoadmapRow.id (roadmap_items db') = [1; 3; 4]%Z
  /\ map RoadmapRow.updated_at (roadmap_items db')
     = [Some 1717329600000000; Some 1717329600000000; Some 1717329600000000]%Z.
Proof. vm_compute. repeat split. Qed.

Lemma untimestamped_item_skipped_witness :
  Ingestion.get_last_ingestion_time "pg://db" demo_store = Some noon
  /\ RawItem.modified item_bare = None /\ RawItem.created item_bare = None
  /\ ~ In item_bare
       (Ingestion.processed
          (fst (Ingestion.run_ingestion Iso.fromisoformat demo_genai
                  demo_http_get demo_clock "pg://db" "key" false
                  "models/text-embedding-004" 768 "https://feed" demo_store))).
Proof.
  assert (Hw : Ingestion.get_last_ingestion_time "pg://db" demo_store = Some noon)
    by reflexivity.
  pose proof (untimestamped_item_skipped Iso.fromisoformat demo_genai
                demo_http_get demo_clock "pg://db" "key"
                "models/text-embedding-004" "https://feed" 768 demo_store noon
                item_bare Hw eq_refl eq_refl) as [_ H].
  destruct (Ingestion.run_ingestion _ _ _ _ _ _ _ _ _ _ _) as [r db'].
  split; [exact Hw | split; [reflexivity | split; [reflexivity | apply H]]].
Defined.

(** ** A failed fetch *)

Lemma string_length_app (a b : string) :
  String.length (a +:+ b) = (String.length a + String.length b)%nat.
Proof. induction a as [|c a IH]; simpl; [reflexivity | now rewrite IH]. Qed.

Lemma occurs_in_length (needle hay : string) :
  occurs_in needle hay -> (String.length needle <= String.length hay)%nat.
Proof.
  intros [before [after ->]]. rewrite !string_length_app. lia.
Qed.

(** The claim fails as stated: after a refused connection the in-process
    ingestion reports the fixed message "No items fetched", in which the
    error does not occur, and the worker returns no result object at all. *)
Lemma fetch_failure_counterexample :
  (forall r db',
     LegacyIngestion.ingest_roadmap refused demo_upsert demo_total demo_store
     = (Ok r, db') -> ~ failure_report "Connection refused" r)
  /\ (forall r,
        Ingestion.result_of
          (fst (Ingestion.run_ingestion Iso.fromisoformat demo_genai refused
                  demo_clock "pg://db" "key" false "models/text-embedding-004"
                  768 "https://feed" demo_store)) = Ok r ->
        ~ failure_report "Connection refused" r).
Proof.
  split.
  - intros r db' H. vm_compute in H. injection H as <- _.
    intros [d [Hd [_ [_ [message [Hm Hocc]]]]]].
    injection Hd as <-. vm_compute in Hm. injection Hm as <-.
    apply occurs_in_length in Hocc. vm_compute in Hocc. lia.
  - intros r H. vm_compute in H. injection H as <-.
    intros [d [Hd _]]. discriminate.
Qed.

(** C8, amended. When the request for the feed fails, the in-process
    ingestion returns the dictionary with [success] false, [count] 0 and the
    fixed message "No items fetched", and calls nothing that writes; the
    worker parses nothing, upserts nothing, leaves the store as it was and,
    given an API key, returns [None]. *)
Theorem failed_fetch_changes_nothing {W : Type}
    (http_get : string -> feed)
    (upsert_roadmap_items : list RoadmapItem.t -> W -> result Z * W)
    (get_roadmap_stats : W -> result Z * W) (w : W)
    (fromisoformat : string -> option Datetime.t)
    (genai : string -> genai_client) (clock : nat -> Z)
    (url key model api_url : string) (full_sync : bool) (dims : Z) (db : store) :
  (forall address, exists error, http_get address = RequestFailed error) ->
  LegacyIngestion.ingest_roadmap http_get upsert_roadmap_items get_roadmap_stats w
  = (Ok (ReturnDict (<["success" := VBool false]>
                    (<["message" := VStr "No items fetched"]>
                    (<["count" := VInt 0]> ∅)))), w)
  /\ (let (r, db') := Ingestion.run_ingestion fromisoformat genai http_get clock
                        url key full_sync model dims api_url db in
      db' = db
      /\ Ingestion.processed r = []
      /\ Ingestion.upserted r = []
      /\ Ingestion.total_ingested r = 0%Z
      /\ (key <> EmptyString -> Ingestion.result_of r = Ok ReturnNone)).
Proof.
  intros Hfail. split.
  - unfold LegacyIngestion.ingest_roadmap, LegacyIngestion.fetch_roadmap_items.
    destruct (Hfail LegacyIngestion.M365_ROADMAP_API_URL) as [error ->].
    reflexivity.
  - unfold Ingestion.run_ingestion, Ingestion.fetch_roadmap_items,
      Ingestion.get_genai_client. simpl.
    destruct (Hfail api_url) as [error ->].
    destruct (String.eqb_spec key EmptyString) as [->|Hkey]; simpl;
      repeat split; auto. intros H. contradiction.
Qed.

Lemma failed_fetch_changes_nothing_witness :
  (forall address, exists error, refused address = RequestFailed error)
  /\ LegacyIngestion.ingest_roadmap refused demo_upsert demo_total demo_store
     = (Ok (ReturnDict (<["success" := VBool false]>
                       (<["message" := VStr "No items fetched"]>
                       (<["count" := VInt 0]> ∅)))), demo_store).
Proof.
  assert (H : forall address, exists error, refused address = RequestFailed error)
    by (intros address; exists "Connection refused"; reflexivity).
  split; [exact H|].
  exact (proj1 (failed_fetch_changes_nothing refused demo_upsert demo_total
                  demo_store Iso.fromisoformat demo_genai demo_clock "pg://db"
                  "key" "models/text-embedding-004" "https://feed" false 768
                  demo_store H)).
Defined.

(** ** Upserts of roadmap items *)

Lemma rows_with_id_absent (i : Z) (rows : list RoadmapRow.t) :
  ~ In i (map RoadmapRow.id rows) -> rows_with_id i rows = [].
Proof.
  unfold rows_with_id. induction rows as [|r rows IH]; simpl; [reflexivity|].
  intros H. destruct (Z.eqb_spec (RoadmapRow.id r) i) as [E|E].
  - exfalso. apply H. left. exact E.
  - apply IH. intros Hin. apply H. right. exact Hin.
Qed.

Lemma insert_on_conflict_ids (new : RoadmapRow.t) (rows : list RoadmapRow.t)
    (j : Z) :
  In j (map RoadmapRow.id (PipelineDatabase.insert_on_conflict new rows))
  <-> In j (map RoadmapRow.id rows) \/ j = RoadmapRow.id new.
Proof.
  induction rows as [|r rows IH]; simpl.
  - intuition.
  - destruct (Z.eqb_spec (RoadmapRow.id r) (RoadmapRow.id new)) as [E|E]; simpl.
    + intuition congruence.
    + rewrite IH. intuition.
Qed.

Lemma insert_on_conflict_pk (new : RoadmapRow.t) (rows : list RoadmapRow.t) :
  NoDup (map RoadmapRow.id rows) ->
  NoDup (map RoadmapRow.id (PipelineDatabase.insert_on_conflict new rows)).
Proof.
  induction rows as [|r rows IH]; simpl; intros Hnd.
  - apply NoDup_singleton.
  - apply NoDup_cons in Hnd as [Hr Hnd].
    destruct (Z.eqb_spec (RoadmapRow.id r) (RoadmapRow.id new)) as [E|E]; simpl.
    + apply NoDup_cons. split; assumption.
    + apply NoDup_cons. split; [|apply IH; exact Hnd].
      rewrite list_elem_of_In, insert_on_conflict_ids.
      rewrite list_elem_of_In in Hr. intuition.
Qed.

(** After the statement there is exactly one row with the id of the
    proposed row, and it differs from the proposed row at most in
    [created_at]. *)
Lemma insert_on_conflict_same (item : RoadmapItem.t) (e : vector) (now : Z)
    (rows : list RoadmapRow.t) :
  NoDup (map RoadmapRow.id rows) ->
  exists created_at,
    rows_with_id (RoadmapItem.id item)
      (PipelineDatabase.insert_on_conflict
         (PipelineDatabase.row_of_item item (PipelineDatabase.build_document item)
            e now) rows)
    = [upserted_row item e created_at now].
Proof.
  induction rows as [|r rows IH]; simpl; intros Hnd.
  - exists (Some now). unfold rows_with_id. simpl.
    rewrite Z.eqb_refl. reflexivity.
  - apply NoDup_cons in Hnd as [Hr Hnd]. rewrite list_elem_of_In in Hr.
    destruct (Z.eqb_spec (RoadmapRow.id r) (RoadmapItem.id item)) as [E|E].
    + exists (RoadmapRow.created_at r). unfold rows_with_id. simpl.
      rewrite E, Z.eqb_refl. fold (rows_with_id (RoadmapItem.id item) rows).
      rewrite rows_with_id_absent by (rewrite <- E; exact Hr).
      unfold PipelineDatabase.do_update, upserted_row. simpl. rewrite E.
      reflexivity.
    + destruct (IH Hnd) as [c Hc]. exists c.
      unfold rows_with_id in *. simpl.
      destruct (Z.eqb_spec (RoadmapRow.id r) (RoadmapItem.id item));
        [contradiction|exact Hc].
Qed.

(** Rows with another id are not touched. *)
Lemma insert_on_conflict_other (new : RoadmapRow.t) (rows : list RoadmapRow.t)
    (j : Z) :
  j <> RoadmapRow.id new ->
  rows_with_id j (PipelineDatabase.insert_on_conflict new rows)
  = rows_with_id j rows.
Proof.
  intros Hj. unfold rows_with_id.
  induction rows as [|r rows IH]; simpl.
  - destruct (Z.eqb_spec (RoadmapRow.id new) j); [congruence|reflexivity].
  - destruct (Z.eqb_spec (RoadmapRow.id r) (RoadmapRow.id new)) as [E|E]; simpl.
    + destruct (Z.eqb_spec (RoadmapRow.id r) j); [congruence|reflexivity].
    + rewrite IH. reflexivity.
Qed.

Section UpsertFacts.
Variable client : genai_client.
Variable embedding_model : string.
Variable embedding_dimensions : Z.
Variable now : Z.

Local Abbreviation upsert_loop items rows count :=
  (PipelineDatabase.upsert_loop items client embedding_model
     embedding_dimensions now rows count).

Lemma upsert_loop_step item rest rows count rows' count' :
  upsert_loop (item :: rest) rows count = Ok (rows', count') ->
  exists e,
    PipelineDatabase.get_embedding (PipelineDatabase.build_document item) client
      embedding_model embedding_dimensions = Ok e
    /\ upsert_loop rest
         (PipelineDatabase.insert_on_conflict
            (PipelineDatabase.row_of_item item
               (PipelineDatabase.build_document item) e now) rows)
         (count + 1)%Z = Ok (rows', count').
Proof.
  simpl. destruct (PipelineDatabase.get_embedding _ _ _ _) as [e|x];
    [|discriminate]. simpl.
  destruct (PipelineDatabase.int4 _); [|discriminate]. simpl. eauto.
Qed.

Lemma upsert_loop_pk items : forall rows count rows' count',
  NoDup (map RoadmapRow.id rows) ->
  upsert_loop items rows count = Ok (rows', count') ->
  NoDup (map RoadmapRow.id rows').
Proof.
  induction items as [|item rest IH]; intros rows count rows' count' Hnd H.
  - simpl in H. injection H as <- _. exact Hnd.
  - apply upsert_loop_step in H as [e [_ H]].
    eapply IH; [|exact H]. apply insert_on_conflict_pk. exact Hnd.
Qed.

Lemma upsert_loop_count items : forall rows count rows' count',
  upsert_loop items rows count = Ok (rows', count') ->
  count' = (count + Z.of_nat (length items))%Z.
Proof.
  induction items as [|item rest IH]; intros rows count rows' count' H.
  - simpl in H. injection H as _ <-. simpl. lia.
  - apply upsert_loop_step in H as [e [_ H]]. apply IH in H.
    simpl length. lia.
Qed.

Lemma upsert_loop_other items (i : Z) : forall rows count rows' count',
  (forall it, In it items -> RoadmapItem.id it <> i) ->
  upsert_loop items rows count = Ok (rows', count') ->
  rows_with_id i rows' = rows_with_id i rows.
Proof.
  induction items as [|item rest IH]; intros rows count rows' count' Hid H.
  - simpl in H. injection H as <- _. reflexivity.
  - apply upsert_loop_step in H as [e [_ H]].
    rewrite (IH _ _ _ _ (fun it Hin => Hid it (or_intror Hin)) H).
    apply insert_on_conflict_other. simpl.
    intros E. exact (Hid item (or_introl eq_refl) (eq_sym E)).
Qed.

(** In one call, the last item with a given id decides the row. *)
Lemma upsert_loop_last before item after : forall rows count rows' count',
  NoDup (map RoadmapRow.id rows) ->
  (forall it, In it after -> RoadmapItem.id it <> RoadmapItem.id item) ->
  upsert_loop (before ++ item :: after) rows count = Ok (rows', count') ->
  exists e created_at,
    PipelineDatabase.get_embedding (PipelineDatabase.build_document item) client
      embedding_model embedding_dimensions = Ok e
    /\ rows_with_id (RoadmapItem.id item) rows'
       = [upserted_row item e created_at now].
Proof.
  induction before as [|b before IH]; intros rows count rows' count' Hnd Hafter H.
  - simpl app in H. apply upsert_loop_step in H as [e [He H]].
    destruct (insert_on_conflict_same item e now rows Hnd) as [c Hc].
    exists e, c. split; [exact He|].
    rewrite (upsert_loop_other after _ _ _ _ _ Hafter H). exact Hc.
  - simpl app in H. apply upsert_loop_step in H as [e [_ H]].
    eapply IH; [|exact Hafter|exact H].
    apply insert_on_conflict_pk. exact Hnd.
Qed.
End UpsertFacts.

Lemma upsert_roadmap_items_ok items url client model dims now db count db' :
  PipelineDatabase.upsert_roadmap_items items url client model dims now db
  = (Ok count, db') ->
  PipelineDatabase.upsert_loop items client model dims now (roadmap_items db) 0
  = Ok (roadmap_items db', count)
  /\ customers db' = customers db.
Proof.
  unfold PipelineDatabase.upsert_roadmap_items. simpl.
  destruct (PipelineDatabase.upsert_loop _ _ _ _ _ _ _) as [[rows c]|e];
    [|discriminate].
  intros H. injection H as <- <-. split; reflexivity.
Qed.

(** A call that raises commits nothing. *)
Lemma upsert_roadmap_items_raise items url client model dims now db e db' :
  PipelineDatabase.upsert_roadmap_items items url client model dims now db
  = (Raise e, db') -> db' = db.
Proof.
  unfold PipelineDatabase.upsert_roadmap_items. simpl.
  destruct (PipelineDatabase.upsert_loop _ _ _ _ _ _ _) as [[rows c]|x];
    intros H; [discriminate|]. injection H as _ <-. reflexivity.
Qed.


Lemma upsert_sequence_pk calls url client model dims : forall db db',
  roadmap_pk db ->
  upsert_sequence calls url client model dims db = Ok db' ->
  roadmap_pk db' /\ customers db' = customers db.
Proof.
  induction calls as [|[items now] calls IH]; intros db db' Hpk H; simpl in H.
  - injection H as <-. auto.
  - destruct (PipelineDatabase.upsert_roadmap_items items url client model dims
                now db) as [[count|e] db1] eqn:Hu; [|discriminate].
    apply upsert_roadmap_items_ok in Hu as [Hloop Hcust].
    apply IH in H as [Hpk' Hc'].
    + split; [exact Hpk' | congruence].
    + eapply upsert_loop_pk; [exact Hpk | exact Hloop].
Qed.

Lemma upsert_sequence_app calls1 calls2 url client model dims : forall db db',
  upsert_sequence (calls1 ++ calls2) url client model dims db = Ok db' ->
  exists mid,
    upsert_sequence calls1 url client model dims db = Ok mid
    /\ upsert_sequence calls2 url client model dims mid = Ok db'.
Proof.
  induction calls1 as [|[items now] calls1 IH]; intros db db' H; simpl in *.
  - eauto.
  - destruct (PipelineDatabase.upsert_roadmap_items items url client model dims
                now db) as [[count|e] db1]; [|discriminate].
    apply IH. exact H.
Qed.

(** C3. After any sequence of upsert calls that have returned, on a store
    that respects the primary key, the store holds exactly one row for the
    id of the item upserted last under that id: its title, description,
    status, release date, products, platforms, cloud instances, release
    phase, document and embedding are those of that item, and [updated_at]
    is the server time of that last call.  Only [created_at] remains from
    the first insert. *)
Theorem repeated_upsert_one_row (url : string) (client : genai_client)
    (model : string) (dims : Z) (earlier : list (list RoadmapItem.t * Z))
    (before after : list RoadmapItem.t) (item : RoadmapItem.t) (now : Z)
    (db db' : store) :
  roadmap_pk db ->
  (forall it, In it after -> RoadmapItem.id it <> RoadmapItem.id item) ->
  upsert_sequence (earlier ++ [((before ++ item :: after)%list, now)])%list
    url client model dims db = Ok db' ->
  exists embedding created_at,
    PipelineDatabase.get_embedding (PipelineDatabase.build_document item) client
      model dims = Ok embedding
    /\ rows_with_id (RoadmapItem.id item) (roadmap_items db')
       = [upserted_row item embedding created_at now]
    /\ length (rows_with_id (RoadmapItem.id item) (roadmap_items db')) = 1%nat
    /\ roadmap_pk db'.
Proof.
  intros Hpk Hafter H.
  pose proof (upsert_sequence_pk _ _ _ _ _ _ _ Hpk H) as [Hpk' _].
  apply upsert_sequence_app in H as [mid [Hmid Hlast]].
  apply upsert_sequence_pk in Hmid as [Hpkmid _]; [|exact Hpk].
  simpl in Hlast.
  destruct (PipelineDatabase.upsert_roadmap_items _ _ _ _ _ _ mid)
    as [[count|e] db1] eqn:Hu; [|discriminate].
  injection Hlast as ->.
  apply upsert_roadmap_items_ok in Hu as [Hloop _].
  destruct (upsert_loop_last client model dims now before item after _ _ _ _
              Hpkmid Hafter Hloop) as [e [c [He Hrow]]].
  exists e, c. rewrite Hrow. repeat split; auto.
Qed.

Lemma repeated_upsert_one_row_witness :
  roadmap_pk empty_store
  /\ exists db',
       upsert_sequence [([recap_v1], 100%Z); ([recap_v1; recap_v2], 200%Z)]
         "pg://db" (demo_genai "key") "models/text-embedding-004" 768
         empty_store = Ok db'
       /\ exists embedding created_at,
            rows_with_id 7 (roadmap_items db')
            = [upserted_row recap_v2 embedding created_at 200%Z].
Proof.
  assert (Hpk : roadmap_pk empty_store) by apply NoDup_nil_2.
  split; [exact Hpk|].
  destruct (upsert_sequence [([recap_v1], 100%Z); ([recap_v1; recap_v2], 200%Z)]
              "pg://db" (demo_genai "key") "models/text-embedding-004" 768
              empty_store) as [db'|e] eqn:Hseq; [|vm_compute in Hseq; discriminate].
  exists db'. split; [reflexivity|].
  destruct (repeated_upsert_one_row "pg://db" (demo_genai "key")
              "models/text-embedding-004" 768 [([recap_v1], 100%Z)] [recap_v1]
              [] recap_v2 200%Z empty_store db' Hpk (fun it (H : In it []) => match H with end)
              Hseq) as [embedding [created_at [_ [Hrow _]]]].
  exists embedding, created_at. exact Hrow.
Defined.

Example upsert_demo :
  match upsert_sequence [([recap_v1], 100%Z); ([recap_v1; recap_v2], 200%Z)]
          "pg://db" (demo_genai "key") "models/text-embedding-004" 768
          empty_store with
  | Ok db' =>
      map (fun r => (RoadmapRow.id r, RoadmapRow.title r, RoadmapRow.products r,
                     RoadmapRow.created_at r, RoadmapRow.updated_at r))
          (roadmap_items db')
      = [(7%Z, "Intelligent recap", Some "Teams,Copilot", Some 100%Z, Some 200%Z)]
  | Raise _ => False
  end.
Proof. vm_compute. reflexivity. Qed.

(** ** Nearest-first ordering *)

Lemma dist_le_total (a b : option Q) :
  Pgvector.dist_le a b = false -> Pgvector.dist_le b a = true.
Proof.
  destruct a as [x|], b as [y|]; simpl; try (intros; congruence).
  intros H. apply Qle_bool_iff.
  destruct (Qlt_le_dec y x) as [Hlt|Hle].
  - apply Qlt_le_weak. exact Hlt.
  - apply Qle_bool_iff in Hle. congruence.
Qed.

Lemma dist_le_trans (a b c : option Q) :
  Pgvector.dist_le a b = true -> Pgvector.dist_le b c = true ->
  Pgvector.dist_le a c = true.
Proof.
  destruct a as [x|], b as [y|], c as [z|]; simpl; try (intros; congruence).
  rewrite !Qle_bool_iff. apply Qle_trans.
Qed.

Section OrderFacts.
Variable cosine_distance : vector -> vector -> Q.
Variable q : vector.

Local Abbreviation dist := (Pgvector.distance cosine_distance q).
Local Abbreviation insert := (Pgvector.insert_by_distance cosine_distance q).
Local Abbreviation order := (Pgvector.order_by_distance cosine_distance q).

Local Abbreviation nearer := (Pgvector.nearer cosine_distance q).

Lemma insert_perm (r : RoadmapRow.t) (l : list RoadmapRow.t) :
  Permutation (r :: l) (insert r l).
Proof.
  induction l as [|r' l IH]; simpl; [reflexivity|].
  destruct (Pgvector.dist_le (dist r) (dist r')); [reflexivity|].
  rewrite perm_swap. apply perm_skip. exact IH.
Qed.

Lemma order_perm (rows : list RoadmapRow.t) : Permutation rows (order rows).
Proof.
  induction rows as [|r rows IH]; simpl; [reflexivity|].
  rewrite <- insert_perm. apply perm_skip. exact IH.
Qed.

Lemma insert_hd (r a : RoadmapRow.t) (l : list RoadmapRow.t) :
  nearer a r -> HdRel nearer a l -> HdRel nearer a (insert r l).
Proof.
  intros Har Hl. destruct l as [|r' l]; simpl.
  - constructor. exact Har.
  - destruct (Pgvector.dist_le (dist r) (dist r')); constructor.
    + exact Har.
    + apply HdRel_inv in Hl. exact Hl.
Qed.

Lemma insert_sorted (r : RoadmapRow.t) (l : list RoadmapRow.t) :
  Sorted nearer l -> Sorted nearer (insert r l).
Proof.
  induction 1 as [|a l Hs IH Hhd]; simpl.
  - repeat constructor.
  - destruct (Pgvector.dist_le (dist r) (dist a)) eqn:E.
    + constructor; [constructor; assumption|]. constructor. exact E.
    + constructor; [exact IH|]. apply insert_hd; [|exact Hhd].
      apply dist_le_total. exact E.
Qed.

Lemma order_sorted (rows : list RoadmapRow.t) : StronglySorted nearer (order rows).
Proof.
  apply Sorted_StronglySorted.
  - intros a b c. apply dist_le_trans.
  - induction rows as [|r rows IH]; simpl; [constructor|].
    apply insert_sorted. exact IH.
Qed.

Lemma take_sorted (n : nat) (l : list RoadmapRow.t) :
  StronglySorted nearer l -> StronglySorted nearer (take n l).
Proof.
  intros H. revert n. induction H as [|a l Hs IH Hall]; intros [|n]; simpl;
    try constructor.
  - apply IH.
  - rewrite List.Forall_forall in *. intros x Hx. apply Hall.
    rewrite <- (take_drop n l). apply in_or_app. left. exact Hx.
Qed.

(** Rows that all have a distance are sorted by it as rationals. *)
Lemma sorted_distances (rows : list RoadmapRow.t) : forall ds,
  StronglySorted nearer rows -> map dist rows = map Some ds ->
  StronglySorted Qle ds.
Proof.
  induction rows as [|r rows IH]; intros [|d ds] Hs Hd; simpl in Hd;
    try discriminate; [constructor|].
  injection Hd as Hr Hd. apply StronglySorted_inv in Hs as [Hs Hall].
  constructor; [apply IH; assumption|].
  rewrite List.Forall_forall in *. intros d' Hd'.
  assert (Hin : In (Some d') (map dist rows)) by (rewrite Hd; apply in_map; exact Hd').
  apply in_map_iff in Hin as [r' [Hr' Hin]].
  specialize (Hall r' Hin). unfold Pgvector.nearer in Hall. rewrite Hr, Hr' in Hall.
  apply Qle_bool_iff. exact Hall.
Qed.

End OrderFacts.

(** ** The search tool *)

Section SearchFacts.
Variable GOOGLE_API_KEY : option string.
Variable client : genai_client.
Variable cosine_distance : vector -> vector -> Q.

Lemma entries_of_rows (q : vector) (rows : list RoadmapRow.t) : forall results,
  Database.mapM (DbMcp.entry_of_row cosine_distance q) rows = Ok results ->
  exists ds,
    map (Pgvector.distance cosine_distance q) rows = map Some ds
    /\ map DbMcp.id results = map RoadmapRow.id rows
    /\ map DbMcp.relevance results = map (fun d => (1 - d)%Q) ds.
Proof.
  induction rows as [|r rows IH]; simpl; intros results H.
  - injection H as <-. exists []. auto.
  - unfold DbMcp.entry_of_row in H at 1.
    destruct (Pgvector.distance cosine_distance q r) as [d|]; [|discriminate].
    simpl in H.
    destruct (Database.mapM _ rows) as [rest|e]; [|discriminate].
    simpl in H. injection H as <-.
    destruct (IH rest eq_refl) as [ds [Hd [Hi Hr]]].
    exists (d :: ds). simpl. rewrite Hd, Hi, Hr. auto.
Qed.

Lemma entries_fail (q : vector) (rows : list RoadmapRow.t) (e : exn) :
  Database.mapM (DbMcp.entry_of_row cosine_distance q) rows = Raise e ->
  exists row, In row rows /\ RoadmapRow.embedding row = None.
Proof.
  induction rows as [|r rows IH]; simpl; intros H; [discriminate|].
  destruct (RoadmapRow.embedding r) as [v|] eqn:Hr; [|eauto].
  unfold DbMcp.entry_of_row in H at 1. unfold Pgvector.distance in H at 1.
  rewrite Hr in H. simpl in H.
  destruct (Database.mapM _ rows) as [rest|e']; [discriminate|].
  injection H as <-.
  destruct (IH eq_refl) as [row [Hin Hrow]]. eauto.
Qed.

Lemma entries_ok (q : vector) (rows : list RoadmapRow.t) :
  Forall (fun row => RoadmapRow.embedding row <> None) rows ->
  exists results,
    Database.mapM (DbMcp.entry_of_row cosine_distance q) rows = Ok results.
Proof.
  induction 1 as [|r rows Hr _ [results IH]]; simpl; [eauto|].
  unfold DbMcp.entry_of_row at 1. unfold Pgvector.distance at 1.
  destruct (RoadmapRow.embedding r) as [v|]; [|contradiction].
  simpl. rewrite IH. simpl. eauto.
Qed.

Lemma limit_positive {A} (k : Z) (rows : list A) :
  (0 < k)%Z -> Pgvector.limit k rows = Ok (take (Z.to_nat k) rows).
Proof.
  intros Hk. unfold Pgvector.limit.
  destruct (Z.ltb_spec k 0); [lia|reflexivity].
Qed.

Lemma length_take_limit {A} (k : Z) (rows : list A) :
  (0 < k)%Z -> (Z.of_nat (length (take (Z.to_nat k) rows)) <= k)%Z.
Proof. intros Hk. rewrite length_take. lia. Qed.
End SearchFacts.

(** C1. For every query and every positive [k] the search tool answers in
    one of three ways.  When it returns results, there are at most [k] of
    them; they are the first rows of the table in ascending order of the
    cosine distance between the stored embedding and the embedding of the
    query, so their distances are non-decreasing; and each reports as
    relevance one minus its distance.  It reports no match only on an
    empty table, and an error only when the query could not be embedded or
    a selected row has no embedding. *)
Theorem search_nearest_first (GOOGLE_API_KEY : option string)
    (client : genai_client) (cosine_distance : vector -> vector -> Q)
    (query : string) (k : Z) (db : store) :
  (0 < k)%Z ->
  match DbMcp.search_roadmap GOOGLE_API_KEY client cosine_distance query k db with
  | DbMcp.Results results =>
      exists q ds,
        DbMcp.get_query_embedding GOOGLE_API_KEY client query = Ok q
        /\ let rows :=
             take (Z.to_nat k)
               (Pgvector.order_by_distance cosine_distance q (roadmap_items db)) in
           (Z.of_nat (length results) <= k)%Z
           /\ map DbMcp.id results = map RoadmapRow.id rows
           /\ map (Pgvector.distance cosine_distance q) rows = map Some ds
           /\ StronglySorted Qle ds
           /\ map DbMcp.relevance results = map (fun d => (1 - d)%Q) ds
  | DbMcp.NoMatch =>
      is_ok (DbMcp.get_query_embedding GOOGLE_API_KEY client query) = true
      /\ roadmap_items db = []
  | DbMcp.Failure e =>
      DbMcp.get_query_embedding GOOGLE_API_KEY client query = Raise e
      \/ exists row, In row (roadmap_items db) /\ RoadmapRow.embedding row = None
  end.
Proof.
  intros Hk. unfold DbMcp.search_roadmap, DbMcp.select_rows.
  destruct (DbMcp.get_query_embedding GOOGLE_API_KEY client query) as [q|e];
    simpl; [|left; reflexivity].
  rewrite limit_positive by exact Hk. simpl.
  set (sorted := Pgvector.order_by_distance cosine_distance q (roadmap_items db)).
  destruct (take (Z.to_nat k) sorted) as [|r rows] eqn:Htake.
  - split; [reflexivity|].
    assert (Hs : sorted = []).
    { destruct sorted as [|a l]; [reflexivity|].
      destruct (Z.to_nat k) eqn:Hn; [lia|discriminate]. }
    apply Permutation_nil. rewrite <- Hs. symmetry. apply order_perm.
  - destruct (Database.mapM (DbMcp.entry_of_row cosine_distance q) (r :: rows))
      as [results|e] eqn:Hm; simpl.
    + destruct (entries_of_rows cosine_distance q (r :: rows) results Hm)
        as [ds [Hd [Hi Hr]]].
      exists q, ds. split; [reflexivity|]. cbv zeta. fold sorted. rewrite Htake.
      split; [|split; [exact Hi | split; [exact Hd | split; [|exact Hr]]]].
      * assert (Hlen : length results = length (r :: rows))
          by (rewrite <- (length_map DbMcp.id), Hi, length_map; reflexivity).
        rewrite Hlen, <- Htake. apply length_take_limit. exact Hk.
      * apply (sorted_distances cosine_distance q (r :: rows)); [|exact Hd].
        rewrite <- Htake. apply take_sorted. apply order_sorted.
    + right. destruct (entries_fail cosine_distance q (r :: rows) e Hm)
        as [row [Hin Hrow]].
      exists row. split; [|exact Hrow].
      apply (Permutation_in row (Permutation_sym (order_perm cosine_distance q
                                                    (roadmap_items db)))).
      fold sorted. rewrite <- (take_drop (Z.to_nat k) sorted), Htake.
      apply in_or_app. left. exact Hin.
Qed.

(** The tool does return results: with an API key, an answering provider
    and embeddings on all rows of a non-empty table. *)
Lemma search_returns_results (key : string) (client : genai_client)
    (cosine_distance : vector -> vector -> Q) (query : string) (k : Z)
    (db : store) :
  key <> EmptyString ->
  (forall request, exists e rest, client request = Ok (e :: rest)) ->
  Forall (fun row => RoadmapRow.embedding row <> None) (roadmap_items db) ->
  roadmap_items db <> [] -> (0 < k)%Z ->
  exists results,
    DbMcp.search_roadmap (Some key) client cosine_distance query k db
    = DbMcp.Results results.
Proof.
  intros Hkey Hclient Hemb Hne Hk.
  unfold DbMcp.search_roadmap, DbMcp.select_rows, DbMcp.get_query_embedding.
  destruct key as [|c key]; [contradiction|].
  destruct (Hclient (mk_embed_request DbMcp.EMBEDDING_MODEL query
                       "RETRIEVAL_QUERY" DbMcp.EMBEDDING_DIMENSIONS))
    as [q [rest ->]].
  simpl. rewrite limit_positive by exact Hk. simpl.
  set (sorted := Pgvector.order_by_distance cosine_distance q (roadmap_items db)).
  assert (Hperm : Permutation (roadmap_items db) sorted) by apply order_perm.
  assert (Hall : Forall (fun row => RoadmapRow.embedding row <> None)
                   (take (Z.to_nat k) sorted)).
  { rewrite List.Forall_forall in *. intros row Hin. apply Hemb.
    apply (Permutation_in row (Permutation_sym Hperm)).
    rewrite <- (take_drop (Z.to_nat k) sorted). apply in_or_app. left. exact Hin. }
  destruct (entries_ok cosine_distance q _ Hall) as [results Hres].
  destruct (take (Z.to_nat k) sorted) as [|r rows] eqn:Htake.
  - exfalso. destruct sorted as [|a l].
    + apply Hne. apply Permutation_nil. symmetry. exact Hperm.
    + destruct (Z.to_nat k) eqn:Hn; [lia|discriminate].
  - rewrite Hres. simpl. eauto.
Qed.

Example search_demo :
  DbMcp.search_roadmap (Some "key") east_client unit_distance "teams" 2
    compass_store
  = DbMcp.Results
      [DbMcp.mk_entry 12 "Teams recap" (Some "Rolling out") None (Some "Teams")
         (Some "Web,Desktop") (Some "About it") (1 - (1 - (1 * 1 + (0 * 0 + 0))))%Q;
       DbMcp.mk_entry 13 "Planner in Teams" (Some "Rolling out") None
         (Some "Planner,Teams") (Some "Mobile") (Some "About it")
         (1 - (1 - ((3 # 5) * 1 + ((4 # 5) * 0 + 0))))%Q].
Proof. vm_compute. reflexivity. Qed.

Lemma search_nearest_first_witness :
  (0 < 2)%Z
  /\ exists results,
       DbMcp.search_roadmap (Some "key") east_client unit_distance "teams" 2
         compass_store = DbMcp.Results results
       /\ (Z.of_nat (length results) <= 2)%Z
       /\ map DbMcp.id results = [12; 13]%Z.
Proof.
  assert (Hk : (0 < 2)%Z) by lia.
  split; [exact Hk|].
  pose proof (search_nearest_first (Some "key") east_client unit_distance
                "teams" 2 compass_store Hk) as H.
  destruct (DbMcp.search_roadmap (Some "key") east_client unit_distance "teams"
              2 compass_store) as [|results|e] eqn:E;
    [vm_compute in E; discriminate | | vm_compute in E; discriminate].
  exists results. split; [reflexivity|].
  destruct H as [q [ds [Hq [Hlen [Hid _]]]]].
  split; [exact Hlen|]. rewrite Hid.
  vm_compute in Hq. injection Hq as <-. vm_compute. reflexivity.
Defined.

(** ** LIKE patterns and substrings *)

Lemma like_percent (pat s : list ascii) :
  Sql.like ("%"%char :: pat) s
  = Sql.like pat s
    || match s with [] => false | _ :: s' => Sql.like ("%"%char :: pat) s' end.
Proof. destruct s; reflexivity. Qed.

Lemma like_any (pat s : list ascii) :
  Sql.like ("%"%char :: pat) s = true
  <-> exists a b, s = (a ++ b)%list /\ Sql.like pat b = true.
Proof.
  induction s as [|d s IH]; rewrite like_percent.
  - rewrite orb_false_r. split.
    + intros H. exists [], []. auto.
    + intros [a [b [Hs Hb]]]. symmetry in Hs. apply app_eq_nil in Hs as [-> ->].
      exact Hb.
  - rewrite orb_true_iff, IH. split.
    + intros [H|[a [b [-> Hb]]]].
      * exists [], (d :: s). auto.
      * exists (d :: a), b. auto.
    + intros [[|x a] [b [Hs Hb]]]; simpl in Hs.
      * left. rewrite Hs. exact Hb.
      * injection Hs as -> ->. right. eauto.
Qed.

Lemma like_plain_cons (c : ascii) (pat s : list ascii) :
  metachar c = false ->
  Sql.like (c :: pat) s
  = match s with [] => false | d :: s' => Ascii.eqb c d && Sql.like pat s' end.
Proof.
  unfold metachar. intros H.
  apply orb_false_iff in H as [H H3]. apply orb_false_iff in H as [H1 H2].
  simpl. rewrite H1, H2, H3. reflexivity.
Qed.

Lemma like_everything (s : list ascii) : Sql.like ["%"%char] s = true.
Proof.
  induction s as [|d s IH]; rewrite like_percent; [reflexivity|].
  rewrite IH. apply orb_true_r.
Qed.

Lemma like_prefix (p : list ascii) : plain p -> forall s,
  Sql.like (p ++ ["%"%char]) s = true <-> exists b, s = (p ++ b)%list.
Proof.
  unfold plain. induction p as [|c p IH]; simpl; intros Hp s.
  - split; [eauto | intros _; apply like_everything].
  - apply andb_true_iff in Hp as [Hc Hp]. apply negb_true_iff in Hc.
    change (Sql.like (c :: (p ++ ["%"%char])) s = true
            <-> exists b, s = c :: (p ++ b)%list).
    rewrite (like_plain_cons c _ s Hc). destruct s as [|d s].
    + split; [discriminate | intros [b Hb]; discriminate].
    + rewrite andb_true_iff, (IH Hp s). split.
      * intros [Hcd [b ->]]. apply Ascii.eqb_eq in Hcd. subst d. eauto.
      * intros [b Hb]. injection Hb as -> ->. split; [apply Ascii.eqb_refl|eauto].
Qed.

(** Between two [%], a term free of metacharacters is looked for as a
    substring. *)
Lemma like_contains (p s : list ascii) :
  plain p ->
  Sql.like ("%"%char :: p ++ ["%"%char]) s = true
  <-> exists a b, s = (a ++ p ++ b)%list.
Proof.
  intros Hp. rewrite like_any. split.
  - intros [a [b [-> Hb]]]. apply (like_prefix p Hp) in Hb as [b' ->]. eauto.
  - intros [a [b ->]]. exists a, (p ++ b)%list. split; [reflexivity|].
    apply (like_prefix p Hp). eauto.
Qed.

Lemma metachar_to_lower (c : ascii) : metachar (Sql.to_lower c) = metachar c.
Proof. destruct c as [[] [] [] [] [] [] [] []]; reflexivity. Qed.

Lemma plain_lower (p : list ascii) : plain p -> plain (Sql.lower p).
Proof.
  unfold plain, Sql.lower. induction p as [|c p IH]; simpl; [auto|].
  rewrite !andb_true_iff, metachar_to_lower. intros [Hc Hp]. auto.
Qed.

Lemma list_ascii_of_string_app (a b : string) :
  list_ascii_of_string (a +:+ b)
  = (list_ascii_of_string a ++ list_ascii_of_string b)%list.
Proof. induction a as [|c a IH]; simpl; [reflexivity | now rewrite IH]. Qed.

Lemma ilike_contains (text term : string) :
  plain (list_ascii_of_string term) ->
  Sql.ilike text ("%" +:+ term +:+ "%") = true <-> contains_ci text term.
Proof.
  intros Hp. unfold Sql.ilike, contains_ci.
  change ("%" +:+ term +:+ "%") with (String "%" (term +:+ "%")).
  simpl list_ascii_of_string. rewrite list_ascii_of_string_app.
  unfold Sql.lower at 1. simpl map. rewrite map_app. simpl map.
  change (Sql.to_lower "%") with "%"%char.
  apply like_contains. apply plain_lower. exact Hp.
Qed.


(** ** The filtered search *)

(** [search_roadmap] itself stops before its query: the embedding of the
    query is requested without [embedding_dimensions]. *)
Lemma pipeline_search_raises (cosine_distance : vector -> vector -> Q)
    (query : string) (client : genai_client) (model url : string) (k : Z)
    (filter_products : option (list string)) (db : store) :
  PipelineDatabase.search_roadmap cosine_distance query client model url k
    filter_products db
  = Raise (TypeError
      "get_query_embedding() missing 1 required positional argument: 'embedding_dimensions'").
Proof. reflexivity. Qed.




Example filtered_search_demo :
  PipelineDatabase.select_nearest unit_distance [1%Q; 0%Q] (Some ["teams"; "viva"])
    2 (roadmap_items compass_store) = Ok [row_east; row_between]
  /\ PipelineDatabase.select_nearest unit_distance [1%Q; 0%Q] (Some ["VIVA"])
       2 (roadmap_items compass_store) = Ok [row_north]
  /\ PipelineDatabase.select_nearest unit_distance [1%Q; 0%Q] (Some ["mobile"])
       2 (roadmap_items compass_store) = Ok []
  /\ PipelineDatabase.select_nearest unit_distance [1%Q; 0%Q] (Some [])
       2 (roadmap_items compass_store) = Ok [row_east; row_between].
Proof. vm_compute. repeat split. Qed.


(** ** Remarks on the incremental filter *)

(** An empty or null [modified] counts as absent: the loop then reads
    [created]. *)
Lemma empty_modified_falls_back (fromisoformat : string -> option Datetime.t)
    (since : Datetime.t) (item : RawItem.t) (str : string) :
  RawItem.modified item = Some (VStr EmptyString)
  \/ RawItem.modified item = Some VNone ->
  RawItem.created item = Some (VStr str) -> str <> EmptyString ->
  Ingestion.is_new fromisoformat since item
  = Ok match fromisoformat (Datetime.replace_Z str) with
       | Some modified => (Datetime.wall since <? Datetime.wall modified)%Z
       | None => true
       end.
Proof.
  intros Hm Hc Hne.
  rewrite <- (is_new_timestamp fromisoformat since
                (RawItem.mk (RawItem.id item) (RawItem.title item)
                   (RawItem.description item) (RawItem.status item)
                   (RawItem.publicDisclosureAvailabilityDate item) None
                   (RawItem.created item) (RawItem.tagsContainer item)) str);
    [| exact Hc | exact Hne].
  unfold Ingestion.is_new, Ingestion.modified_str. simpl.
  destruct Hm as [-> | ->]; reflexivity.
Qed.

(** The offset of a timestamp is dropped, not applied: half past noon at
    +05:00 is kept against a watermark of noon. *)
Example offset_dropped :
  Ingestion.filter_new_items Iso.fromisoformat
    [raw 6 (Some (VStr "2024-06-01T12:30:00+05:00")) None] (Some noon)
  = Ok [raw 6 (Some (VStr "2024-06-01T12:30:00+05:00")) None].
Proof. vm_compute. reflexivity. Qed.

(** Without a watermark every item is kept, whatever its fields. *)
Lemma full_sync_keeps_all (fromisoformat : string -> option Datetime.t)
    (raw_items : list RawItem.t) :
  Ingestion.filter_new_items fromisoformat raw_items None = Ok raw_items.
Proof. reflexivity. Qed.

(** ** The unfiltered query of the retrieval engine *)

(** Without filter terms the statement of [search_roadmap] returns the
    first [n_results] rows of the whole table, nearest first. *)
Lemma select_nearest_unfiltered (cosine_distance : vector -> vector -> Q)
    (query_embedding : vector) (n_results : Z) (rows : list RoadmapRow.t) :
  (0 <= n_results)%Z ->
  exists out,
    PipelineDatabase.select_nearest cosine_distance query_embedding None
      n_results rows = Ok out
    /\ (Z.of_nat (length out) <= n_results)%Z
    /\ StronglySorted (Pgvector.nearer cosine_distance query_embedding) out
    /\ (forall r, In r out -> In r rows).
Proof.
  intros Hk. unfold PipelineDatabase.select_nearest, Pgvector.limit.
  destruct (Z.ltb_spec n_results 0); [lia|].
  eexists. split; [reflexivity|]. split; [rewrite length_take; lia|].
  split; [apply take_sorted, order_sorted|].
  intros r Hr.
  apply (Permutation_in r (Permutation_sym (order_perm cosine_distance
                                              query_embedding rows))).
  rewrite <- (take_drop (Z.to_nat n_results)). apply in_or_app. left. exact Hr.
Qed.

(** A negative limit is rejected by the server. *)
Lemma select_nearest_negative (cosine_distance : vector -> vector -> Q)
    (query_embedding : vector) (filter_products : option (list string))
    (n_results : Z) (rows : list RoadmapRow.t) :
  (n_results < 0)%Z ->
  PipelineDatabase.select_nearest cosine_distance query_embedding
    filter_products n_results rows
  = Raise (DataError "LIMIT must not be negative").
Proof.
  intros Hk. unfold PipelineDatabase.select_nearest, Pgvector.limit.
  destruct (Z.ltb_spec n_results 0); [|lia].
  destruct filter_products as [[|p ps]|]; reflexivity.
Qed.

(** * Further properties of the ingestion worker *)

Lemma batches_concat {A} (batch_size : nat) : forall (fuel : nat) (l : list A),
  (0 < batch_size)%nat -> (length l <= fuel)%nat ->
  concat (Ingestion.batches fuel batch_size l) = l.
Proof.
  induction fuel as [|fuel IH]; intros l Hn Hl.
  - destruct l; [reflexivity | simpl in Hl; lia].
  - destruct l as [|a l']; [reflexivity|].
    set (l := a :: l') in *.
    change (take batch_size l
            ++ concat (Ingestion.batches fuel batch_size (drop batch_size l)) = l)%list.
    rewrite IH; [apply take_drop | exact Hn |].
    rewrite length_drop. subst l. simpl length in *. lia.
Qed.

Lemma batches_bounded {A} (batch_size : nat) : forall (fuel : nat) (l : list A),
  (0 < batch_size)%nat ->
  Forall (fun b => b <> [] /\ (length b <= batch_size)%nat)
         (Ingestion.batches fuel batch_size l).
Proof.
  induction fuel as [|fuel IH]; intros l Hn; [constructor|].
  destruct l as [|a l']; [constructor|].
  simpl Ingestion.batches. constructor; [|apply IH; exact Hn].
  split.
  - destruct batch_size; [lia|]. discriminate.
  - rewrite length_take. lia.
Qed.

(** X1. The batches of a run partition the parsed items: joined in order
    they give the list back, and every batch is non-empty and holds at
    most [batch_size] items. *)
Theorem batches_partition {A} (batch_size : nat) (l : list A) :
  (0 < batch_size)%nat ->
  concat (Ingestion.batches (length l) batch_size l) = l
  /\ Forall (fun b => b <> [] /\ (length b <= batch_size)%nat)
            (Ingestion.batches (length l) batch_size l).
Proof.
  intros Hn. split.
  - apply batches_concat; [exact Hn | lia].
  - apply batches_bounded. exact Hn.
Qed.

Lemma batches_partition_witness :
  (0 < 10)%nat
  /\ concat (Ingestion.batches 12 10 (seq 1 12)) = seq 1 12
  /\ map (@length nat) (Ingestion.batches 12 10 (seq 1 12)) = [10; 2]%nat.
Proof.
  assert (H : (0 < 10)%nat) by lia.
  split; [exact H|].
  split; [exact (proj1 (batches_partition 10 (seq 1 12) H)) | reflexivity].
Defined.

Section BatchFacts.
Variable clock : nat -> Z.

(** The batches are committed one after the other; the loop stops at the
    first that raises. *)
Lemma upsert_batches_prefix bs : forall i url client model dims total done db
    r total' done' db',
  Ingestion.upsert_batches clock bs i url client model dims total done db
  = (r, total', done', db') ->
  exists k,
    done' = (done ++ concat (take k bs))%list
    /\ total' = (total + Z.of_nat (length (concat (take k bs))))%Z
    /\ customers db' = customers db
    /\ (is_ok r = true -> (length bs <= k)%nat).
Proof.
  induction bs as [|batch rest IH]; simpl;
    intros i url client model dims total done db r total' done' db' H.
  - injection H as <- <- <- <-. exists 0%nat. simpl.
    rewrite app_nil_r.
    split; [reflexivity | split; [lia | split; [reflexivity | intros _; lia]]].
  - destruct (PipelineDatabase.upsert_roadmap_items batch url client model dims
                (clock i) db) as [[count|e] db1] eqn:Hu.
    + apply upsert_roadmap_items_ok in Hu as [Hloop Hc].
      apply upsert_loop_count in Hloop.
      apply IH in H as [k [Hd [Ht [Hcust Hk]]]].
      exists (S k). simpl. rewrite Hd, Ht, Hcust, Hc, Hloop.
      rewrite <- app_assoc, length_app.
      split; [reflexivity | split; [lia | split; [reflexivity|]]].
      intros Hr. specialize (Hk Hr). lia.
    + apply upsert_roadmap_items_raise in Hu. subst db1.
      injection H as <- <- <- <-. exists 0%nat. simpl.
      rewrite app_nil_r.
      split; [reflexivity | split; [lia | split; [reflexivity | discriminate]]].
Qed.

End BatchFacts.

(** X2. Every run, whether it ends normally or with an exception, has
    upserted whole leading batches of the parsed items and nothing else;
    its running total is the number of those items, and it leaves the
    customers table as it was. *)
Theorem run_commits_whole_batches (fromisoformat : string -> option Datetime.t)
    (genai : string -> genai_client) (http_get : string -> feed)
    (clock : nat -> Z) (url key model api_url : string) (full_sync : bool)
    (dims : Z) (db : store) :
  let (r, db') := Ingestion.run_ingestion fromisoformat genai http_get clock
                    url key full_sync model dims api_url db in
  let parsed := map Ingestion.parse_roadmap_item (Ingestion.processed r) in
  (exists k,
     Ingestion.upserted r
     = concat (take k (Ingestion.batches (length parsed) 10 parsed)))
  /\ Ingestion.total_ingested r = Z.of_nat (length (Ingestion.upserted r))
  /\ customers db' = customers db.
Proof.
  unfold Ingestion.run_ingestion. simpl.
  destruct (Ingestion.get_genai_client genai key) as [client|e];
    [|simpl; repeat split; auto; exists 0%nat; reflexivity].
  destruct (Ingestion.fetch_roadmap_items http_get api_url) as [|a data];
    [simpl; repeat split; auto; exists 0%nat; reflexivity|].
  destruct (Ingestion.filter_new_items fromisoformat (a :: data) _)
    as [[|b out]|e];
    try (simpl; repeat split; auto; exists 0%nat; reflexivity).
  destruct (Ingestion.upsert_batches _ _ _ _ _ _ _ _ _ _)
    as [[[r total] done] db'] eqn:Hu.
  apply upsert_batches_prefix in Hu as [k [Hd [Ht [Hc _]]]].
  simpl in Hd, Ht.
  destruct r as [[]|e]; simpl; (split; [exists k; exact Hd|]);
    rewrite Hd, Ht; auto.
Qed.



(** X4. Whatever the incremental filter returns is a sub-list of the feed:
    the items kept stay in feed order, none is repeated or invented, and
    without a watermark the feed is returned whole. *)
Theorem filter_keeps_feed_order (fromisoformat : string -> option Datetime.t)
    (raw_items out : list RawItem.t) (since : option Datetime.t) :
  Ingestion.filter_new_items fromisoformat raw_items since = Ok out ->
  sublist out raw_items
  /\ (length out <= length raw_items)%nat
  /\ (since = None -> out = raw_items).
Proof.
  intros H.
  assert (Hsub : sublist out raw_items).
  { destruct since as [since|]; simpl in H; [|injection H as <-; reflexivity].
    revert out H. induction raw_items as [|a l IH]; simpl; intros out H.
    - injection H as <-. constructor.
    - destruct (Ingestion.is_new fromisoformat since a) as [keep|e];
        [|discriminate]. simpl in H.
      destruct (Ingestion.filter_loop fromisoformat since l) as [new_items|e];
        [|discriminate]. simpl in H. injection H as <-.
      specialize (IH new_items eq_refl).
      destruct keep; [apply sublist_skip | apply sublist_cons]; exact IH. }
  split; [exact Hsub|]. split; [apply sublist_length; exact Hsub|].
  intros ->. simpl in H. congruence.
Qed.

Lemma filter_keeps_feed_order_witness :
  Ingestion.filter_new_items Iso.fromisoformat demo_feed (Some noon)
  = Ok [item_after; item_garbled; item_created]
  /\ sublist [item_after; item_garbled; item_created] demo_feed.
Proof.
  assert (H : Ingestion.filter_new_items Iso.fromisoformat demo_feed (Some noon)
              = Ok [item_after; item_garbled; item_created])
    by (vm_compute; reflexivity).
  split; [exact H|].
  exact (proj1 (filter_keeps_feed_order Iso.fromisoformat demo_feed _ _ H)).
Defined.

(** ** The watermark *)

Lemma max_opt_bound (now : Z) (l : list (option Z)) :
  (forall v, In (Some v) l -> (v <= now)%Z) ->
  forall v, foldr Ingestion.max_opt None l = Some v -> (v <= now)%Z.
Proof.
  induction l as [|w l IH]; simpl; intros Hl v Hv; [discriminate|].
  assert (Hrest : forall y, foldr Ingestion.max_opt None l = Some y -> (y <= now)%Z)
    by (apply IH; intros y Hy; apply Hl; right; exact Hy).
  destruct w as [x|], (foldr Ingestion.max_opt None l) as [y|];
    simpl in Hv; try discriminate; injection Hv as <-.
  - assert (x <= now)%Z by (apply Hl; left; reflexivity).
    specialize (Hrest y eq_refl). lia.
  - apply Hl. left. reflexivity.
  - apply Hrest. reflexivity.
Qed.

Lemma max_opt_fold (now : Z) (l : list (option Z)) :
  In (Some now) l ->
  (forall v, In (Some v) l -> (v <= now)%Z) ->
  foldr Ingestion.max_opt None l = Some now.
Proof.
  induction l as [|u l IH]; simpl; [tauto|].
  intros Hin Hle.
  pose proof (max_opt_bound now l (fun v H => Hle v (or_intror H))) as Hrest.
  destruct Hin as [->|Hin].
  - destruct (foldr Ingestion.max_opt None l) as [y|] eqn:E; simpl; [|reflexivity].
    specialize (Hrest y eq_refl). f_equal. lia.
  - rewrite IH; [|exact Hin | intros v Hv; apply Hle; right; exact Hv].
    destruct u as [x|]; simpl; [|reflexivity].
    assert (x <= now)%Z by (apply Hle; left; reflexivity). f_equal. lia.
Qed.

Lemma insert_on_conflict_updated (item : RoadmapItem.t) (e : vector) (now : Z)
    (rows : list RoadmapRow.t) (u : option Z) :
  In u (map RoadmapRow.updated_at
          (PipelineDatabase.insert_on_conflict
             (PipelineDatabase.row_of_item item
                (PipelineDatabase.build_document item) e now) rows)) ->
  u = Some now \/ In u (map RoadmapRow.updated_at rows).
Proof.
  induction rows as [|r rows IH]; simpl.
  - intros [<-|[]]. left. reflexivity.
  - destruct (RoadmapRow.id r =? RoadmapItem.id item)%Z; simpl.
    + intros [<-|H]; auto.
    + intros [<-|H]; auto. apply IH in H. tauto.
Qed.

Lemma insert_on_conflict_stamps (item : RoadmapItem.t) (e : vector) (now : Z)
    (rows : list RoadmapRow.t) :
  In (Some now)
     (map RoadmapRow.updated_at
        (PipelineDatabase.insert_on_conflict
           (PipelineDatabase.row_of_item item
              (PipelineDatabase.build_document item) e now) rows)).
Proof.
  induction rows as [|r rows IH]; simpl; [auto|].
  destruct (RoadmapRow.id r =? RoadmapItem.id item)%Z; simpl; auto.
Qed.

Section StampFacts.
Variable client : genai_client.
Variable embedding_model : string.
Variable embedding_dimensions : Z.
Variable now : Z.

Lemma upsert_loop_updated items : forall rows count rows' count' u,
  PipelineDatabase.upsert_loop items client embedding_model
    embedding_dimensions now rows count = Ok (rows', count') ->
  In u (map RoadmapRow.updated_at rows') ->
  u = Some now \/ In u (map RoadmapRow.updated_at rows).
Proof.
  induction items as [|item rest IH]; intros rows count rows' count' u H Hu.
  - simpl in H. injection H as <- _. auto.
  - apply upsert_loop_step in H as [e [_ H]].
    destruct (IH _ _ _ _ u H Hu) as [->|Hin]; [auto|].
    apply insert_on_conflict_updated in Hin. exact Hin.
Qed.

Lemma upsert_loop_stamps items : forall rows count rows' count',
  PipelineDatabase.upsert_loop items client embedding_model
    embedding_dimensions now rows count = Ok (rows', count') ->
  items <> [] \/ In (Some now) (map RoadmapRow.updated_at rows) ->
  In (Some now) (map RoadmapRow.updated_at rows').
Proof.
  induction items as [|item rest IH]; intros rows count rows' count' H Hor.
  - simpl in H. injection H as <- _. destruct Hor as [Hne|Hin]; [congruence|exact Hin].
  - apply upsert_loop_step in H as [e [_ H]].
    apply (IH _ _ _ _ H). right. apply insert_on_conflict_stamps.
Qed.
End StampFacts.

(** X5. After a call of [upsert_roadmap_items] with at least one item has
    returned, at a server time not before any stored [updated_at], the
    watermark read by [get_last_ingestion_time] is that server time, as a
    naive timestamp. *)
Theorem watermark_after_upsert (items : list RoadmapItem.t)
    (url : string) (client : genai_client) (model : string) (dims now : Z)
    (db db' : store) (count : Z) :
  items <> [] ->
  (forall v, In (Some v) (map RoadmapRow.updated_at (roadmap_items db)) ->
             (v <= now)%Z) ->
  PipelineDatabase.upsert_roadmap_items items url client model dims now db
  = (Ok count, db') ->
  Ingestion.get_last_ingestion_time url db' = Some (Datetime.mk now None).
Proof.
  intros Hne Hold Hu. apply upsert_roadmap_items_ok in Hu as [Hloop _].
  unfold Ingestion.get_last_ingestion_time.
  rewrite (max_opt_fold now); [reflexivity | |].
  - eapply upsert_loop_stamps; [exact Hloop | left; exact Hne].
  - intros v Hv.
    destruct (upsert_loop_updated _ _ _ _ _ _ _ _ _ _ Hloop Hv) as [E|Hin].
    + injection E as ->. lia.
    + apply Hold. exact Hin.
Qed.

Lemma watermark_after_upsert_witness :
  exists db',
    PipelineDatabase.upsert_roadmap_items [recap_v1] "pg://db" (demo_genai "key")
      "models/text-embedding-004" 768 1717329600000000 demo_store
    = (Ok 1%Z, db')
    /\ Ingestion.get_last_ingestion_time "pg://db" db'
       = Some (Datetime.mk 1717329600000000 None).
Proof.
  destruct (PipelineDatabase.upsert_roadmap_items [recap_v1] "pg://db"
              (demo_genai "key") "models/text-embedding-004" 768
              1717329600000000 demo_store) as [res db'] eqn:Hu.
  assert (res = Ok 1%Z) as -> by (vm_compute in Hu; congruence).
  exists db'. split; [reflexivity|].
  apply (watermark_after_upsert [recap_v1] "pg://db" (demo_genai "key")
           "models/text-embedding-004" 768 1717329600000000 demo_store db' 1);
    [discriminate | | exact Hu].
  intros v [Hv|[]]. injection Hv as <-. lia.
Defined.

(** X6. Raw items without an [id] are all parsed to id 0: when two of them
    are upserted in one call, the table ends with a single row of id 0, and
    it holds the fields of the later item. *)
Theorem missing_ids_collide (first second : RawItem.t) (url : string)
    (client : genai_client) (model : string) (dims now : Z) (db db' : store)
    (count : Z) :
  RawItem.id first = None -> RawItem.id second = None ->
  roadmap_pk db ->
  PipelineDatabase.upsert_roadmap_items
    [Ingestion.parse_roadmap_item first; Ingestion.parse_roadmap_item second]
    url client model dims now db = (Ok count, db') ->
  count = 2%Z
  /\ exists embedding created_at,
       rows_with_id 0 (roadmap_items db')
       = [upserted_row (Ingestion.parse_roadmap_item second) embedding
            created_at now].
Proof.
  intros H1 H2 Hpk Hu. apply upsert_roadmap_items_ok in Hu as [Hloop _].
  split; [apply upsert_loop_count in Hloop; simpl in Hloop; lia|].
  destruct (upsert_loop_last client model dims now
              [Ingestion.parse_roadmap_item first]
              (Ingestion.parse_roadmap_item second) [] _ _ _ _ Hpk
              (fun it (H : In it []) => match H with end) Hloop)
    as [e [c [_ Hrow]]].
  exists e, c. unfold Ingestion.parse_roadmap_item in Hrow at 1.
  simpl RoadmapItem.id in Hrow. rewrite H2 in Hrow. exact Hrow.
Qed.

Lemma missing_ids_collide_witness :
  exists db',
    PipelineDatabase.upsert_roadmap_items
      [Ingestion.parse_roadmap_item anonymous_first;
       Ingestion.parse_roadmap_item anonymous_second]
      "pg://db" (demo_genai "key") "models/text-embedding-004" 768 5 empty_store
    = (Ok 2%Z, db')
    /\ map RoadmapRow.title (rows_with_id 0 (roadmap_items db')) = ["Second"].
Proof.
  destruct (PipelineDatabase.upsert_roadmap_items
              [Ingestion.parse_roadmap_item anonymous_first;
               Ingestion.parse_roadmap_item anonymous_second]
              "pg://db" (demo_genai "key")
              "models/text-embedding-004" 768 5 empty_store)
    as [res db'] eqn:Hu.
  assert (res = Ok 2%Z) as -> by (vm_compute in Hu; congruence).
  exists db'. split; [reflexivity|].
  destruct (missing_ids_collide anonymous_first anonymous_second "pg://db"
              (demo_genai "key") "models/text-embedding-004" 768 5 empty_store
              db' 2 eq_refl eq_refl (NoDup_nil_2 : roadmap_pk empty_store) Hu)
    as [_ [e [c ->]]].
  reflexivity.
Defined.

(** ** What an upsert leaves alone *)

Lemma upsert_loop_ids client model dims now items : forall rows count rows' count' j,
  PipelineDatabase.upsert_loop items client model dims now rows count
  = Ok (rows', count') ->
  In j (map RoadmapRow.id rows')
  <-> In j (map RoadmapRow.id rows) \/ In j (map RoadmapItem.id items).
Proof.
  induction items as [|item rest IH]; intros rows count rows' count' j H.
  - simpl in H. injection H as <- _. simpl. tauto.
  - apply upsert_loop_step in H as [e [_ H]].
    rewrite (IH _ _ _ _ j H), insert_on_conflict_ids. simpl. intuition.
Qed.

(** X7. A call of [upsert_roadmap_items] that returns keeps the primary
    key, returns the number of items it was given, leaves every row whose
    id is not among the items exactly as it was, removes no id and adds
    only ids of the items; the customers table is untouched. *)
Theorem upsert_frame (items : list RoadmapItem.t) (url : string)
    (client : genai_client) (model : string) (dims now : Z) (db db' : store)
    (count : Z) :
  roadmap_pk db ->
  PipelineDatabase.upsert_roadmap_items items url client model dims now db
  = (Ok count, db') ->
  roadmap_pk db'
  /\ count = Z.of_nat (length items)
  /\ customers db' = customers db
  /\ (forall j, ~ In j (map RoadmapItem.id items) ->
        rows_with_id j (roadmap_items db') = rows_with_id j (roadmap_items db))
  /\ (forall j, In j (map RoadmapRow.id (roadmap_items db'))
                <-> In j (map RoadmapRow.id (roadmap_items db))
                    \/ In j (map RoadmapItem.id items)).
Proof.
  intros Hpk Hu. apply upsert_roadmap_items_ok in Hu as [Hloop Hc].
  split; [eapply upsert_loop_pk; [exact Hpk | exact Hloop]|].
  split; [apply upsert_loop_count in Hloop; lia|].
  split; [exact Hc|]. split.
  - intros j Hj. eapply upsert_loop_other; [|exact Hloop].
    intros it Hit E. apply Hj. rewrite <- E. apply in_map. exact Hit.
  - intros j. eapply upsert_loop_ids. exact Hloop.
Qed.

Lemma upsert_frame_witness :
  roadmap_pk demo_store
  /\ exists db',
       PipelineDatabase.upsert_roadmap_items [recap_v1; recap_v2] "pg://db"
         (demo_genai "key") "models/text-embedding-004" 768 9 demo_store
       = (Ok 2%Z, db')
       /\ rows_with_id 1 (roadmap_items db') = [demo_row].
Proof.
  assert (Hpk : roadmap_pk demo_store) by (repeat constructor; simpl; set_solver).
  split; [exact Hpk|].
  destruct (PipelineDatabase.upsert_roadmap_items [recap_v1; recap_v2] "pg://db"
              (demo_genai "key") "models/text-embedding-004" 768 9 demo_store)
    as [res db'] eqn:Hu.
  assert (res = Ok 2%Z) as -> by (vm_compute in Hu; congruence).
  exists db'. split; [reflexivity|].
  destruct (upsert_frame _ _ _ _ _ _ _ _ _ Hpk Hu) as [_ [_ [_ [Hother _]]]].
  rewrite Hother; [reflexivity|]. simpl. intuition discriminate.
Defined.

(** * Further properties of the customers table *)

Lemma has_id_none (z : Z) (rows : list CustomerRow.t) :
  Forall (fun r => (CustomerRow.id r < z)%Z) rows ->
  List.filter (Database.has_id (Some z)) rows = [].
Proof.
  induction 1 as [|r rows Hr _ IH]; simpl; [reflexivity|].
  rewrite IH. unfold bool_decide. destruct (decide_rel _ _ _); [lia|reflexivity].
Qed.

(** X8. [add_customer] keeps the customers table well formed, whether it
    succeeds or fails: ids stay distinct and below the sequence, names stay
    distinct.  An id is never handed out twice, also after a failed add. *)
Theorem add_customer_keeps_wf (customer : Customer.t) (database_url : option string)
    (now : Z) (db : store) :
  customers_wf db ->
  customers_wf (snd (Database.add_customer customer database_url now db))
  /\ (customers_id_seq db
      <= customers_id_seq (snd (Database.add_customer customer database_url now db)))%Z.
Proof.
  intros [Hids [Hseq Hnames]].
  pose proof (add_customer_keeps_unique customer database_url now db Hnames) as Hu.
  assert (Hlt : Forall (fun r => (CustomerRow.id r <= customers_id_seq db + 1)%Z)
                  (customers db)).
  { eapply List.Forall_impl; [|exact Hseq]. simpl. intros r Hr. lia. }
  split; [split; [|split; [|exact Hu]]|]; clear Hu;
    unfold Database.add_customer;
    (destruct database_url as [url|]; simpl; [|auto; lia]);
    (destruct (Database.name_taken _ _); simpl; [auto; lia|]).
  - rewrite map_app. simpl. apply NoDup_app. split; [exact Hids|].
    split; [|apply NoDup_singleton].
    intros x Hx Hx'. apply list_elem_of_singleton in Hx'. subst x.
    apply list_elem_of_In, in_map_iff in Hx as [r [Hr Hin]].
    rewrite List.Forall_forall in Hseq. specialize (Hseq r Hin). lia.
  - apply Forall_app. split; [exact Hlt|]. constructor; [simpl; lia|constructor].
  - lia.
Qed.

Lemma add_customer_keeps_wf_witness :
  customers_wf empty_store
  /\ customers_wf
       (snd (Database.add_customer contoso (Some "pg://db") 10 empty_store)).
Proof.
  assert (H : customers_wf empty_store)
    by (repeat split; simpl; constructor).
  split; [exact H|].
  exact (proj1 (add_customer_keeps_wf contoso (Some "pg://db") 10 empty_store H)).
Defined.

(** X9. Add then get: on a well-formed table, a customer added under a
    fresh name is returned by [get_customer] for the id the add returned,
    with the field values that were added. *)
Theorem add_then_get (customer : Customer.t) (url : string) (now : Z)
    (db : store) :
  customers_wf db ->
  Database.name_taken (Customer.name customer) (customers db) = false ->
  exists customer_id db',
    Database.add_customer customer (Some url) now db = (Ok customer_id, db')
    /\ Database.get_customer (VInt customer_id) (Some url) db'
       = Ok (Some (Customer.mk (Some customer_id) (Customer.name customer)
                     (Customer.description customer)
                     (Customer.products_used customer)
                     (Customer.priority customer) (Customer.notes customer)
                     (Some now) (Some now))).
Proof.
  intros [_ [Hseq _]] Hfresh.
  unfold Database.add_customer. simpl. rewrite Hfresh.
  eexists. eexists. split; [reflexivity|].
  unfold Database.get_customer. simpl. rewrite List.filter_app.
  rewrite has_id_none
    by (eapply List.Forall_impl; [|exact Hseq]; simpl; intros r Hr; lia).
  simpl. unfold bool_decide. destruct (decide_rel _ _ _); [|contradiction].
  reflexivity.
Qed.

Lemma add_then_get_witness :
  customers_wf empty_store
  /\ Database.name_taken "Contoso" (customers empty_store) = false
  /\ exists db',
       Database.add_customer contoso (Some "pg://db") 10 empty_store
       = (Ok 1%Z, db')
       /\ Database.get_customer (VInt 1) (Some "pg://db") db'
          = Ok (Some (Customer.mk (Some 1%Z) "Contoso" "Retail group"
                        "Teams,SharePoint" "high" None (Some 10%Z) (Some 10%Z))).
Proof.
  assert (H : customers_wf empty_store)
    by (repeat split; simpl; constructor).
  split; [exact H|]. split; [reflexivity|].
  destruct (add_then_get contoso "pg://db" 10 empty_store H eq_refl)
    as [customer_id [db' [Ha Hg]]].
  vm_compute in Ha. injection Ha as <- <-.
  eexists. split; [reflexivity|]. exact Hg.
Defined.

(** ** Listing and looking up customers *)

Section NameOrder.
Variable le : string -> string -> bool.

Lemma insert_by_name_perm (r : CustomerRow.t) (l : list CustomerRow.t) :
  Permutation (r :: l) (Database.insert_by_name le r l).
Proof.
  induction l as [|r' l IH]; simpl; [reflexivity|].
  destruct (le _ _); [reflexivity|].
  rewrite perm_swap. apply perm_skip. exact IH.
Qed.

Lemma order_by_name_perm (l : list CustomerRow.t) :
  Permutation l (Database.order_by_name le l).
Proof.
  induction l as [|r l IH]; simpl; [reflexivity|].
  rewrite <- insert_by_name_perm. apply perm_skip. exact IH.
Qed.

Hypothesis le_total : total_order le.

Lemma insert_by_name_sorted (r : CustomerRow.t) (l : list CustomerRow.t) :
  Sorted (name_le le) l -> Sorted (name_le le) (Database.insert_by_name le r l).
Proof.
  induction 1 as [|a l Hs IH Hhd]; simpl.
  - repeat constructor.
  - destruct (le (CustomerRow.name r) (CustomerRow.name a)) eqn:E.
    + constructor; [constructor; assumption|]. constructor. exact E.
    + constructor; [exact IH|].
      assert (Har : name_le le a r) by (apply le_total; exact E).
      destruct l as [|b l]; simpl.
      * constructor. exact Har.
      * destruct (le (CustomerRow.name r) (CustomerRow.name b));
          constructor; [exact Har|]. apply HdRel_inv in Hhd. exact Hhd.
Qed.

Lemma order_by_name_sorted (l : list CustomerRow.t) :
  Sorted (name_le le) (Database.order_by_name le l).
Proof.
  induction l as [|r l IH]; simpl; [constructor|].
  apply insert_by_name_sorted. exact IH.
Qed.

Lemma sorted_names (rows : list CustomerRow.t) :
  Sorted (name_le le) rows ->
  Sorted (fun a b => le a b = true) (map CustomerRow.name rows).
Proof.
  induction 1 as [|a l Hs IH Hhd]; simpl; constructor; [exact IH|].
  destruct Hhd; simpl; constructor. assumption.
Qed.
End NameOrder.

Lemma caseless_total : total_order caseless.
Proof.
  intros a b H. unfold caseless in *.
  destruct (String.leb_total (string_of_list_ascii (Sql.lower (list_ascii_of_string a)))
              (string_of_list_ascii (Sql.lower (list_ascii_of_string b))));
    congruence.
Qed.

Lemma customers_of_rows (rows : list CustomerRow.t) : forall cs,
  Database.mapM Database.customer_of_row rows = Ok cs ->
  map Customer.name cs = map CustomerRow.name rows
  /\ map Customer.id cs = map (fun r => Some (CustomerRow.id r)) rows.
Proof.
  induction rows as [|r rows IH]; simpl; intros cs H.
  - injection H as <-. auto.
  - unfold Database.customer_of_row in H at 1.
    destruct (CustomerRow.priority r); [|discriminate]. simpl in H.
    destruct (Database.mapM _ rows) as [rest|e]; [|discriminate].
    simpl in H. injection H as <-. destruct (IH rest eq_refl) as [Hn Hi].
    simpl. rewrite Hn, Hi. auto.
Qed.

Lemma customers_of_rows_fail (rows : list CustomerRow.t) (e : exn) :
  Database.mapM Database.customer_of_row rows = Raise e ->
  exists r, In r rows /\ CustomerRow.priority r = None.
Proof.
  induction rows as [|r rows IH]; simpl; intros H; [discriminate|].
  destruct (CustomerRow.priority r) as [p|] eqn:Hp; [|eauto].
  unfold Database.customer_of_row in H at 1. rewrite Hp in H. simpl in H.
  destruct (Database.mapM _ rows) as [rest|e']; [discriminate|].
  simpl in H. injection H as <-.
  destruct (IH eq_refl) as [r' [Hin Hr']]. eauto.
Qed.

(** X10. [list_customers] returns every stored customer exactly once, in
    ascending order of name under the collation of the database (the
    statement names none; the collation is only taken to compare any two
    names one way or the other); it fails only when some row has a NULL
    priority, and then for the whole listing. *)
Theorem list_customers_sorted (url : string) (db : store) :
  total_order (collation db) ->
  match Database.list_customers (Some url) db with
  | Ok cs =>
      Permutation (map Customer.name cs) (map CustomerRow.name (customers db))
      /\ Sorted (fun a b => collation db a b = true) (map Customer.name cs)
      /\ length cs = length (customers db)
  | Raise e =>
      exists r, In r (customers db) /\ CustomerRow.priority r = None
  end.
Proof.
  intros Htotal. unfold Database.list_customers. simpl.
  destruct (Database.mapM Database.customer_of_row
              (Database.order_by_name (collation db) (customers db)))
    as [cs|e] eqn:Hm.
  - destruct (customers_of_rows _ _ Hm) as [Hn _]. rewrite Hn.
    split; [|split].
    + apply Permutation_map. symmetry. apply order_by_name_perm.
    + apply sorted_names. apply order_by_name_sorted. exact Htotal.
    + rewrite <- (length_map Customer.name), Hn, length_map.
      symmetry. apply Permutation_length. apply order_by_name_perm.
  - destruct (customers_of_rows_fail _ _ Hm) as [r [Hin Hr]].
    exists r. split; [|exact Hr].
    apply (Permutation_in r
             (Permutation_sym (order_by_name_perm (collation db) (customers db)))).
    exact Hin.
Qed.

(** The collation decides: the same table lists [Banana] first in byte
    order and [apple] first under a collation that ignores case. *)
Example collation_decides :
  option_map (map Customer.name)
    (match Database.list_customers (Some "pg://db") market_store with
     | Ok cs => Some cs | Raise _ => None end)
  = Some ["apple"; "Banana"]
  /\ option_map (map Customer.name)
       (match Database.list_customers (Some "pg://db")
                (mk_store (customers market_store) 2 [] String.leb) with
        | Ok cs => Some cs | Raise _ => None end)
     = Some ["Banana"; "apple"].
Proof. vm_compute. split; reflexivity. Qed.

Lemma list_customers_sorted_witness :
  total_order (collation market_store)
  /\ exists cs,
       Database.list_customers (Some "pg://db") market_store = Ok cs
       /\ map Customer.name cs = ["apple"; "Banana"]
       /\ Sorted (fun a b => caseless a b = true) (map Customer.name cs).
Proof.
  assert (Ht : total_order (collation market_store)) by exact caseless_total.
  split; [exact Ht|].
  pose proof (list_customers_sorted "pg://db" market_store Ht) as H.
  destruct (Database.list_customers (Some "pg://db") market_store) as [cs|e] eqn:E.
  - exists cs. split; [reflexivity|]. split; [|apply H].
    vm_compute in E. injection E as <-. reflexivity.
  - vm_compute in E. discriminate.
Defined.

(** X11. [get_customer_by_name] matches part of the name without regard
    to case: for a search text free of LIKE metacharacters it returns a
    stored customer whose name contains the text, and it returns nothing
    exactly when no stored name contains it. *)
Theorem get_customer_by_name_contains (name url : string) (db : store) :
  plain (list_ascii_of_string name) ->
  match Database.get_customer_by_name name (Some url) db with
  | Ok (Some c) =>
      contains_ci (Customer.name c) name
      /\ In (Customer.name c) (map CustomerRow.name (customers db))
  | Ok None =>
      forall r, In r (customers db) -> ~ contains_ci (CustomerRow.name r) name
  | Raise e =>
      exists r, In r (customers db) /\ CustomerRow.priority r = None
  end.
Proof.
  intros Hp. unfold Database.get_customer_by_name. simpl.
  set (hit := fun r => Sql.ilike (CustomerRow.name r) ("%" +:+ name +:+ "%")).
  destruct (List.filter hit (customers db)) as [|r rest] eqn:Hf.
  - intros r Hin Hc.
    assert (Hr : In r (List.filter hit (customers db))).
    { apply filter_In. split; [exact Hin|]. unfold hit.
      apply ilike_contains; assumption. }
    rewrite Hf in Hr. destruct Hr.
  - assert (Hr : In r (List.filter hit (customers db)))
      by (rewrite Hf; left; reflexivity).
    apply filter_In in Hr as [Hin Hhit].
    unfold Database.customer_of_row.
    destruct (CustomerRow.priority r) eqn:Hprio; simpl; [|eauto].
    split; [apply ilike_contains; assumption | apply in_map; exact Hin].
Qed.

Lemma get_customer_by_name_contains_witness :
  plain (list_ascii_of_string "toso")
  /\ exists db' c,
       Database.add_customer contoso (Some "pg://db") 10 empty_store
       = (Ok 1%Z, db')
       /\ Database.get_customer_by_name "toso" (Some "pg://db") db' = Ok (Some c)
       /\ contains_ci (Customer.name c) "toso".
Proof.
  assert (Hp : plain (list_ascii_of_string "toso")) by reflexivity.
  split; [exact Hp|].
  destruct (Database.add_customer contoso (Some "pg://db") 10 empty_store)
    as [res db'] eqn:Ha.
  assert (res = Ok 1%Z) as -> by (vm_compute in Ha; congruence).
  pose proof (get_customer_by_name_contains "toso" "pg://db" db' Hp) as H.
  destruct (Database.get_customer_by_name "toso" (Some "pg://db") db')
    as [[c|]|e] eqn:Hg.
  - exists db', c. split; [reflexivity | split; [exact Hg | apply H]].
  - exfalso. vm_compute in Ha. injection Ha as <-. vm_compute in Hg. discriminate.
  - exfalso. vm_compute in Ha. injection Ha as <-. vm_compute in Hg. discriminate.
Defined.

(** ** Updating a customer *)

Lemma set_column_id (k : string) (v : value) (r r' : CustomerRow.t) :
  Database.set_column k v r = Ok r' -> CustomerRow.id r' = CustomerRow.id r.
Proof.
  unfold Database.set_column. destruct r as [i n d p pr no c u].
  destruct v; simpl; try discriminate.
  repeat (destruct (String.eqb k _); [intros H; injection H as <-; reflexivity|]).
  discriminate.
Qed.

Lemma set_columns_id (kwargs : list (string * value)) : forall r r',
  Database.set_columns kwargs r = Ok r' -> CustomerRow.id r' = CustomerRow.id r.
Proof.
  induction kwargs as [|[k v] rest IH]; simpl; intros r r' H.
  - injection H as <-. reflexivity.
  - destruct (Database.set_column k v r) as [r1|e] eqn:E; [|discriminate].
    simpl in H. rewrite (IH _ _ H). eapply set_column_id. exact E.
Qed.

Lemma touch_spec (now : Z) (r : CustomerRow.t) :
  CustomerRow.id (Database.touch now r) = CustomerRow.id r
  /\ CustomerRow.updated_at (Database.touch now r) = Some now
  /\ (forall k, text_column k (Database.touch now r) = text_column k r).
Proof. destruct r. repeat split; reflexivity. Qed.

Lemma set_column_sets (k s : string) (r : CustomerRow.t) :
  In k text_fields ->
  exists r',
    Database.set_column k (VStr s) r = Ok r'
    /\ text_column k r' = Some s
    /\ (forall k', k' <> k -> text_column k' r' = text_column k' r).
Proof.
  intros Hk. destruct r as [i n d p pr no c u]. unfold text_fields in Hk.
  simpl in Hk.
  destruct Hk as [<-|[<-|[<-|[<-|[<-|[]]]]]]; (eexists; split; [reflexivity|]);
    (split; [reflexivity|]); intros k' Hk'; unfold text_column;
    repeat match goal with
           | |- context [String.eqb k' ?x] =>
               destruct (String.eqb_spec k' x) as [->|_];
               [first [congruence | reflexivity]|]
           end; reflexivity.
Qed.

Lemma set_columns_values (kwargs : list (string * value)) : forall r,
  NoDup (map fst kwargs) -> Forall text_update kwargs ->
  exists r',
    Database.set_columns kwargs r = Ok r'
    /\ (forall k s, In (k, VStr s) kwargs -> text_column k r' = Some s)
    /\ (forall k, ~ In k (map fst kwargs) -> text_column k r' = text_column k r).
Proof.
  induction kwargs as [|[k v] rest IH]; simpl; intros r Hnd Hall.
  - exists r. split; [reflexivity|]. split; [intros k s []|reflexivity].
  - apply NoDup_cons in Hnd as [Hk Hnd].
    inversion Hall as [|? ? [Hin [s0 Hs0]] Hrest]; subst. simpl in Hin, Hs0.
    subst v.
    destruct (set_column_sets k s0 r Hin) as [r1 [Hset [Hval Hother]]].
    destruct (IH r1 Hnd Hrest) as [r' [Hrec [Hvals Hkeep]]].
    exists r'. rewrite Hset. simpl. split; [exact Hrec|]. split.
    + intros k' s' [Heq|Hin'].
      * injection Heq as <- <-. rewrite Hkeep; [exact Hval|].
        intros H. apply Hk. apply list_elem_of_In. exact H.
      * apply Hvals. exact Hin'.
    + intros k' Hk'. rewrite Hkeep by tauto. apply Hother.
      intros ->. tauto.
Qed.

Lemma update_rows (key : option Z) (kwargs : list (string * value)) (now : Z)
    (rows : list CustomerRow.t) : forall rows',
  Database.mapM
    (fun r => if Database.has_id key r
              then let* r' := Database.set_columns kwargs r in
                   Ok (Database.touch now r')
              else Ok r) rows = Ok rows' ->
  Forall2 (fun r r' =>
             CustomerRow.id r' = CustomerRow.id r
             /\ if Database.has_id key r
                then CustomerRow.updated_at r' = Some now
                     /\ exists r1, Database.set_columns kwargs r = Ok r1
                                   /\ r' = Database.touch now r1
                else r' = r) rows rows'.
Proof.
  induction rows as [|r rows IH]; simpl; intros rows' H.
  - injection H as <-. constructor.
  - destruct (Database.has_id key r) eqn:Hhit.
    + destruct (Database.set_columns kwargs r) as [r1|e] eqn:E; [|discriminate].
      simpl in H. destruct (Database.mapM _ rows) as [rest|e]; [|discriminate].
      simpl in H. injection H as <-. constructor; [|apply IH; reflexivity].
      rewrite Hhit. destruct (touch_spec now r1) as [Hi [Hu _]].
      rewrite Hi, Hu, (set_columns_id _ _ _ E). eauto.
    + simpl in H. destruct (Database.mapM _ rows) as [rest|e]; [|discriminate].
      simpl in H. injection H as <-. constructor; [|apply IH; reflexivity].
      rewrite Hhit. auto.
Qed.

Lemma update_rows_returns (key : option Z) (kwargs : list (string * value))
    (now : Z) (rows : list CustomerRow.t) :
  NoDup (map fst kwargs) -> Forall text_update kwargs ->
  exists rows',
    Database.mapM
      (fun r => if Database.has_id key r
                then let* r' := Database.set_columns kwargs r in
                     Ok (Database.touch now r')
                else Ok r) rows = Ok rows'.
Proof.
  intros Hnd Hall. induction rows as [|r rows [rows' IH]]; simpl; [eauto|].
  destruct (Database.has_id key r).
  - destruct (set_columns_values kwargs r Hnd Hall) as [r1 [-> _]].
    simpl. rewrite IH. simpl. eauto.
  - simpl. rewrite IH. simpl. eauto.
Qed.

(** X12. [update_customer], given a database URL and at least one of the
    keyword fields the customer tool passes ([name], [description],
    [products_used], [priority], [notes], each at most once and with a
    string): when it returns, its result tells whether a row has the id,
    no row was added, removed or renumbered, rows with another id are
    unchanged, and the row with the id holds the given strings in the
    named columns and the server time in [updated_at]; it raises only for
    a name another row has, and then nothing is changed. *)
Theorem update_customer_effect (z : Z) (url : string)
    (kwargs : list (string * value)) (now : Z) (db : store) :
  kwargs <> [] -> NoDup (map fst kwargs) -> Forall text_update kwargs ->
  match Database.update_customer (VInt z) (Some url) kwargs now db with
  | (Ok found, db') =>
      (found = true <-> In z (map CustomerRow.id (customers db)))
      /\ map CustomerRow.id (customers db') = map CustomerRow.id (customers db)
      /\ (forall r, In r (customers db) -> CustomerRow.id r <> z ->
                    In r (customers db'))
      /\ (forall r', In r' (customers db') -> CustomerRow.id r' = z ->
                     CustomerRow.updated_at r' = Some now
                     /\ forall k s, In (k, VStr s) kwargs ->
                                    text_column k r' = Some s)
      /\ roadmap_items db' = roadmap_items db
  | (Raise e, db') =>
      db' = db
      /\ e = IntegrityError
               "duplicate key value violates unique constraint customers_name_key"
  end.
Proof.
  intros Hne Hnd Hall. unfold Database.update_customer. simpl.
  destruct kwargs as [|kv kwargs]; [contradiction|].
  destruct (Database.mapM _ (customers db)) as [rows|e] eqn:Hm.
  2: { exfalso.
       destruct (update_rows_returns (Some z) (kv :: kwargs) now (customers db)
                   Hnd Hall) as [rows' Hr].
       simpl in Hr, Hm. congruence. }
  destruct (existsb _ (List.filter (Database.has_id (Some z)) rows));
    [split; reflexivity|].
  apply (update_rows (Some z) (kv :: kwargs) now) in Hm. simpl.
  split; [|split; [|split; [|split; [|reflexivity]]]].
  - rewrite existsb_exists. split.
    + intros [r [Hin Hr]]. apply bool_decide_eq_true in Hr. subst z.
      apply in_map. exact Hin.
    + intros Hin. apply in_map_iff in Hin as [r [Hr Hin]]. exists r.
      split; [exact Hin|]. apply bool_decide_eq_true. exact Hr.
  - induction Hm as [|r r' l l' [Hi _] _ IH]; simpl; [reflexivity|].
    rewrite Hi, IH. reflexivity.
  - intros r Hin Hr. induction Hm as [|a a' l l' [_ Ha] _ IH]; [destruct Hin|].
    destruct Hin as [->|Hin]; [|right; apply IH; exact Hin].
    left. simpl in Ha. unfold bool_decide in Ha.
    destruct (decide_rel _ _ _); [contradiction|exact Ha].
  - intros r' Hin Hr'. induction Hm as [|a a' l l' [Hi Ha] _ IH]; [destruct Hin|].
    destruct Hin as [<-|Hin]; [|apply IH; exact Hin].
    simpl in Ha. unfold bool_decide in Ha.
    destruct (decide_rel _ _ _) as [E|E]; [|subst a'; contradiction].
    destruct Ha as [Hu [r1 [Hset ->]]]. split; [exact Hu|].
    intros k s Hks. destruct (touch_spec now r1) as [_ [_ Ht]]. rewrite Ht.
    destruct (set_columns_values (kv :: kwargs) a Hnd Hall)
      as [r2 [Hset2 [Hvals _]]].
    pose proof (eq_trans (eq_sym Hset2) Hset) as Heq. injection Heq as <-.
    apply Hvals. exact Hks.
Qed.

Lemma update_customer_effect_witness :
  [("priority", VStr "low")] <> []
  /\ NoDup (map fst [("priority", VStr "low")])
  /\ Forall text_update [("priority", VStr "low")]
  /\ exists db1 db2,
       Database.add_customer contoso (Some "pg://db") 10 empty_store
       = (Ok 1%Z, db1)
       /\ Database.update_customer (VInt 1) (Some "pg://db")
            [("priority", VStr "low")] 20 db1 = (Ok true, db2)
       /\ map CustomerRow.updated_at (customers db2) = [Some 20%Z]
       /\ map CustomerRow.priority (customers db2) = [Some "low"].
Proof.
  assert (Hne : [("priority", VStr "low")] <> []) by discriminate.
  assert (Hnd : NoDup (map fst [("priority", VStr "low")]))
    by (apply (bool_decide_unpack _); vm_compute; exact I).
  assert (Hall : Forall text_update [("priority", VStr "low")]).
  { constructor; [|constructor]. split; [simpl; tauto | eexists; reflexivity]. }
  split; [exact Hne | split; [exact Hnd | split; [exact Hall|]]].
  destruct (Database.add_customer contoso (Some "pg://db") 10 empty_store)
    as [res db1] eqn:Ha.
  assert (res = Ok 1%Z) as -> by (vm_compute in Ha; congruence).
  exists db1.
  pose proof (update_customer_effect 1 "pg://db" [("priority", VStr "low")] 20
                db1 Hne Hnd Hall) as H.
  destruct (Database.update_customer (VInt 1) (Some "pg://db")
              [("priority", VStr "low")] 20 db1) as [[found|e] db2] eqn:Hu.
  - exists db2. assert (found = true) as ->.
    { vm_compute in Ha. injection Ha as <-. vm_compute in Hu. congruence. }
    split; [reflexivity | split; [reflexivity|]].
    vm_compute in Ha. injection Ha as <-. vm_compute in Hu.
    injection Hu as <-. split; reflexivity.
  - exfalso. vm_compute in Ha. injection Ha as <-. vm_compute in Hu. discriminate.
Defined.

(** * Further properties of the conversation loop *)

Section LoopAccounting.
Context {W : Type}.
Variable handle_tool_call : string -> gmap string value -> W -> result string * W.
Variable prepare_args : gmap string value -> gmap string value.

Lemma first_call_cases (response : Chat.response) :
  Chat.first_call response = None \/ asks_call response.
Proof.
  unfold asks_call, Chat.first_call.
  destruct (Chat.parts response) as [|[t|n a] ps]; eauto.
Qed.

Lemma tool_loop_stop response sent executed (w w' : W) name args tool_result :
  Chat.first_call response = Some (name, args) ->
  handle_tool_call name (prepare_args args) w = (Ok tool_result, w') ->
  Chat.tool_loop handle_tool_call prepare_args [] response sent executed w
  = (Chat.mk_run (Raise StopIteration)
       (sent ++ [Chat.FunctionResponse name tool_result])
       (executed ++ [(name, prepare_args args)]) [], w').
Proof.
  unfold Chat.first_call. intros Hc Hd. simpl.
  destruct (Chat.parts response) as [|[t|n a] ps]; try discriminate.
  injection Hc as -> ->. rewrite Hd. reflexivity.
Qed.

(** The replies consumed before the final one all asked for a call. *)
Lemma tool_loop_returns script : forall response sent executed (w : W) t,
  Chat.returned
    (fst (Chat.tool_loop handle_tool_call prepare_args script response sent
            executed w)) = Ok t ->
  let r := fst (Chat.tool_loop handle_tool_call prepare_args script response
                  sent executed w) in
  exists consumed reply,
    response :: script = (consumed ++ reply :: Chat.remaining r)%list
    /\ Forall asks_call consumed
    /\ Chat.first_call reply = None
    /\ t = Chat.text reply
    /\ length (Chat.executed r) = (length executed + length consumed)%nat
    /\ length (Chat.sent r) = (length sent + length consumed)%nat.
Proof.
  induction script as [|next script IH]; intros response sent executed w t.
  - destruct (Chat.first_call response) as [[name args]|] eqn:Hc.
    + destruct (handle_tool_call name (prepare_args args) w) as [[s|e] w'] eqn:Hd.
      * rewrite (tool_loop_stop _ _ _ _ _ _ _ _ Hc Hd). simpl. discriminate.
      * intros H. rewrite (tool_loop_raise _ _ _ _ _ _ _ _ _ _ e Hc Hd) in H.
        discriminate.
    + rewrite tool_loop_final by exact Hc. simpl. intros H. injection H as <-.
      exists [], response. simpl. repeat split; auto; lia.
  - destruct (Chat.first_call response) as [[name args]|] eqn:Hc.
    + destruct (handle_tool_call name (prepare_args args) w) as [[s|e] w'] eqn:Hd.
      * rewrite (tool_loop_step _ _ _ _ _ _ _ _ _ _ _ _ Hc Hd).
        intros H. destruct (IH _ _ _ _ _ H)
          as [consumed [reply [Hs [Hall [Hn [Ht [He Hl]]]]]]].
        exists (response :: consumed), reply. simpl.
        rewrite Hs, He, Hl, !length_app. simpl.
        repeat split; auto; try lia.
        constructor; [exists name, args; exact Hc | exact Hall].
      * intros H. rewrite (tool_loop_raise _ _ _ _ _ _ _ _ _ _ e Hc Hd) in H.
        discriminate.
    + rewrite tool_loop_final by exact Hc. simpl. intros H. injection H as <-.
      exists [], response. simpl. repeat split; auto; lia.
Qed.

(** As long as the replies ask for calls and the dispatcher answers, the
    loop goes on; it ends with the script. *)
Lemma tool_loop_exhausts script : forall response sent executed (w : W),
  (forall name args w, is_ok (fst (handle_tool_call name args w)) = true) ->
  Forall asks_call (response :: script) ->
  let r := fst (Chat.tool_loop handle_tool_call prepare_args script response
                  sent executed w) in
  Chat.returned r = Raise StopIteration
  /\ length (Chat.sent r) = (length sent + S (length script))%nat
  /\ length (Chat.executed r) = (length executed + S (length script))%nat.
Proof.
  induction script as [|next script IH]; intros response sent executed w Hok Hall;
    apply Forall_cons in Hall as [[name [args Hc]] Hall];
    specialize (Hok name (prepare_args args) w) as Hd;
    destruct (handle_tool_call name (prepare_args args) w) as [[s|e] w'] eqn:Hh;
    try discriminate.
  - rewrite (tool_loop_stop _ _ _ _ _ _ _ _ Hc Hh). simpl.
    rewrite !length_app. simpl. repeat split; lia.
  - rewrite (tool_loop_step _ _ _ _ _ _ _ _ _ _ _ _ Hc Hh).
    destruct (IH next (sent ++ [Chat.FunctionResponse name s])%list
                (executed ++ [(name, prepare_args args)])%list w' Hok Hall)
      as [Hr [Hs He]].
    cbv zeta. rewrite Hr, Hs, He, !length_app. simpl. repeat split; lia.
Qed.

(** Every argument mapping handed to the dispatcher went through
    [prepare_args]. *)
Lemma tool_loop_prepared script : forall response sent executed (w : W),
  Forall (fun c => exists args, snd c = prepare_args args) executed ->
  Forall (fun c => exists args, snd c = prepare_args args)
         (Chat.executed
            (fst (Chat.tool_loop handle_tool_call prepare_args script response
                    sent executed w))).
Proof.
  induction script as [|next script IH]; intros response sent executed w Hex;
    simpl; destruct (Chat.parts response) as [|[t|name args] ps]; simpl; auto;
    assert (Hex' : Forall (fun c => exists args0, snd c = prepare_args args0)
                     (executed ++ [(name, prepare_args args)]))
      by (apply Forall_app; split; [exact Hex | repeat constructor; eauto]);
    destruct (handle_tool_call name (prepare_args args) w) as [[s|e] w'];
    simpl; auto.
Qed.

(** A dispatcher that leaves the world alone makes a query that does. *)
Lemma tool_loop_world script : forall response sent executed (w : W),
  (forall name args w, snd (handle_tool_call name args w) = w) ->
  snd (Chat.tool_loop handle_tool_call prepare_args script response sent
         executed w) = w.
Proof.
  induction script as [|next script IH]; intros response sent executed w Hw;
    simpl; destruct (Chat.parts response) as [|[t|name args] ps]; simpl; auto;
    specialize (Hw name (prepare_args args) w) as Hd;
    destruct (handle_tool_call name (prepare_args args) w) as [[s|e] w'];
    simpl in *; subst w'; auto.
Qed.
End LoopAccounting.

(** X13. A query that returns text has consumed the scripted replies up
    to the first one that does not open with a function call: every reply
    before it asked for a call, which was executed; the text returned is
    that reply's; and the number of exchanges is one more than the number
    of calls executed. *)
Theorem query_accounting {W : Type}
    (handle_tool_call : string -> gmap string value -> W -> result string * W)
    (prepare_args : gmap string value -> gmap string value)
    (user_message : string) (script : list Chat.response) (w : W) (t : string) :
  let r := fst (Chat.query handle_tool_call prepare_args user_message script w) in
  Chat.returned r = Ok t ->
  exists consumed reply,
    script = (consumed ++ reply :: Chat.remaining r)%list
    /\ Forall asks_call consumed
    /\ Chat.first_call reply = None
    /\ t = Chat.text reply
    /\ length (Chat.executed r) = length consumed
    /\ Chat.exchanges r = S (length (Chat.executed r)).
Proof.
  unfold Chat.query. destruct script as [|response script]; simpl; [discriminate|].
  intros H.
  destruct (tool_loop_returns handle_tool_call prepare_args script response
              [Chat.UserMessage user_message] [] w t H)
    as [consumed [reply [Hs [Hall [Hn [Ht [He Hl]]]]]]].
  exists consumed, reply. unfold Chat.exchanges. simpl in He, Hl.
  repeat split; auto. lia.
Qed.

Lemma query_accounting_witness :
  Chat.returned
    (fst (Orchestrator.query demo_route2 demo_route1 demo_route1 "pg://db"
            "What is new in Teams?"
            [Chat.mk_response
               [Chat.FunctionCall "route_to_roadmap_agent"
                  {["query" := VStr "Teams"]}] EmptyString;
             demo_reply2] tt)) = Ok "Recap is rolling out."
  /\ Chat.exchanges
       (fst (Orchestrator.query demo_route2 demo_route1 demo_route1 "pg://db"
               "What is new in Teams?"
               [Chat.mk_response
                  [Chat.FunctionCall "route_to_roadmap_agent"
                     {["query" := VStr "Teams"]}] EmptyString;
                demo_reply2] tt)) = 2%nat.
Proof.
  assert (H : Chat.returned
    (fst (Orchestrator.query demo_route2 demo_route1 demo_route1 "pg://db"
            "What is new in Teams?"
            [Chat.mk_response
               [Chat.FunctionCall "route_to_roadmap_agent"
                  {["query" := VStr "Teams"]}] EmptyString;
             demo_reply2] tt)) = Ok "Recap is rolling out.") by reflexivity.
  split; [exact H|].
  destruct (query_accounting _ _ _ _ _ _ H)
    as [consumed [reply [_ [_ [_ [_ [_ He]]]]]]].
  unfold Orchestrator.query. rewrite He. reflexivity.
Defined.

(** X14. The loop has no bound of its own: when every scripted reply opens
    with a function call and the dispatcher answers each with a string, all
    of them are executed, one exchange is made for the user message and one
    for each call, and the query ends only because the script does. *)
Theorem query_runs_while_called {W : Type}
    (handle_tool_call : string -> gmap string value -> W -> result string * W)
    (prepare_args : gmap string value -> gmap string value)
    (user_message : string) (script : list Chat.response) (w : W) :
  (forall name args w, is_ok (fst (handle_tool_call name args w)) = true) ->
  Forall asks_call script ->
  let r := fst (Chat.query handle_tool_call prepare_args user_message script w) in
  Chat.returned r = Raise StopIteration
  /\ length (Chat.executed r) = length script
  /\ Chat.exchanges r = S (length script).
Proof.
  intros Hok Hall. unfold Chat.query, Chat.exchanges.
  destruct script as [|response script]; simpl; [auto|].
  destruct (tool_loop_exhausts handle_tool_call prepare_args script response
              [Chat.UserMessage user_message] [] w Hok Hall) as [Hr [Hs He]].
  simpl in Hs, He. rewrite Hr, Hs, He. auto.
Qed.

Lemma query_runs_while_called_witness :
  let call := Chat.mk_response [Chat.FunctionCall "refresh_roadmap_data" ∅]
                EmptyString in
  Forall asks_call [call; call; call]
  /\ Chat.exchanges
       (fst (Orchestrator.query demo_route2 demo_route1 demo_route1 "pg://db"
               "Refresh" [call; call; call] tt)) = 4%nat.
Proof.
  intros call.
  assert (Hall : Forall asks_call [call; call; call])
    by (repeat constructor; exists "refresh_roadmap_data", ∅; reflexivity).
  split; [exact Hall|].
  assert (Hok : forall name args (w : unit),
            is_ok (fst (Orchestrator.handle_tool_call demo_route2 demo_route1
                          demo_route1 name args w)) = true).
  { intros name args w. unfold Orchestrator.handle_tool_call.
    repeat (destruct (_ || _) || destruct (String.eqb _ _)); reflexivity. }
  exact (proj2 (proj2 (query_runs_while_called _
                         (fun a => <["database_url" := VStr "pg://db"]> a)
                         "Refresh" [call; call; call] tt Hok Hall))).
Defined.

(** X15. The orchestrator dispatches every call with its own database
    URL: whatever [database_url] the model put into the arguments, each
    argument mapping executed carries the agent's. *)
Theorem orchestrator_injects_database_url {W : Type}
    (roadmap : value -> value -> W -> result string * W)
    (customer impact : value -> W -> result string * W)
    (database_url user_message : string) (script : list Chat.response) (w : W) :
  Forall (fun c => snd c !! "database_url" = Some (VStr database_url))
         (Chat.executed
            (fst (Orchestrator.query roadmap customer impact database_url
                    user_message script w))).
Proof.
  unfold Orchestrator.query, Chat.query.
  destruct script as [|response script]; simpl; [constructor|].
  eapply List.Forall_impl;
    [|apply (tool_loop_prepared _ _ script response _ [] w); constructor].
  simpl. intros [name args] [args0 ->]. apply lookup_insert_eq.
Qed.

(** * The customer agent cannot write *)

Lemma add_customer_tool_pure (n d p pr no : value) (now : Z) (db : store) :
  snd (CustomerAgent.add_customer_tool n d p pr no now db) = db.
Proof.
  unfold CustomerAgent.add_customer_tool.
  destruct (Py.bind _ _) as [c|e]; reflexivity.
Qed.

Lemma customer_dispatch_pure (function_name : string)
    (function_args : gmap string value) (now : Z) (db : store) :
  snd (CustomerAgent.handle_tool_call function_name function_args now db) = db.
Proof.
  unfold CustomerAgent.handle_tool_call.
  repeat (destruct (String.eqb function_name _); [|]); try reflexivity.
  - destruct (call_kwargs _ _ _) as [[|a [|b [|c [|d [|e [|f l]]]]]]|x];
      try reflexivity. apply add_customer_tool_pure.
  - destruct (call_kwargs _ _ _) as [[|a [|b [|c l]]]|x]; try reflexivity.
    unfold CustomerAgent.get_customer_tool.
    destruct (truthy a); [reflexivity|]. destruct (truthy b); reflexivity.
  - destruct (call_kwargs _ _ _) as [[|a [|b [|c [|d [|e [|f [|g l]]]]]]]|x];
      try reflexivity.
    unfold CustomerAgent.update_customer_tool.
    destruct (List.filter _ _); reflexivity.
  - destruct (call_kwargs _ _ _) as [[|a [|b l]]|x]; reflexivity.
Qed.

(** X16. No call of the customer dispatcher, and so no query of the
    customer agent, changes the store: every handler reaches the database
    layer without the [database_url] it requires and stops before its
    statement. *)
Theorem customer_agent_never_writes (now : Z) (user_message : string)
    (script : list Chat.response) (function_name : string)
    (function_args : gmap string value) (db : store) :
  snd (CustomerAgent.handle_tool_call function_name function_args now db) = db
  /\ snd (CustomerSession.query now user_message script db) = db.
Proof.
  split; [apply customer_dispatch_pure|].
  unfold CustomerSession.query, Chat.query.
  destruct script as [|response script]; [reflexivity|].
  apply tool_loop_world. intros name args w. apply customer_dispatch_pure.
Qed.

(** * Further properties of the MCP server tools *)

Lemma substring_length (n : nat) : forall s : string,
  (n <= String.length s)%nat -> String.length (substring 0 n s) = n.
Proof.
  induction n as [|n IH]; intros s Hn.
  - destruct s; reflexivity.
  - destruct s as [|c s]; simpl in *; [lia|]. rewrite IH; [reflexivity|lia].
Qed.

(** X17. The description a search result carries is never longer than 503
    characters: one of at most 500 is passed on unchanged, a longer one is
    cut to its first 500 characters followed by three dots. *)
Theorem shorten_bound (text : string) :
  exists short,
    DbMcp.shorten (Some text) = Some short
    /\ (String.length short <= 503)%nat
    /\ ((String.length text <= 500)%nat -> short = text)
    /\ ((500 < String.length text)%nat ->
        short = substring 0 500 text +:+ "..."
        /\ String.length short = 503%nat).
Proof.
  unfold DbMcp.shorten.
  destruct (Nat.ltb_spec 500 (String.length text)) as [Hlong|Hshort].
  - eexists. split; [reflexivity|].
    assert (Hl : String.length (substring 0 500 text +:+ "...") = 503%nat).
    { rewrite string_length_app, substring_length by lia. reflexivity. }
    split; [lia|]. split; [lia|]. auto.
  - exists text. split; [reflexivity|]. split; [lia|]. split; [auto|lia].
Qed.

(** ** Listing roadmap items *)

Lemma int8_fits (z : Z) :
  (0 <= z <= 9223372036854775807)%Z -> DbMcp.int8 z = true.
Proof.
  intros H. unfold DbMcp.int8. apply andb_true_intro.
  split; apply Z.leb_le; lia.
Qed.

Lemma newest_first_total (a b : option Z) :
  DbMcp.newest_first a b = false -> DbMcp.newest_first b a = true.
Proof.
  destruct a as [x|], b as [y|]; simpl; try congruence.
  intros H. apply Z.leb_gt in H. apply Z.leb_le. lia.
Qed.

Lemma newest_first_trans (a b c : option Z) :
  DbMcp.newest_first a b = true -> DbMcp.newest_first b c = true ->
  DbMcp.newest_first a c = true.
Proof.
  destruct a as [x|], b as [y|], c as [z|]; simpl; try congruence.
  rewrite !Z.leb_le. lia.
Qed.

Lemma insert_by_updated_perm (r : RoadmapRow.t) (l : list RoadmapRow.t) :
  Permutation (r :: l) (DbMcp.insert_by_updated r l).
Proof.
  induction l as [|r' l IH]; simpl; [reflexivity|].
  destruct (DbMcp.newest_first _ _); [reflexivity|].
  rewrite perm_swap. apply perm_skip. exact IH.
Qed.

Lemma order_by_updated_perm (rows : list RoadmapRow.t) :
  Permutation rows (DbMcp.order_by_updated_desc rows).
Proof.
  induction rows as [|r rows IH]; simpl; [reflexivity|].
  rewrite <- insert_by_updated_perm. apply perm_skip. exact IH.
Qed.

Lemma insert_by_updated_sorted (r : RoadmapRow.t) (l : list RoadmapRow.t) :
  Sorted newer l -> Sorted newer (DbMcp.insert_by_updated r l).
Proof.
  induction 1 as [|a l Hs IH Hhd]; simpl.
  - repeat constructor.
  - destruct (DbMcp.newest_first (RoadmapRow.updated_at r)
                (RoadmapRow.updated_at a)) eqn:E.
    + constructor; [constructor; assumption|]. constructor. exact E.
    + constructor; [exact IH|].
      assert (Har : newer a r) by (apply newest_first_total; exact E).
      destruct l as [|b l]; simpl.
      * constructor. exact Har.
      * destruct (DbMcp.newest_first (RoadmapRow.updated_at r)
                    (RoadmapRow.updated_at b));
          constructor; [exact Har|]. apply HdRel_inv in Hhd. exact Hhd.
Qed.

Lemma order_by_updated_sorted (rows : list RoadmapRow.t) :
  StronglySorted newer (DbMcp.order_by_updated_desc rows).
Proof.
  apply Sorted_StronglySorted.
  - intros a b c. apply newest_first_trans.
  - induction rows as [|r rows IH]; simpl; [constructor|].
    apply insert_by_updated_sorted. exact IH.
Qed.

Lemma strongly_sorted_take {A} (R : A -> A -> Prop) (n : nat) (l : list A) :
  StronglySorted R l -> StronglySorted R (take n l).
Proof.
  intros H. revert n. induction H as [|a l Hs IH Hall]; intros [|n]; simpl;
    try constructor.
  - apply IH.
  - rewrite List.Forall_forall in *. intros x Hx. apply Hall.
    rewrite <- (take_drop n l). apply in_or_app. left. exact Hx.
Qed.

Lemma strongly_sorted_drop {A} (R : A -> A -> Prop) (n : nat) (l : list A) :
  StronglySorted R l -> StronglySorted R (drop n l).
Proof.
  intros H. revert n. induction H as [|a l Hs IH Hall]; intros [|n]; simpl;
    try constructor; auto.
Qed.

(** X18. A listing is well behaved for a non-negative limit and offset:
    it holds at most [limit] rows, all of them rows of the table, newest
    [updated_at] first, and, when a non-empty status was asked for, all of
    that very status. *)
Theorem listing_bounded_sorted (status : option string) (limit offset : Z)
    (db : store) :
  (0 <= limit <= 9223372036854775807)%Z ->
  (0 <= offset <= 9223372036854775807)%Z ->
  exists rows,
    DbMcp.list_roadmap_items status limit offset db
    = DbMcp.Listed (map DbMcp.listed_of_row rows)
    /\ (Z.of_nat (length rows) <= limit)%Z
    /\ StronglySorted newer rows
    /\ (forall r, In r rows -> In r (roadmap_items db))
    /\ (forall s, status = Some s -> s <> EmptyString ->
          forall r, In r rows -> RoadmapRow.status r = Some s).
Proof.
  intros Hl Ho. unfold DbMcp.list_roadmap_items.
  rewrite !int8_fits by lia. simpl negb. cbv iota.
  destruct (Z.ltb_spec offset 0); [lia|]. destruct (Z.ltb_spec limit 0); [lia|].
  eexists. split; [reflexivity|].
  set (selected := match status with
                   | Some (String _ _ as s) =>
                       List.filter (DbMcp.has_status s) (roadmap_items db)
                   | _ => roadmap_items db
                   end).
  assert (Hin : forall r,
            In r (take (Z.to_nat limit)
                    (drop (Z.to_nat offset) (DbMcp.order_by_updated_desc selected)))
            -> In r selected).
  { intros r Hr.
    apply (Permutation_in r (Permutation_sym (order_by_updated_perm selected))).
    rewrite <- (take_drop (Z.to_nat offset)). apply in_or_app. right.
    rewrite <- (take_drop (Z.to_nat limit) (drop _ _)). apply in_or_app. left.
    exact Hr. }
  split; [rewrite length_take; lia|].
  split; [apply strongly_sorted_take, strongly_sorted_drop,
            order_by_updated_sorted|].
  split.
  - intros r Hr. apply Hin in Hr. unfold selected in Hr.
    destruct status as [[|c s]|]; auto. apply filter_In in Hr. tauto.
  - intros s -> Hs r Hr. apply Hin in Hr. unfold selected in Hr.
    destruct s as [|c s]; [contradiction|].
    apply filter_In in Hr as [_ Hr]. unfold DbMcp.has_status in Hr.
    destruct (RoadmapRow.status r) as [t|]; [|discriminate].
    apply String.eqb_eq in Hr. congruence.
Qed.

Lemma listing_bounded_sorted_witness :
  (0 <= 2 <= 9223372036854775807)%Z /\ (0 <= 1 <= 9223372036854775807)%Z
  /\ exists rows,
       DbMcp.list_roadmap_items None 2 1 compass_store
       = DbMcp.Listed (map DbMcp.listed_of_row rows)
       /\ (Z.of_nat (length rows) <= 2)%Z
       /\ StronglySorted newer rows.
Proof.
  assert (H2 : (0 <= 2 <= 9223372036854775807)%Z) by lia.
  assert (H1 : (0 <= 1 <= 9223372036854775807)%Z) by lia.
  split; [exact H2 | split; [exact H1|]].
  destruct (listing_bounded_sorted None 2 1 compass_store H2 H1)
    as [rows [Hr [Hlen [Hs _]]]].
  exists rows. split; [exact Hr | split; [exact Hlen | exact Hs]].
Defined.

(** X19. Consecutive pages tile the listing when no two rows share their
    [updated_at] (among rows of equal [updated_at] the server is free to
    choose an order for each query): over an unchanged table the page of
    [limit1] rows at [offset], followed by the page of [limit2] rows at
    [offset + limit1], is the page of [limit1 + limit2] rows at [offset];
    nothing is skipped or repeated between them. *)
Theorem listing_pages_tile (status : option string) (limit1 limit2 offset : Z)
    (db : store) :
  NoDup (map RoadmapRow.updated_at (roadmap_items db)) ->
  (0 <= limit1)%Z -> (0 <= limit2)%Z -> (0 <= offset)%Z ->
  (limit1 + limit2 <= 9223372036854775807)%Z ->
  (offset + limit1 <= 9223372036854775807)%Z ->
  exists page1 page2,
    DbMcp.list_roadmap_items status limit1 offset db = DbMcp.Listed page1
    /\ DbMcp.list_roadmap_items status limit2 (offset + limit1) db
       = DbMcp.Listed page2
    /\ DbMcp.list_roadmap_items status (limit1 + limit2) offset db
       = DbMcp.Listed (page1 ++ page2).
Proof.
  intros _ H1 H2 Ho Hl Hol. unfold DbMcp.list_roadmap_items.
  rewrite !int8_fits by lia. simpl negb. cbv iota.
  destruct (Z.ltb_spec offset 0); [lia|].
  destruct (Z.ltb_spec limit1 0); [lia|].
  destruct (Z.ltb_spec limit2 0); [lia|].
  destruct (Z.ltb_spec (offset + limit1) 0); [lia|].
  destruct (Z.ltb_spec (limit1 + limit2) 0); [lia|].
  eexists. eexists. split; [reflexivity|]. split; [reflexivity|].
  f_equal. rewrite <- map_app. f_equal.
  rewrite !Z2Nat.inj_add by lia. rewrite <- drop_drop.
  symmetry. apply take_take_drop.
Qed.

Lemma listing_pages_tile_witness :
  NoDup (map RoadmapRow.updated_at (roadmap_items dated_store))
  /\ exists page1 page2,
       DbMcp.list_roadmap_items None 1 0 dated_store = DbMcp.Listed page1
       /\ DbMcp.list_roadmap_items None 2 1 dated_store = DbMcp.Listed page2
       /\ DbMcp.list_roadmap_items None 3 0 dated_store
          = DbMcp.Listed (page1 ++ page2).
Proof.
  assert (Hd : NoDup (map RoadmapRow.updated_at (roadmap_items dated_store))).
  { apply (bool_decide_unpack _). vm_compute. exact I. }
  split; [exact Hd|].
  exact (listing_pages_tile None 1 2 0 dated_store Hd
           ltac:(lia) ltac:(lia) ltac:(lia) ltac:(lia) ltac:(lia)).
Defined.

(** ** Statistics *)

Lemma count_by_status_lookup (rows : list RoadmapRow.t) (s : option string) :
  default 0%Z (DbMcp.count_by_status rows !! s) = Z.of_nat (rows_of_status s rows)
  /\ (DbMcp.count_by_status rows !! s = None <-> rows_of_status s rows = 0%nat).
Proof.
  unfold rows_of_status. induction rows as [|r rows [IHd IHn]]; simpl.
  - rewrite lookup_empty. simpl. tauto.
  - case_bool_decide as E.
    + subst s. rewrite lookup_insert_eq. simpl length. simpl default at 1.
      split; [lia|]. split; [discriminate | lia].
    + rewrite lookup_insert_ne by exact E. split; [exact IHd | exact IHn].
Qed.

(** X20. The status breakdown of [get_roadmap_stats] lists exactly the
    statuses that occur in the table (a NULL status under the key [None]),
    each with the number of its rows; [total_items] is the number of all
    rows. *)
Theorem stats_breakdown_counts (db : store) (s : option string) :
  DbMcp.total_items (DbMcp.get_roadmap_stats db)
  = Z.of_nat (length (roadmap_items db))
  /\ (match DbMcp.status_breakdown (DbMcp.get_roadmap_stats db) !! s with
      | Some n => n = Z.of_nat (rows_of_status s (roadmap_items db)) /\ (0 < n)%Z
      | None => rows_of_status s (roadmap_items db) = 0%nat
      end).
Proof.
  split; [reflexivity|]. simpl.
  destruct (count_by_status_lookup (roadmap_items db) s) as [Hd Hn].
  destruct (DbMcp.count_by_status (roadmap_items db) !! s) as [n|] eqn:E.
  - simpl in Hd. split; [exact Hd|].
    destruct (rows_of_status s (roadmap_items db)) eqn:Hc; [|lia].
    destruct Hn as [_ Hn]. specialize (Hn eq_refl). discriminate.
  - apply Hn. reflexivity.
Qed.

(** ** Rows without an embedding *)



Section Unembedded.
Variable cosine_distance : vector -> vector -> Q.
Variable q : vector.




End Unembedded.




